(** * MHSolver: detection and execution pipeline

    A shallow embedding of the grid solver of this repository together
    with the properties stated about it.  The sources are
    - [solver.js]: capture geometry, presence validation, signature
      extraction, the decision tree, the key sequence, the configuration;
    - its later revision, which relabels the letter of every cell through
      a [letterMap] (module [Remap] below);
    - [main.js]: [startSolver] and [stopSolver], which drive a run and
      report it to the window;
    - the earlier single-file [main.js], whose [detectLetter] classifies a
      cell without building a signature (module [Legacy] below), with the
      cells it cuts from the grid image and its key script (modules
      [LegacyGrid] and [LegacyKeys]);
    - the revision of [solver.js] that compares a cell with letter
      templates (module [Template] below).

    Conventions of the embedding.
    - JavaScript numbers that hold counts, pixel coordinates or channel
      values are integers ([Z], [nat] for loop counters and lengths).
    - JavaScript numbers that hold ratios are exact rationals ([Q]): the
      code divides one small integer by another or multiplies a count by a
      decimal constant.  Rounding in double precision is not modelled; no
      property below rests on the outcome of a comparison at an exact tie.
    - One-character strings (the symbols of the grid, the keys that are
      sent) are [ascii]; ['?'] is the Unknown symbol.
    - Reading an array past its end gives [undefined]; it is [None] here,
      and a comparison with [undefined] is [false] as in JavaScript.
    - Asynchronous code is written in a state-and-exception monad over a
      [World]; every [await] is a suspension point at which a stop
      request of the user may be served.
    - The session of [startSolver] keeps the configuration as it is during
      a run and takes every debug image as written.  Module [Full] has the
      detection of the letters without these two assumptions: requests
      that change the configuration are served at the suspension points,
      and the writing of a debug image may fail. *)

From Stdlib Require Import Ascii String DecimalString.
From Stdlib Require Import ZArith QArith Qabs Qfield Bool Lia List.
Import ListNotations.

Open Scope Z_scope.

(** * Numbers *)

(** [a < b] and [a >= b] on ratios, as booleans. *)
Definition Qltb (a b : Q) : bool := negb (Qle_bool b a).
Definition Qgeb (a b : Q) : bool := Qle_bool b a.

(** [Math.min(...l)] and [Math.max(...l)] of a list of integers.  The code
    takes them of a list of at least eighty elements; of the empty list
    they are infinities, which the embedding does not need. *)
Definition Math_min (l : list Z) : Z :=
  match l with
  | [] => 0
  | a :: t => fold_left Z.min t a
  end.

Definition Math_max (l : list Z) : Z :=
  match l with
  | [] => 0
  | a :: t => fold_left Z.max t a
  end.

(** * Raw pixel buffers *)

(** [data[i]]: [None] stands for [undefined]. *)
Definition at_index (data : list Z) (i : nat) : option Z := nth_error data i.

(** A pixel of [brightPixels]: [{ x, y }]. *)
Record Point : Type := mkPoint { px : Z; py : Z }.

(** * Signature extraction ([createLetterSignature], solver.js) *)

Record Signature : Type := mkSignature {
  cyanPixels : nat;
  pixelCount : nat;
  aspectRatio : Q;
  topHeavy : Q;
  bottomHeavy : Q;
  leftHeavy : Q;
  rightHeavy : Q;
  centerHole : bool
}.

(** The colour rule of the scan:
    [r < 120 && g > 100 && b > 120 && (g + b) > 230]. *)
Definition isCyanLetter (r g b : option Z) : bool :=
  match r, g, b with
  | Some r, Some g, Some b =>
      (r <? 120) && (g >? 100) && (b >? 120) && (g + b >? 230)
  | _, _, _ => false
  end.

(** The two nested loops, [y] outside and [x] inside, collecting the
    coordinates of the pixels that pass the colour rule. *)
Definition scanRow (data : list Z) (width channels y : nat) : list Point :=
  flat_map
    (fun x =>
       let i := ((y * width + x) * channels)%nat in
       if isCyanLetter (at_index data i) (at_index data (i + 1))
                       (at_index data (i + 2))
       then [mkPoint (Z.of_nat x) (Z.of_nat y)] else [])
    (seq 0 width).

Definition scanBright (data : list Z) (width height channels : nat)
  : list Point :=
  flat_map (scanRow data width channels) (seq 0 height).

(** The signature returned when fewer than eighty pixels were found. *)
Definition emptySignature (n : nat) : Signature :=
  {| cyanPixels := n; pixelCount := n;
     aspectRatio := 1;
     topHeavy := 0.5; bottomHeavy := 0.5;
     leftHeavy := 0.5; rightHeavy := 0.5;
     centerHole := false |}.

(** [l.filter(test).length] *)
Definition countIf (test : Point -> bool) (l : list Point) : nat :=
  length (filter test l).

(** [n / d] for two counts. *)
Definition ratio (n d : nat) : Q :=
  inject_Z (Z.of_nat n) / inject_Z (Z.of_nat d).

(** The part of [createLetterSignature] that follows the scan. *)
Definition signatureOf (brightPixels : list Point) : Signature :=
  if (length brightPixels <? 80)%nat then emptySignature (length brightPixels)
  else
    let minX := Math_min (map px brightPixels) in
    let maxX := Math_max (map px brightPixels) in
    let minY := Math_min (map py brightPixels) in
    let maxY := Math_max (map py brightPixels) in
    let letterWidth := maxX - minX + 1 in
    let letterHeight := maxY - minY + 1 in
    let aspectRatio := (inject_Z letterWidth / inject_Z letterHeight)%Q in
    let centerX := (inject_Z (minX + maxX) / 2)%Q in
    let centerY := (inject_Z (minY + maxY) / 2)%Q in
    let topPixels :=
      countIf (fun p => Qltb (inject_Z (py p)) centerY) brightPixels in
    let bottomPixels :=
      countIf (fun p => Qgeb (inject_Z (py p)) centerY) brightPixels in
    let leftPixels :=
      countIf (fun p => Qltb (inject_Z (px p)) centerX) brightPixels in
    let rightPixels :=
      countIf (fun p => Qgeb (inject_Z (px p)) centerX) brightPixels in
    let total := length brightPixels in
    let topHeavy := ratio topPixels total in
    let bottomHeavy := ratio bottomPixels total in
    let leftHeavy := ratio leftPixels total in
    let rightHeavy := ratio rightPixels total in
    let centerRadius := (inject_Z (Z.min letterWidth letterHeight) / 4)%Q in
    let centerPixels :=
      countIf (fun p =>
                 Qltb (Qabs (inject_Z (px p) - centerX)) centerRadius &&
                 Qltb (Qabs (inject_Z (py p) - centerY)) centerRadius)
              brightPixels in
    let centerHole :=
      Qltb (inject_Z (Z.of_nat centerPixels))
           (inject_Z (Z.of_nat total) * 0.15) in
    {| cyanPixels := length brightPixels;
       pixelCount := length brightPixels;
       aspectRatio := aspectRatio;
       topHeavy := topHeavy;
       bottomHeavy := bottomHeavy;
       leftHeavy := leftHeavy;
       rightHeavy := rightHeavy;
       centerHole := centerHole |}.

Definition createLetterSignature (data : list Z) (width height channels : nat)
  : Signature :=
  signatureOf (scanBright data width height channels).

(** ** The scan, reading the buffer front to back

    The index [(y * width + x) * channels] grows by [channels] from one
    pixel of the loops to the next, so the scan may as well walk the
    buffer.  [scanStream] does, and is proved below to give the list of
    [scanBright]; it is what the examples on whole screens are run with. *)

Definition pixelCoords (width height : nat) : list (nat * nat) :=
  flat_map (fun y => map (fun x => (x, y)) (seq 0 width)) (seq 0 height).

Fixpoint scanStream (channels : nat) (coords : list (nat * nat))
  (rest : list Z) : list Point :=
  match coords with
  | [] => []
  | (x, y) :: coords' =>
      (if isCyanLetter (at_index rest 0) (at_index rest 1) (at_index rest 2)
       then [mkPoint (Z.of_nat x) (Z.of_nat y)] else [])
      ++ scanStream channels coords' (skipn channels rest)
  end.

(** * Classification ([matchSignatureToLetter], solver.js) *)

Definition Qgtb (a b : Q) : bool := Qltb b a.
Definition Qleb (a b : Q) : bool := Qle_bool a b.

(** The last rules of the decision tree, reached from two places. *)
Definition fallbackLetter (aspectRatio leftHeavy : Q) (centerHole : bool)
  : ascii :=
  if Qgtb aspectRatio 1.25 then "W"
  else if Qgtb leftHeavy 0.58 then "E"
  else if Qgtb leftHeavy 0.52 then (if centerHole then "D" else "R")
  else "S".

Definition matchSignatureToLetter (signature : Signature) : ascii :=
  if (cyanPixels signature <? 50)%nat then "?"
  else
    let aspectRatio := aspectRatio signature in
    let leftHeavy := leftHeavy signature in
    let rightHeavy := rightHeavy signature in
    let centerHole := centerHole signature in
    if Qgtb aspectRatio 2.0 || Qltb aspectRatio 0.15 then
      if Qgtb leftHeavy 0.65 then "E"
      else if Qgtb leftHeavy 0.55 then "D"
      else "S"
    else if Qgtb aspectRatio 1.30 then "W"
    else if centerHole then
      if Qltb aspectRatio 0.85 && Qgtb leftHeavy 0.60 then "D"
      else if Qgtb aspectRatio 0.65 && Qltb aspectRatio 0.90
              && Qltb (Qabs (leftHeavy - rightHeavy)) 0.15 then "Q"
      else "A"
    else if Qltb aspectRatio 1.1 && Qgtb leftHeavy 0.60 then "E"
    else if Qltb aspectRatio 1.1 && Qgtb leftHeavy 0.54
            && Qleb leftHeavy 0.60 then "R"
    else if Qgtb aspectRatio 0.70 && Qltb aspectRatio 1.25 then
      if Qltb (Qabs (leftHeavy - rightHeavy)) 0.18 then "S"
      else fallbackLetter aspectRatio leftHeavy centerHole
    else fallbackLetter aspectRatio leftHeavy centerHole.

(** What [sharp(buffer).raw().toBuffer({ resolveWithObject: true })] gives:
    [data] and the [info] of its layout. *)
Record RawImage : Type := mkRaw {
  data : list Z;
  info_width : nat;
  info_height : nat;
  info_channels : nat
}.

(** A cell buffer is an encoded image.  Decoding it gives a raw image, or
    fails ([None]), in which case the [catch] of the caller runs. *)
Definition CellBuffer : Type := option RawImage.

(** ** The per-cell pipeline of solver.js ([detectCellLetter]) *)
Module Solver.

Definition detectCellLetter (cellBuffer : CellBuffer) : ascii :=
  match cellBuffer with
  | None => "?"
  | Some raw =>
      let signature :=
        createLetterSignature (data raw) (info_width raw) (info_height raw)
                              (info_channels raw) in
      if (cyanPixels signature <? 50)%nat then "?"
      else matchSignatureToLetter signature
  end.

(** The same pipeline over [scanStream]. *)
Definition detectCellLetterStream (cellBuffer : CellBuffer) : ascii :=
  match cellBuffer with
  | None => "?"
  | Some raw =>
      let signature :=
        signatureOf (scanStream (info_channels raw)
                                (pixelCoords (info_width raw) (info_height raw))
                                (data raw)) in
      if (cyanPixels signature <? 50)%nat then "?"
      else matchSignatureToLetter signature
  end.

End Solver.

(** ** The per-cell pipeline of the revision of solver.js that relabels
    its output ([detectCellLetter] with [letterMap]) *)
Module Remap.

(** [letterMap]: the object literal, as the list of its entries. *)
Definition letterMap : list (ascii * ascii) :=
  [ ("A", "D"); ("S", "A"); ("D", "E"); ("Q", "R"); ("W", "W") ]%char.

(** [letterMap[key]]: the value of the entry, [None] for [undefined]. *)
Fixpoint lookup (key : ascii) (entries : list (ascii * ascii))
  : option ascii :=
  match entries with
  | [] => None
  | (k, v) :: rest => if Ascii.eqb k key then Some v else lookup key rest
  end.

(** [letterMap[letter] || letter]: every value of the table is a
    non-empty string, hence truthy. *)
Definition corrected (letter : ascii) : ascii :=
  match lookup letter letterMap with
  | Some v => v
  | None => letter
  end.

Definition detectCellLetter (cellBuffer : CellBuffer) : ascii :=
  match cellBuffer with
  | None => "?"
  | Some raw =>
      let signature :=
        createLetterSignature (data raw) (info_width raw) (info_height raw)
                              (info_channels raw) in
      if (cyanPixels signature <? 50)%nat then "?"
      else
        let detectedLetter := matchSignatureToLetter signature in
        corrected detectedLetter
  end.

End Remap.

(** ** The per-cell pipeline of the earlier single-file main.js
    ([detectLetter]) *)
Module Legacy.

(** The quotient of two integers where the divisor may be zero. *)
Inductive jsnum : Type :=
| Num (q : Q)
| PosInfinity
| NaN.

(** [n / d] for [n >= 0] and [d >= 0]. *)
Definition js_div (n d : Z) : jsnum :=
  if d =? 0 then (if n =? 0 then NaN else PosInfinity)
  else Num (inject_Z n / inject_Z d).

Definition js_gt (a : jsnum) (c : Q) : bool :=
  match a with
  | Num q => Qgtb q c
  | PosInfinity => true
  | NaN => false
  end.

Definition js_lt (a : jsnum) (c : Q) : bool :=
  match a with
  | Num q => Qltb q c
  | PosInfinity => false
  | NaN => false
  end.

Definition isCyanLetter (r g b : option Z) : bool :=
  match r, g, b with
  | Some r, Some g, Some b =>
      let brightness := r + g + b in
      let colorDeviation := Z.abs (r - g) + Z.abs (r - b) + Z.abs (g - b) in
      (b >? 80) && (g >? 50) && (r <? 160) && (brightness >? 180)
      && (colorDeviation >? 60)
      && Qgtb (inject_Z b) (inject_Z r * 0.7)
  | _, _, _ => false
  end.

Definition scanRow (data : list Z) (w channels y : nat) : list Point :=
  flat_map
    (fun x =>
       let i := ((y * w + x) * channels)%nat in
       if isCyanLetter (at_index data i) (at_index data (i + 1))
                       (at_index data (i + 2))
       then [mkPoint (Z.of_nat x) (Z.of_nat y)] else [])
    (seq 0 w).

Definition scanBright (data : list Z) (w h channels : nat) : list Point :=
  flat_map (scanRow data w channels) (seq 0 h).

(** The value of [letter] before it is relabelled, for the pixels that
    the scan has found. *)
Definition detectedLetter (brightPixels : list Point) : ascii :=
  let minX := Math_min (map px brightPixels) in
  let maxX := Math_max (map px brightPixels) in
  let minY := Math_min (map py brightPixels) in
  let maxY := Math_max (map py brightPixels) in
  let letterWidth := maxX - minX in
  let letterHeight := maxY - minY in
  let aspectRatio := js_div letterWidth letterHeight in
  let centerX := (inject_Z (minX + maxX) / 2)%Q in
  let centerY := (inject_Z (minY + maxY) / 2)%Q in
  let checkRadius := (inject_Z (Z.min letterWidth letterHeight) * 0.25)%Q in
  (* [Math.sqrt(dx*dx + dy*dy) < checkRadius] with both sides squared:
     [checkRadius] is not negative. *)
  let centerPixels :=
    countIf (fun pixel =>
               let dx := (inject_Z (px pixel) - centerX)%Q in
               let dy := (inject_Z (py pixel) - centerY)%Q in
               Qltb (dx * dx + dy * dy) (checkRadius * checkRadius))
            brightPixels in
  let hasHole :=
    Qltb (inject_Z (Z.of_nat centerPixels))
         (inject_Z (Z.of_nat (length brightPixels)) * 0.3) in
  let leftPixels :=
    countIf (fun p => Qltb (inject_Z (px p)) centerX) brightPixels in
  let rightPixels :=
    countIf (fun p => Qgeb (inject_Z (px p)) centerX) brightPixels in
  if hasHole then
    if js_gt aspectRatio 0.95 then "A"
    else if js_lt aspectRatio 0.65
            && Qgtb (inject_Z (Z.of_nat leftPixels))
                    (inject_Z (Z.of_nat rightPixels) * 1.5)
         then "D"
    else if js_gt aspectRatio 0.75 && js_lt aspectRatio 0.95 then "Q"
    else "D"
  else
    if js_gt aspectRatio 1.1 then "W" else "S".

(** The [letter] field of the object that [detectLetter] returns for the
    extracted cell region. *)
Definition detectLetter (cell : RawImage) : ascii :=
  let brightPixels :=
    scanBright (data cell) (info_width cell) (info_height cell)
               (info_channels cell) in
  if (length brightPixels <? 30)%nat then "?"
  else Remap.corrected (detectedLetter brightPixels).

End Legacy.

(** * Screens and their regions *)

(** A decoded screen capture: its size and the red, green and blue value
    of every pixel. *)
Record Frame : Type := mkFrame {
  fwidth : Z;
  fheight : Z;
  pixel : Z -> Z -> Z * Z * Z
}.

Definition rawRow (img : Frame) (left top : Z) (width y : nat) : list Z :=
  flat_map
    (fun x =>
       let '(r, g, b) := pixel img (left + Z.of_nat x) (top + Z.of_nat y) in
       [r; g; b])
    (seq 0 width).

(** [sharp(img).extract({ left, top, width, height })] followed by the
    decoding of the result: the three channels of the region, row by row.
    A region that is empty or leaves the image is refused. *)
Definition extract (img : Frame) (left top width height : Z)
  : option RawImage :=
  if (0 <=? left) && (0 <=? top) && (0 <? width) && (0 <? height)
     && (left + width <=? fwidth img) && (top + height <=? fheight img)
  then
    Some {| data := flat_map (rawRow img left top (Z.to_nat width))
                             (seq 0 (Z.to_nat height));
            info_width := Z.to_nat width;
            info_height := Z.to_nat height;
            info_channels := 3 |}
  else None.

(** * Configuration (solver.js) *)

Record Config : Type := mkConfig {
  baseDelay : Z;
  delayVariance : Z;
  resolution : string;
  cellSize : Z;
  cellSpacing : Z;
  offsetX : Z;
  offsetY : Z
}.

(** An entry of [RESOLUTION_CONFIGS]. *)
Record ResolutionConfig : Type := mkResolutionConfig {
  res_cellSize : Z;
  res_cellSpacing : Z;
  res_offsetX : Z;
  res_offsetY : Z
}.

(** [RESOLUTION_CONFIGS[key]]: the object literal has two keys.  (Names
    that every object inherits, such as ["constructor"], are not modelled;
    the settings panel offers the two resolutions only.) *)
Definition RESOLUTION_CONFIGS (key : string) : option ResolutionConfig :=
  if String.eqb key "1920x1080" then
    Some {| res_cellSize := 100; res_cellSpacing := 95;
            res_offsetX := -108; res_offsetY := -88 |}
  else if String.eqb key "2560x1440" then
    Some {| res_cellSize := 133; res_cellSpacing := 127;
            res_offsetX := -144; res_offsetY := -117 |}
  else None.

(** The value of [config] when the module is loaded. *)
Definition initialConfig : Config :=
  {| baseDelay := 150; delayVariance := 50; resolution := "1920x1080";
     cellSize := 100; cellSpacing := 95; offsetX := -108; offsetY := -88 |}.

(** The argument of [updateConfig]: an object in which every property may
    be missing. *)
Record NewConfig : Type := mkNewConfig {
  new_baseDelay : option Z;
  new_delayVariance : option Z;
  new_resolution : option string;
  new_cellSize : option Z;
  new_cellSpacing : option Z;
  new_offsetX : option Z;
  new_offsetY : option Z
}.

(** One property of [{ ...config, ...newConfig }]. *)
Definition spread {A : Type} (old : A) (new : option A) : A :=
  match new with
  | Some v => v
  | None => old
  end.

(** Truthiness of a property that holds a number or is missing. *)
Definition truthy_number (v : option Z) : bool :=
  match v with
  | Some n => negb (n =? 0)
  | None => false
  end.

(** Truthiness of a string. *)
Definition truthy_string (s : string) : bool := negb (String.eqb s "").

Definition updateConfig (newConfig : NewConfig) (config : Config) : Config :=
  let config :=
    {| baseDelay := spread (baseDelay config) (new_baseDelay newConfig);
       delayVariance :=
         spread (delayVariance config) (new_delayVariance newConfig);
       resolution := spread (resolution config) (new_resolution newConfig);
       cellSize := spread (cellSize config) (new_cellSize newConfig);
       cellSpacing := spread (cellSpacing config) (new_cellSpacing newConfig);
       offsetX := spread (offsetX config) (new_offsetX newConfig);
       offsetY := spread (offsetY config) (new_offsetY newConfig) |} in
  match new_resolution newConfig with
  | Some key =>
      if truthy_string key then
        match RESOLUTION_CONFIGS key with
        | Some resConfig =>
            {| baseDelay := baseDelay config;
               delayVariance := delayVariance config;
               resolution := resolution config;
               cellSize := res_cellSize resConfig;
               cellSpacing := res_cellSpacing resConfig;
               offsetX :=
                 if negb (truthy_number (new_offsetX newConfig))
                 then res_offsetX resConfig else offsetX config;
               offsetY :=
                 if negb (truthy_number (new_offsetY newConfig))
                 then res_offsetY resConfig else offsetY config |}
        | None => config
        end
      else config
  | None => config
  end.

(** * Grid geometry (solver.js) *)

(** [{ x, y }] of the top-left cell. *)
Definition getTopLeftCellPosition (config : Config) : Z * Z :=
  let screenWidth :=
    if String.eqb (resolution config) "2560x1440" then 2560 else 1920 in
  let screenHeight :=
    if String.eqb (resolution config) "2560x1440" then 1440 else 1080 in
  let topLeftX := (screenWidth - cellSize config) / 2 + offsetX config in
  let topLeftY := (screenHeight - cellSize config) / 2 + offsetY config in
  (Z.max 0 topLeftX, Z.max 0 topLeftY).

(** [{ x, y, width, height }] of the cell at [row], [col]. *)
Definition getCellPosition (config : Config) (row col : nat)
  (topLeftPos : Z * Z) : Z * Z * Z * Z :=
  (fst topLeftPos + Z.of_nat col * cellSpacing config,
   snd topLeftPos + Z.of_nat row * cellSpacing config,
   cellSize config, cellSize config).

(** * Presence validation ([validateMinigamePresent], solver.js) *)

Record ColourCounts : Type := mkCounts {
  cyanPixelCount : nat;
  darkBluePixelCount : nat;
  gridBorderPixelCount : nat
}.

(** One turn of the loop over the buffer: the three tests on the pixel
    that starts at the head of [rest]. *)
Definition countPixel (rest : list Z) (acc : ColourCounts) : ColourCounts :=
  match at_index rest 0, at_index rest 1, at_index rest 2 with
  | Some r, Some g, Some b =>
      let brightness := r + g + b in
      let colorDeviation := Z.abs (r - g) + Z.abs (r - b) + Z.abs (g - b) in
      let isCyan :=
        (b >? 100) && (g >? 70) && (r <? 140) && (brightness >? 230)
        && (colorDeviation >? 80) in
      let isDarkBlue := (b >? 20) && (b <? 80) && (r <? 50) && (g <? 70) in
      let isBorder :=
        ((b >? 90) && (b <? 220)) && ((g >? 70) && (g <? 180))
        && (r <? 140) in
      {| cyanPixelCount :=
           if isCyan then S (cyanPixelCount acc) else cyanPixelCount acc;
         darkBluePixelCount :=
           if isDarkBlue then S (darkBluePixelCount acc)
           else darkBluePixelCount acc;
         gridBorderPixelCount :=
           if isBorder then S (gridBorderPixelCount acc)
           else gridBorderPixelCount acc |}
  | _, _, _ => acc
  end.

(** [for (let i = 0; i < data.length; i += info.channels)]: [rest] is the
    buffer from index [i] on.  The loop ends within [length data] turns
    when [channels] is positive, and that is the [fuel] it is given. *)
Fixpoint countColours (fuel channels : nat) (rest : list Z)
  (acc : ColourCounts) : ColourCounts :=
  match fuel with
  | O => acc
  | S fuel' =>
      match rest with
      | [] => acc
      | _ :: _ =>
          countColours fuel' channels (skipn channels rest)
                       (countPixel rest acc)
      end
  end.

Definition percentage (count : nat) (totalPixels : Q) : Q :=
  inject_Z (Z.of_nat count) / totalPixels * 100.

(** The verdict on the decoded grid region. *)
Definition isPresent (grid : RawImage) : bool :=
  let counts :=
    countColours (length (data grid)) (info_channels grid) (data grid)
                 {| cyanPixelCount := 0; darkBluePixelCount := 0;
                    gridBorderPixelCount := 0 |} in
  let totalPixels :=
    (inject_Z (Z.of_nat (length (data grid)))
     / inject_Z (Z.of_nat (info_channels grid)))%Q in
  let cyanPercentage := percentage (cyanPixelCount counts) totalPixels in
  let darkBluePercentage :=
    percentage (darkBluePixelCount counts) totalPixels in
  let borderPercentage :=
    percentage (gridBorderPixelCount counts) totalPixels in
  let hasLetters :=
    Qgtb cyanPercentage 0.2 && (150 <? cyanPixelCount counts)%nat in
  let hasBackground := Qgtb darkBluePercentage 25 in
  let hasGridLines := Qgtb borderPercentage 1.0 in
  hasLetters && hasBackground && hasGridLines.

(** The value that [validateMinigamePresent] resolves to, as a function
    of the configuration and the screenshot: a region that cannot be
    extracted is caught and answered with [false]. *)
Definition minigamePresent (config : Config) (fullScreenshot : Frame) : bool :=
  let topLeftPos := getTopLeftCellPosition config in
  let gridSize := cellSpacing config * 2 + cellSize config in
  match extract fullScreenshot (fst topLeftPos) (snd topLeftPos)
                gridSize gridSize with
  | Some grid => isPresent grid
  | None => false
  end.

(** * The session: events, world and monad *)

(** The [status] of a ['solver-status'] message. *)
Inductive Status : Type :=
| detecting
| executing
| complete
| error
| stopped.

(** What a run does that can be seen from outside: the messages sent to
    the window, the debug image written for a cell, and the key handed to
    the key injection. *)
Inductive Event : Type :=
| SolverStatus (status : Status) (message : string)
| GridDetected (letters : list ascii)
| KeyPressed (index : nat) (letter : option ascii)
| DebugCellSaved (row col : nat)
| SendKey (key : ascii).

(** The variables of the two modules and the history of the run. *)
Record World : Type := mkWorld {
  config_of : Config;
  shouldStop : bool;
  isDetecting : bool;
  suspensions : nat;
  trace : list Event
}.

Inductive outcome (A : Type) : Type :=
| Return (a : A)
| Throw (message : string).

Arguments Return {A} a.
Arguments Throw {A} message.

Definition M (A : Type) : Type := World -> outcome A * World.

Definition ret {A : Type} (a : A) : M A := fun w => (Return a, w).

Definition throw {A : Type} (message : string) : M A :=
  fun w => (Throw message, w).

Definition bind {A B : Type} (m : M A) (k : A -> M B) : M B :=
  fun w =>
    match m w with
    | (Return a, w') => k a w'
    | (Throw message, w') => (Throw message, w')
    end.

Notation "x <- c1 ;; c2" := (bind c1 (fun x => c2))
  (at level 61, c1 at next level, right associativity).
Notation "c1 ;; c2" := (bind c1 (fun _ => c2))
  (at level 61, right associativity).

(** [try { m } catch (error) { handler(error.message) }] *)
Definition tryCatch {A : Type} (m : M A) (handler : string -> M A) : M A :=
  fun w =>
    match m w with
    | (Return a, w') => (Return a, w')
    | (Throw message, w') => handler message w'
    end.

(** [try { m } finally { after }], for an [after] that cannot throw. *)
Definition tryFinally {A : Type} (m : M A) (after : World -> World) : M A :=
  fun w => let '(r, w') := m w in (r, after w').

Definition emit (e : Event) : M unit :=
  fun w =>
    (Return tt,
     {| config_of := config_of w; shouldStop := shouldStop w;
        isDetecting := isDetecting w; suspensions := suspensions w;
        trace := trace w ++ [e] |}).

Definition setShouldStop (b : bool) (w : World) : World :=
  {| config_of := config_of w; shouldStop := b;
     isDetecting := isDetecting w; suspensions := suspensions w;
     trace := trace w |}.

Definition setIsDetecting (b : bool) (w : World) : World :=
  {| config_of := config_of w; shouldStop := shouldStop w;
     isDetecting := b; suspensions := suspensions w;
     trace := trace w |}.

Definition suspended (w : World) : World :=
  {| config_of := config_of w; shouldStop := shouldStop w;
     isDetecting := isDetecting w; suspensions := S (suspensions w);
     trace := trace w |}.

Definition showNat (n : nat) : string :=
  NilEmpty.string_of_uint (Nat.to_uint n).

(** [String.prototype.toLowerCase] on one character. *)
Definition toLowerCase (c : ascii) : ascii :=
  let n := nat_of_ascii c in
  if ((65 <=? n) && (n <=? 90))%nat then ascii_of_nat (n + 32) else c.

(** [stop] of solver.js. *)
Definition stop (w : World) : World := setShouldStop true w.

(** [stopSolver] of main.js. *)
Definition stopSolver : M unit :=
  fun w => emit (SolverStatus stopped "Stopped") (stop (setIsDetecting false w)).

Section Session.

(** The surroundings of one run: at which of its suspension points the
    user asks to stop, what the screen capture resolves to (a frame, or
    the message of its failure), and the time that the clock measures. *)
Variable stopRequested : nat -> bool.
Variable captured : Frame + string.
Variable executionTime : string.

(** The per-cell pipeline of the [solver] module in use. *)
Variable detectCellLetter : CellBuffer -> ascii.

(** A suspension point: the run waits for input or output to finish (a
    capture, an image operation of sharp, the PowerShell process of a key,
    a timer); a stop request that arrives meanwhile is served before it
    goes on.  Of the requests that the window can make meanwhile, the stop
    request is the one that is modelled. *)
Definition await : M unit :=
  fun w =>
    if stopRequested (suspensions w) then stopSolver (suspended w)
    else (Return tt, suspended w).

Definition captureScreen : M Frame :=
  await ;;
  match captured with
  | inl img => ret img
  | inr message => throw ("Screen capture failed: " ++ message)
  end.

Definition validateMinigamePresent (fullScreenshot : Frame) : M bool :=
  fun w =>
    let config := config_of w in
    let topLeftPos := getTopLeftCellPosition config in
    let gridSize := cellSpacing config * 2 + cellSize config in
    (await ;;
     match extract fullScreenshot (fst topLeftPos) (snd topLeftPos)
                   gridSize gridSize with
     | Some grid => await ;; ret (isPresent grid)
     | None => ret false
     end) w.

Definition captureSingleCell (row col : nat) (fullScreenshot : Frame)
  (topLeftPos : Z * Z) : M RawImage :=
  fun w =>
    let '(x, y, width, height) :=
      getCellPosition (config_of w) row col topLeftPos in
    (await ;;
     match extract fullScreenshot x y width height with
     | Some cellBuffer => ret cellBuffer
     | None =>
         throw ("Failed to capture cell [" ++ showNat row ++ ","
                ++ showNat col ++ "]: extract_area: bad extract area")
     end) w.

(** The cells in the order of the loops: [row] outside, [col] inside. *)
Definition gridCells : list (nat * nat) :=
  flat_map (fun row => map (fun col => (row, col)) (seq 0 3)) (seq 0 3).

(** The body of the two loops of [detectLetters], for the cells that are
    left: the cell is captured, its debug image is written, its letter is
    detected and pushed onto [letters].  (The writing succeeds here; see
    [Full.detectCells] for its failure.) *)
Fixpoint detectCells (fullScreenshot : Frame) (topLeftPos : Z * Z)
  (cells : list (nat * nat)) (letters : list ascii) : M (list ascii) :=
  match cells with
  | [] => ret letters
  | (row, col) :: rest =>
      cellBuffer <- captureSingleCell row col fullScreenshot topLeftPos ;;
      emit (DebugCellSaved row col) ;;
      await ;;
      await ;;
      let letter := detectCellLetter (Some cellBuffer) in
      detectCells fullScreenshot topLeftPos rest (letters ++ [letter])
  end.

(** The loops are followed by the writing of the debug image of the whole
    grid, whose failure is caught. *)
Definition detectLetters (fullScreenshot : Frame) : M (list ascii) :=
  fun w =>
    let topLeftPos := getTopLeftCellPosition (config_of w) in
    (letters <- detectCells fullScreenshot topLeftPos gridCells [] ;;
     await ;;
     ret letters) w.

(** The key is handed to PowerShell; a failure of the process is caught
    and logged. *)
Definition sendKey (key : ascii) : M unit :=
  emit (SendKey key) ;; await.

(** [sleep(getRandomDelay())]: how long the delay lasts plays no part
    here. *)
Definition sleep : M unit := await.

(** The body of the loop of [executeKeySequence] from index [i] on;
    [rest] holds [letters[i]], [letters[i + 1]], ... *)
Fixpoint keyLoop (length_of_letters : nat) (onKeyPress : option (nat -> M unit))
  (i : nat) (rest : list ascii) : M unit :=
  match rest with
  | [] => ret tt
  | letter :: rest' =>
      fun w =>
        if shouldStop w then throw "Sequence stopped by user" w
        else if Ascii.eqb letter "?" then
          keyLoop length_of_letters onKeyPress (S i) rest' w
        else
          (match onKeyPress with
           | Some callback => callback i
           | None => ret tt
           end ;;
           sendKey (toLowerCase letter) ;;
           (if (S i <? length_of_letters)%nat then sleep else ret tt) ;;
           keyLoop length_of_letters onKeyPress (S i) rest') w
  end.

Definition executeKeySequence (letters : list ascii)
  (onKeyPress : option (nat -> M unit)) : M unit :=
  fun w => keyLoop (length letters) onKeyPress 0 letters (setShouldStop false w).

Definition unknownCount (letters : list ascii) : nat :=
  length (filter (fun l => Ascii.eqb l "?") letters).

Definition tooManyUndetected (unknownCount : nat) : string :=
  "Too many undetected letters (" ++ showNat unknownCount
  ++ "/9). Try adjusting capture size or positioning minigame in center.".

(** Steps 1, 1.5 and 2 of the [try] block of [startSolver]: the capture,
    the presence check and the detection of the nine letters. *)
Definition detection : M (list ascii) :=
  emit (SolverStatus detecting "Capturing screen...") ;;
  screenshot <- captureScreen ;;
  emit (SolverStatus detecting "Checking for minigame...") ;;
  isMinigamePresent <- validateMinigamePresent screenshot ;;
  (* Here the source holds, between comment marks, the test of
     [isMinigamePresent] and the [throw] that went with it. *)
  emit (SolverStatus detecting "Detecting letters...") ;;
  detectLetters screenshot.

(** Step 3: the grid is shown, and the run goes on to the key sequence
    unless more than five letters are unknown. *)
Definition checkDetection (letters : list ascii) : M unit :=
  emit (GridDetected letters) ;;
  let unknownCount := unknownCount letters in
  (if (5 <? unknownCount)%nat then throw (tooManyUndetected unknownCount)
   else ret tt) ;;
  (if (0 <? unknownCount)%nat then
     emit (SolverStatus detecting
             ("Warning: " ++ showNat unknownCount
              ++ " letters unclear, will skip those positions"))
   else ret tt) ;;
  emit (SolverStatus executing "Executing key sequence...").

(** The callback that [startSolver] hands to [executeKeySequence]. *)
Definition notifyKeyPressed (letters : list ascii) (index : nat) : M unit :=
  emit (KeyPressed index (nth_error letters index)).

(** The [try] block of [startSolver]; steps 4 and 5 follow the check. *)
Definition solve : M unit :=
  letters <- detection ;;
  checkDetection letters ;;
  executeKeySequence letters (Some (notifyKeyPressed letters)) ;;
  emit (SolverStatus complete ("Complete in " ++ executionTime ++ "s")).

Definition startSolver : M unit :=
  fun w =>
    if isDetecting w then (Return tt, w)
    else
      (emit (SolverStatus detecting "Scanning screen...") ;;
       tryFinally
         (tryCatch solve (fun message => emit (SolverStatus error message)))
         (setIsDetecting false))
        (setIsDetecting true w).

End Session.

(** The world in which no run has started yet. *)
Definition idle (config : Config) : World :=
  {| config_of := config; shouldStop := false; isDetecting := false;
     suspensions := 0; trace := [] |}.

(** The world in which [startSolver], called on an idle world, enters its
    [try] block. *)
Definition entering (config : Config) : World :=
  snd (emit (SolverStatus detecting "Scanning screen...")
            (setIsDetecting true (idle config))).

(** A run reaches the key sequence with [letters] in the world [wE]. *)
Definition reachesExecution (stopRequested : nat -> bool)
  (captured : Frame + string) (detectCellLetter : CellBuffer -> ascii)
  (config : Config) (letters : list ascii) (wE : World) : Prop :=
  exists wD,
    detection stopRequested captured detectCellLetter (entering config)
    = (Return letters, wD)
    /\ checkDetection letters wD = (Return tt, wE).

(** * Reading a trace *)

Definition statuses (events : list Event) : list Status :=
  flat_map (fun e => match e with SolverStatus s _ => [s] | _ => [] end)
           events.

(** The status that the window shows last. *)
Definition finalStatus (events : list Event) : option Status :=
  last (map Some (statuses events)) None.

Definition sentKeys (events : list Event) : list ascii :=
  flat_map (fun e => match e with SendKey k => [k] | _ => [] end) events.

Definition pressedIndices (events : list Event) : list nat :=
  flat_map (fun e => match e with KeyPressed i _ => [i] | _ => [] end) events.

Definition known (letter : ascii) : bool := negb (Ascii.eqb letter "?").

(** The letters of a grid with their indices, [0] first. *)
Definition indexed (letters : list ascii) : list (nat * ascii) :=
  combine (seq 0 (length letters)) letters.

(** The cell of the grid that an index of the letter array stands for. *)
Definition cellOfIndex (i : nat) : nat * nat := (i / 3, i mod 3)%nat.

(** * The words of the specification *)

(** [x0 .. x1] by [y0 .. y1] is the axis-aligned bounding box of the
    pixels: it holds them all and each of its sides is touched. *)
Definition boundingBox (pixels : list Point) (x0 x1 y0 y1 : Z) : Prop :=
  (forall p, In p pixels -> x0 <= px p <= x1 /\ y0 <= py p <= y1)
  /\ (exists p, In p pixels /\ px p = x0)
  /\ (exists p, In p pixels /\ px p = x1)
  /\ (exists p, In p pixels /\ py p = y0)
  /\ (exists p, In p pixels /\ py p = y1).

(** The same, as a test. *)
Definition boundingBoxb (pixels : list Point) (x0 x1 y0 y1 : Z) : bool :=
  forallb (fun p => (x0 <=? px p) && (px p <=? x1)
                    && (y0 <=? py p) && (py p <=? y1)) pixels
  && existsb (fun p => px p =? x0) pixels
  && existsb (fun p => px p =? x1) pixels
  && existsb (fun p => py p =? y0) pixels
  && existsb (fun p => py p =? y1) pixels.

(** Width and height of a box, in pixels. *)
Definition boxWidth (x0 x1 : Z) : Z := x1 - x0 + 1.
Definition boxHeight (y0 y1 : Z) : Z := y1 - y0 + 1.

Definition boxCenter (a0 a1 : Z) : Q := inject_Z (a0 + a1) / 2.

(** A quarter of the smaller side of the box. *)
Definition quarterOfSmallerSide (x0 x1 y0 y1 : Z) : Q :=
  inject_Z (Z.min (boxWidth x0 x1) (boxHeight y0 y1)) / 4.

(** The pixel lies at a distance below [r] from the point [(cx, cy)]. *)
Definition withinDistance (cx cy r : Q) (p : Point) : bool :=
  let dx := (inject_Z (px p) - cx)%Q in
  let dy := (inject_Z (py p) - cy)%Q in
  Qltb (dx * dx + dy * dy) (r * r).

(** The pixel lies less than [r] to the side of [(cx, cy)] and less than
    [r] above or below it. *)
Definition withinSquare (cx cy r : Q) (p : Point) : bool :=
  Qltb (Qabs (inject_Z (px p) - cx)) r && Qltb (Qabs (inject_Z (py p) - cy)) r.

(** The hole flag as the distance reading has it. *)
Definition centerHole_by_distance (data : list Z) (width height channels : nat)
  : Prop :=
  let pixels := scanBright data width height channels in
  (80 <= length pixels)%nat ->
  forall x0 x1 y0 y1,
    boundingBox pixels x0 x1 y0 y1 ->
    centerHole (createLetterSignature data width height channels) = true
    <-> (inject_Z (Z.of_nat
           (countIf (withinDistance (boxCenter x0 x1) (boxCenter y0 y1)
                                    (quarterOfSmallerSide x0 x1 y0 y1))
                    pixels))
         < 0.15 * inject_Z (Z.of_nat (length pixels)))%Q.

(** A stop that the key sequence notices ends the run in the stopped
    state, and no error is reported. *)
Definition cancellation_not_an_error (stopRequested : nat -> bool)
  (captured : Frame + string) (executionTime : string)
  (detectCellLetter : CellBuffer -> ascii) (config : Config) : Prop :=
  forall letters wE,
    reachesExecution stopRequested captured detectCellLetter config letters wE ->
    fst (executeKeySequence stopRequested letters
           (Some (notifyKeyPressed letters)) wE)
    = Throw "Sequence stopped by user" ->
    let w' := snd (startSolver stopRequested captured executionTime
                               detectCellLetter (idle config)) in
    finalStatus (trace w') = Some stopped
    /\ forall message, ~ In (SolverStatus error message) (trace w').

(** * Example inputs *)

(** The whole of a small image, decoded. *)
Definition decode (img : Frame) : RawImage :=
  {| data := flat_map (rawRow img 0 0 (Z.to_nat (fwidth img)))
                      (seq 0 (Z.to_nat (fheight img)));
     info_width := Z.to_nat (fwidth img);
     info_height := Z.to_nat (fheight img);
     info_channels := 3 |}.

Definition cyan : Z * Z * Z := (0, 200, 200).
Definition black : Z * Z * Z := (0, 0, 0).

(** Ten by six pixels, all of them cyan: sixty foreground pixels. *)
Definition sixtyCyan : RawImage :=
  decode {| fwidth := 10; fheight := 6; pixel := fun _ _ => cyan |}.

(** A cell of a hundred by a hundred pixels, black but for a cyan mark
    of ten by six pixels in its middle: sixty foreground pixels. *)
Definition faintCell : RawImage :=
  decode {| fwidth := 100; fheight := 100;
            pixel := fun x y =>
              if (45 <=? x) && (x <? 55) && (47 <=? y) && (y <? 53)
              then cyan else black |}.

(** Twelve by ten pixels, all of them cyan. *)
Definition plate : RawImage :=
  decode {| fwidth := 12; fheight := 10; pixel := fun _ _ => cyan |}.

(** Forty-one by forty-one pixels: a cyan line along the top and one
    along the bottom, and four cyan blocks of three by three pixels at
    the corners of the middle square; the middle itself is black. *)
Definition fourBlocks : RawImage :=
  decode {| fwidth := 41; fheight := 41;
            pixel := fun x y =>
              if (y =? 0) || (y =? 40)
                 || ((8 <=? Z.abs (x - 20)) && (Z.abs (x - 20) <=? 10)
                     && (8 <=? Z.abs (y - 20)) && (Z.abs (y - 20) <=? 10))
              then cyan else black |}.

(** A full screen on which the first [rows] rows of the grid each hold
    three glyphs, sixty pixels wide and forty high, of colour [glyph] on
    the colour [ground]. *)
Definition gridScreen (glyph ground : Z * Z * Z) (rows : Z) : Frame :=
  {| fwidth := 1920; fheight := 1080;
     pixel := fun x y =>
       let dx := x - 802 in
       let dy := y - 402 in
       if (0 <=? dx) && (dx <? 285) && (0 <=? dy) && (dy <? 95 * rows)
          && (20 <=? dx mod 95) && (dx mod 95 <? 80)
          && (30 <=? dy mod 95) && (dy mod 95 <? 70)
       then glyph else ground |}.

(** Nine glyphs on the dark blue of the puzzle. *)
Definition puzzleScreen : Frame := gridScreen (0, 170, 200) (10, 20, 50) 3.

(** Three glyphs in the top row, the six other cells empty. *)
Definition topRowScreen : Frame := gridScreen (0, 170, 200) (10, 20, 50) 1.

(** Nine glyphs on black: no pixel has the dark blue of the puzzle. *)
Definition glyphsOnBlack : Frame := gridScreen cyan black 3.

(** Nobody asks to stop. *)
Definition undisturbed : nat -> bool := fun _ => false.

(** A stop request arrives at the suspension point [n]. *)
Definition stopAt (n : nat) : nat -> bool := fun k => Nat.eqb k n.

(** * Following a run *)

(** From [w] to [w'] the trace has grown by events that satisfy [P]. *)
Definition appends (P : Event -> Prop) (w w' : World) : Prop :=
  exists events, trace w' = trace w ++ events /\ Forall P events.

(** Whatever the world, the computation adds only events that satisfy
    [P]. *)
Definition emits {A : Type} (P : Event -> Prop) (m : M A) : Prop :=
  forall w, appends P w (snd (m w)).

(** The events of the detection: a status [detecting], the status
    [stopped] of a stop request, a debug image. *)
Definition quiet (e : Event) : Prop :=
  match e with
  | SolverStatus detecting _ => True
  | SolverStatus stopped _ => True
  | DebugCellSaved _ _ => True
  | _ => False
  end.

(** Any event but the display of a grid. *)
Definition notGrid (e : Event) : Prop :=
  match e with
  | GridDetected _ => False
  | _ => True
  end.

(** The events that neither send a key nor announce one. *)
Definition keyless (e : Event) : Prop :=
  match e with
  | KeyPressed _ _ => False
  | SendKey _ => False
  | _ => True
  end.

(** What [startSolver] makes of the way its [try] block ended. *)
Definition finish (result : outcome unit * World) : outcome unit * World :=
  match result with
  | (Return _, w) => (Return tt, setIsDetecting false w)
  | (Throw message, w) =>
      (Return tt,
       setIsDetecting false (snd (emit (SolverStatus error message) w)))
  end.

(** The events of the key sequence: a key announced, a key sent, the
    status [stopped] of a stop request. *)
Definition keyOrStop (e : Event) : Prop :=
  match e with
  | KeyPressed _ _ => True
  | SendKey _ => True
  | SolverStatus stopped _ => True
  | _ => False
  end.

(** The world after one turn of the loop of [executeKeySequence] that
    presses the key of [letter] at index [i]. *)
Definition afterKey (stopRequested : nat -> bool) (letters : list ascii)
  (length_of_letters i : nat) (letter : ascii) (w : World) : World :=
  snd ((notifyKeyPressed letters i ;;
        sendKey stopRequested (toLowerCase letter) ;;
        (if (S i <? length_of_letters)%nat then sleep stopRequested
         else ret tt)) w).

(** The letter that the pipeline [detect] reads in a cell of the screen,
    for the geometry of [config]. *)
Definition letterOfCell (detect : CellBuffer -> ascii) (config : Config)
  (img : Frame) (cell : nat * nat) (letter : ascii) : Prop :=
  let '(x, y, width, height) :=
    getCellPosition config (fst cell) (snd cell)
                    (getTopLeftCellPosition config) in
  exists cellBuffer,
    extract img x y width height = Some cellBuffer
    /\ letter = detect (Some cellBuffer).

(** The grid of [puzzleScreen] and the grid of [topRowScreen]. *)
Definition puzzleLetters : list ascii :=
  ["W"; "W"; "W"; "W"; "W"; "W"; "W"; "W"; "W"]%char.

Definition topRowLetters : list ascii :=
  ["W"; "W"; "W"; "?"; "?"; "?"; "?"; "?"; "?"]%char.

(** What the window has been sent when the detection of a screen is
    over, in the order of sending. *)
Definition detectionTrace : list Event :=
  [SolverStatus detecting "Scanning screen...";
   SolverStatus detecting "Capturing screen...";
   SolverStatus detecting "Checking for minigame...";
   SolverStatus detecting "Detecting letters...";
   DebugCellSaved 0 0; DebugCellSaved 0 1; DebugCellSaved 0 2;
   DebugCellSaved 1 0; DebugCellSaved 1 1; DebugCellSaved 1 2;
   DebugCellSaved 2 0; DebugCellSaved 2 1; DebugCellSaved 2 2].

(** The world in which the key sequence of [puzzleScreen] starts: the
    detection has gone through its thirty-one suspension points. *)
Definition puzzleExecution : World :=
  {| config_of := initialConfig; shouldStop := false; isDetecting := true;
     suspensions := 31;
     trace := detectionTrace
              ++ [GridDetected puzzleLetters;
                  SolverStatus executing "Executing key sequence..."] |}.

(** Both sides are the same list, up to the bracketing of [++]. *)
Ltac same_list :=
  repeat (progress (rewrite <- ?app_assoc; cbn [app])); reflexivity.

(** * More of solver.js: regions, delays *)

(** A rectangle of the screen: [left], [top], [width], [height]. *)
Definition Region : Type := (Z * Z * Z * Z)%type.

(** The pixel at [(x, y)] lies in the region. *)
Definition covers (region : Region) (x y : Z) : Prop :=
  let '(x0, y0, width, height) := region in
  x0 <= x < x0 + width /\ y0 <= y < y0 + height.

(** The region that [validateMinigamePresent] extracts. *)
Definition gridRegion (config : Config) : Region :=
  let topLeftPos := getTopLeftCellPosition config in
  let gridSize := cellSpacing config * 2 + cellSize config in
  (fst topLeftPos, snd topLeftPos, gridSize, gridSize).

(** The region that [captureSingleCell] extracts for a cell. *)
Definition cellRegion (config : Config) (row col : nat) : Region :=
  getCellPosition config row col (getTopLeftCellPosition config).

(** [sharp] accepts the region on the image. *)
Definition extractable (img : Frame) (region : Region) : Prop :=
  let '(x0, y0, width, height) := region in
  extract img x0 y0 width height <> None.

(** [Math.max] of two ratios. *)
Definition Math_maxQ (a b : Q) : Q := if Qle_bool a b then b else a.

(** [getRandomDelay], for the value [random] that [Math.random()] gives. *)
Definition getRandomDelay (config : Config) (random : Q) : Q :=
  let variance :=
    (random * inject_Z (delayVariance config) * 2
     - inject_Z (delayVariance config))%Q in
  Math_maxQ 50 (inject_Z (baseDelay config) + variance).

(** * The template matcher (the revision of solver.js with
    [solveMinigameFast]) *)
Module Template.

(** [b > 100 && g > 80 && r < 140] *)
Definition isCyan (r g b : option Z) : bool :=
  match r, g, b with
  | Some r, Some g, Some b => (b >? 100) && (g >? 80) && (r <? 140)
  | _, _, _ => false
  end.

(** The test of one buffer at the pixel [(x, y)]: the index is
    [(y * info.width + x) * 3], whatever the number of channels. *)
Definition cyanAt (img : RawImage) (xy : nat * nat) : bool :=
  let idx := ((snd xy * info_width img + fst xy) * 3)%nat in
  isCyan (at_index (data img) idx) (at_index (data img) (idx + 1))
         (at_index (data img) (idx + 2)).

(** The pixels that the two loops of [compareImages] visit. *)
Definition comparedPixels (cell template : RawImage) : list (nat * nat) :=
  pixelCoords (Nat.min (info_width cell) (info_width template))
              (Nat.min (info_height cell) (info_height template)).

Definition totalCyanPixels (cell template : RawImage) : nat :=
  length (filter (cyanAt template) (comparedPixels cell template)).

Definition matchingPixels (cell template : RawImage) : nat :=
  length (filter (fun xy => cyanAt template xy && cyanAt cell xy)
                 (comparedPixels cell template)).

Definition compareImages (cell template : RawImage) : Q :=
  if (0 <? totalCyanPixels cell template)%nat then
    ratio (matchingPixels cell template) (totalCyanPixels cell template) * 100
  else 0.

(** [{ letter, confidence }] *)
Definition Match : Type := (ascii * Q)%type.

(** [detectLetterFast]: [templates] holds the entries of the object in
    the order in which they were loaded. *)
Definition detectLetterFast (templates : list (ascii * RawImage))
  (cell : RawImage) : Match :=
  fold_left
    (fun (bestMatch : Match) (entry : ascii * RawImage) =>
       let confidence := compareImages cell (snd entry) in
       if Qgtb confidence (snd bestMatch) then (fst entry, confidence)
       else bestMatch)
    templates ("?"%char, 0%Q).

(** A JavaScript array, as the value that each index holds; [None] is
    [undefined]. *)
Definition Row : Type := nat -> option ascii.
Definition Grid : Type := nat -> option Row.

(** [Array(3).fill(null).map(() => Array(3).fill('?'))]: three rows, each
    an array of its own. *)
Definition newRow : Row := fun col => if (col <? 3)%nat then Some "?"%char else None.
Definition newGrid : Grid := fun row => if (row <? 3)%nat then Some newRow else None.

(** [grid[row][col] = letter]; where [grid[row]] is [undefined] the
    assignment throws ([None]). *)
Definition setCell (grid : Grid) (row col : nat) (letter : ascii)
  : option Grid :=
  match grid row with
  | None => None
  | Some old =>
      Some (fun r =>
              if Nat.eqb r row
              then Some (fun c => if Nat.eqb c col then Some letter else old c)
              else grid r)
  end.

(** [results.forEach(({ row, col, letter }) => { grid[row][col] = letter })] *)
Fixpoint fillGrid (results : list (nat * nat * ascii)) (grid : Grid)
  : option Grid :=
  match results with
  | [] => Some grid
  | (row, col, letter) :: rest =>
      match setCell grid row col letter with
      | Some grid' => fillGrid rest grid'
      | None => None
      end
  end.

(** The two loops that push [grid[row][col]] onto the sequence. *)
Definition rowOf (grid : Grid) (row : nat) : option (list (option ascii)) :=
  match grid row with
  | None => None
  | Some r => Some (map r (seq 0 3))
  end.

Definition sequenceOf (grid : Grid) : option (list (option ascii)) :=
  match rowOf grid 0, rowOf grid 1, rowOf grid 2 with
  | Some r0, Some r1, Some r2 => Some (r0 ++ r1 ++ r2)
  | _, _, _ => None
  end.

Section Keys.

(** When a stop is requested, and with which message, if any, the
    PowerShell process of the suspension point fails. *)
Variable stopRequested : nat -> bool.
Variable execError : nat -> option string.

(** The promise around [exec]: rejected when the process fails. *)
Definition execKey (key : ascii) : M unit :=
  fun w =>
    (emit (SendKey key) ;;
     await stopRequested ;;
     match execError (suspensions w) with
     | Some message => throw message
     | None => ret tt
     end) w.

(** [pressKeySequenceFast]: [break] on the stop flag, [continue] on
    ['?']. *)
Fixpoint pressKeySequenceFast (keys : list ascii) : M unit :=
  match keys with
  | [] => ret tt
  | key :: rest =>
      fun w =>
        if shouldStop w then (Return tt, w)
        else if Ascii.eqb key "?" then pressKeySequenceFast rest w
        else
          (execKey (toLowerCase key) ;;
           await stopRequested ;;
           pressKeySequenceFast rest) w
  end.

End Keys.

End Template.

(** * More of the earlier single-file main.js: the cells of the grid
    image *)
Module LegacyGrid.

(** The region handed to [detectLetter] for a cell, in [detectLetters]:
    a third of the image in each direction, less a padding of eight
    pixels on every side. *)
Definition cellRegion (width height : Z) (row col : nat) : Region :=
  let cellWidth := width / 3 in
  let cellHeight := height / 3 in
  let padding := 8 in
  (Z.of_nat col * cellWidth + padding,
   Z.of_nat row * cellHeight + padding,
   cellWidth - padding * 2,
   cellHeight - padding * 2).

(** The regions in the order of the loops. *)
Definition cellRegions (width height : Z) : list Region :=
  flat_map (fun row => map (fun col => cellRegion width height row col)
                           (seq 0 3))
           (seq 0 3).

End LegacyGrid.

(** * More example inputs and helpers for the statements *)

(** The pixel moved by [dx] to the right and by [dy] down. *)
Definition translate (dx dy : Z) (p : Point) : Point :=
  {| px := px p + dx; py := py p + dy |}.

(** A screen of one colour. *)
Definition uniformScreen (colour : Z * Z * Z) (width height : Z) : Frame :=
  {| fwidth := width; fheight := height; pixel := fun _ _ => colour |}.

(** The results of the detection in the template matcher, for the letter
    [letterAt] found in each cell: [Promise.all] keeps the order of the
    cells, which is the order of the loops. *)
Definition detectionResults (letterAt : nat * nat -> ascii)
  : list (nat * nat * ascii) :=
  map (fun cell => (fst cell, snd cell, letterAt cell)) gridCells.

(** Two bounds on the same ratio that cannot both hold. *)
Ltac Qcontra :=
  match goal with
  | H1 : (?c1 < ?a)%Q, H2 : (?a < ?c2)%Q |- _ =>
      generalize (Qlt_trans _ _ _ H1 H2); unfold Qlt; simpl; lia
  | H1 : (?c1 < ?a)%Q, H2 : (?a <= ?c2)%Q |- _ =>
      generalize (Qlt_le_trans _ _ _ H1 H2); unfold Qlt; simpl; lia
  | H1 : (?c1 <= ?a)%Q, H2 : (?a < ?c2)%Q |- _ =>
      generalize (Qle_lt_trans _ _ _ H1 H2); unfold Qlt; simpl; lia
  end.

(** * More of the earlier single-file main.js: the key script *)
Module LegacyKeys.

(** A line of the PowerShell script that [pressKeys] builds. *)
Inductive Command : Type :=
| SendWait (keyName : ascii)
| StartSleep (milliseconds : Z).

(** The chain of conditional expressions that gives [keyName]. *)
Definition keyName (lowerKey : ascii) : ascii :=
  if Ascii.eqb lowerKey "q" then "q"
  else if Ascii.eqb lowerKey "w" then "w"
  else if Ascii.eqb lowerKey "e" then "e"
  else if Ascii.eqb lowerKey "r" then "r"
  else if Ascii.eqb lowerKey "a" then "a"
  else if Ascii.eqb lowerKey "s" then "s"
  else if Ascii.eqb lowerKey "d" then "d"
  else lowerKey.

(** [commands] once [keys.forEach] is through, for
    [keys = sequence.split('')]. *)
Definition commands (sequence : string) : list Command :=
  flat_map (fun key =>
              let lowerKey := toLowerCase key in
              [SendWait (keyName lowerKey); StartSleep 50])
           (list_ascii_of_string sequence).

(** [letters.join('')] for letters of one character each. *)
Definition join (letters : list ascii) : string :=
  string_of_list_ascii letters.

End LegacyKeys.

(** * The detection under every request and failure

    [detectLetters] once more, with what the session above leaves out:
    a change of the configuration that the window asks for while the
    detection waits, the failure of the writing of a debug image, and the
    message with which sharp refuses a region. *)
Module Full.

Definition setConfig (config : Config) (w : World) : World :=
  {| config_of := config; shouldStop := shouldStop w;
     isDetecting := isDetecting w; suspensions := suspensions w;
     trace := trace w |}.

(** The handler of ['update-config'], for the requests that have arrived,
    in the order of their arrival. *)
Definition served (newConfigs : list NewConfig) (config : Config) : Config :=
  fold_left (fun config newConfig => updateConfig newConfig config)
            newConfigs config.

Section Detection.

(** The surroundings of a detection: at which suspension points the user
    asks to stop, which ['update-config'] requests arrive at each, what
    sharp says of a region that it refuses, and with which message, if
    any, the writing of a debug image fails. *)
Variable stopRequested : nat -> bool.
Variable configUpdates : nat -> list NewConfig.
Variable extractMessage : Frame -> Z -> Z -> Z -> Z -> string.
Variable writeError : nat -> option string.

Variable detectCellLetter : CellBuffer -> ascii.

(** A suspension point: the requests of the window that have arrived are
    served before the run goes on. *)
Definition await : M unit :=
  fun w =>
    let w1 :=
      setConfig (served (configUpdates (suspensions w)) (config_of w)) w in
    if stopRequested (suspensions w) then stopSolver (suspended w1)
    else (Return tt, suspended w1).

Definition captureSingleCell (row col : nat) (fullScreenshot : Frame)
  (topLeftPos : Z * Z) : M RawImage :=
  fun w =>
    let '(x, y, width, height) :=
      getCellPosition (config_of w) row col topLeftPos in
    (await ;;
     match extract fullScreenshot x y width height with
     | Some cellBuffer => ret cellBuffer
     | None =>
         throw ("Failed to capture cell [" ++ showNat row ++ ","
                ++ showNat col ++ "]: "
                ++ extractMessage fullScreenshot x y width height)
     end) w.

(** [await sharp(cellBuffer).toFile(cellDebugPath)]: no handler stands
    around it. *)
Definition saveDebugCell (row col : nat) : M unit :=
  fun w =>
    match writeError (suspensions w) with
    | Some message => (await ;; throw message) w
    | None => (emit (DebugCellSaved row col) ;; await) w
    end.

Fixpoint detectCells (fullScreenshot : Frame) (topLeftPos : Z * Z)
  (cells : list (nat * nat)) (letters : list ascii) : M (list ascii) :=
  match cells with
  | [] => ret letters
  | (row, col) :: rest =>
      cellBuffer <- captureSingleCell row col fullScreenshot topLeftPos ;;
      saveDebugCell row col ;;
      await ;;
      let letter := detectCellLetter (Some cellBuffer) in
      detectCells fullScreenshot topLeftPos rest (letters ++ [letter])
  end.

Definition detectLetters (fullScreenshot : Frame) : M (list ascii) :=
  fun w =>
    let topLeftPos := getTopLeftCellPosition (config_of w) in
    (letters <- detectCells fullScreenshot topLeftPos gridCells [] ;;
     await ;;
     ret letters) w.

End Detection.

End Full.

(** The letter that the pipeline [detect] reads in a cell of the screen,
    in the region that [getCellPosition] gives for the cell under some
    configuration; the configuration is that of [w] when no request has
    changed it from the suspension point of [w] on. *)
Definition letterReadInCell (configUpdates : nat -> list NewConfig)
  (detect : CellBuffer -> ascii) (w : World) (img : Frame)
  (topLeftPos : Z * Z) (cell : nat * nat) (letter : ascii) : Prop :=
  exists config cellBuffer,
    ((forall n, (suspensions w <= n)%nat -> configUpdates n = []) ->
     config = config_of w)
    /\ (let '(x, y, width, height) :=
          getCellPosition config (fst cell) (snd cell) topLeftPos in
        extract img x y width height = Some cellBuffer)
    /\ letter = detect (Some cellBuffer).

(** No request changes the configuration. *)
Definition unchanged : nat -> list NewConfig := fun _ => [].

(** What sharp says of a region that leaves the image. *)
Definition badExtractArea : Frame -> Z -> Z -> Z -> Z -> string :=
  fun _ _ _ _ _ => "extract_area: bad extract area"%string.

(** Every debug image is written. *)
Definition written : nat -> option string := fun _ => None.

(** * Ratios and counts *)

Lemma Qltb_lt (a b : Q) : Qltb a b = true <-> (a < b)%Q.
Proof.
  unfold Qltb. rewrite negb_true_iff. split.
  - intros H. apply Qnot_le_lt. intros Hle.
    apply Qle_bool_iff in Hle. congruence.
  - intros H. destruct (Qle_bool b a) eqn:E; [|reflexivity].
    apply Qle_bool_iff in E. exfalso. exact (Qlt_not_le _ _ H E).
Qed.

Lemma Qgeb_negb_ltb (a b : Q) : Qgeb a b = negb (Qltb a b).
Proof. unfold Qgeb, Qltb. now rewrite negb_involutive. Qed.

Lemma countIf_partition (f g : Point -> bool) (l : list Point) :
  (forall p, g p = negb (f p)) ->
  (countIf f l + countIf g l = length l)%nat.
Proof.
  intros Hg. unfold countIf.
  induction l as [|p l IH]; simpl; [reflexivity|].
  rewrite (Hg p). destruct (f p); simpl; lia.
Qed.

Lemma countIf_le (f : Point -> bool) (l : list Point) :
  (countIf f l <= length l)%nat.
Proof.
  unfold countIf. induction l as [|p l IH]; simpl; [lia|].
  destruct (f p); simpl; lia.
Qed.

Lemma ratio_sum (a b t : nat) :
  (a + b = t)%nat -> (0 < t)%nat -> (ratio a t + ratio b t == 1)%Q.
Proof.
  intros Hsum Hpos. unfold ratio.
  assert (Ht : ~ (inject_Z (Z.of_nat t) == 0)%Q).
  { intros H. unfold Qeq in H. simpl in H. lia. }
  rewrite <- Hsum at 1 2. 
  assert (E : (inject_Z (Z.of_nat t) == inject_Z (Z.of_nat a) + inject_Z (Z.of_nat b))%Q).
  { rewrite <- inject_Z_plus, <- Nat2Z.inj_add, Hsum. reflexivity. }
  rewrite <- Hsum in Ht.
  rewrite Nat2Z.inj_add, inject_Z_plus in *. field. exact Ht.
Qed.

Lemma ratio_bounds (a t : nat) :
  (a <= t)%nat -> (0 < t)%nat -> (0 <= ratio a t <= 1)%Q.
Proof.
  intros Hle Hpos. unfold ratio.
  assert (Ht : (0 < inject_Z (Z.of_nat t))%Q).
  { change 0%Q with (inject_Z 0). rewrite <- Zlt_Qlt. lia. }
  split.
  - apply Qle_shift_div_l; [exact Ht|]. rewrite Qmult_0_l.
    change 0%Q with (inject_Z 0). rewrite <- Zle_Qle. lia.
  - apply Qle_shift_div_r; [exact Ht|]. rewrite Qmult_1_l.
    rewrite <- Zle_Qle. lia.
Qed.

(** * The mass fractions of a signature *)

Lemma signatureOf_small (pixels : list Point) :
  (length pixels < 80)%nat -> signatureOf pixels = emptySignature (length pixels).
Proof.
  intros H. unfold signatureOf.
  apply Nat.ltb_lt in H. now rewrite H.
Qed.

Lemma emptySignature_fractions (n : nat) :
  let s := emptySignature n in
  (leftHeavy s + rightHeavy s == 1)%Q /\ (topHeavy s + bottomHeavy s == 1)%Q
  /\ (0 <= leftHeavy s <= 1)%Q /\ (0 <= rightHeavy s <= 1)%Q
  /\ (0 <= topHeavy s <= 1)%Q /\ (0 <= bottomHeavy s <= 1)%Q.
Proof.
  simpl. repeat split; unfold Qeq, Qle; simpl; lia.
Qed.

(** C10.  Every signature that [createLetterSignature] returns has
    [leftHeavy + rightHeavy = 1] and [topHeavy + bottomHeavy = 1], and each
    of the four fractions lies between 0 and 1; this holds for the
    signature of the branch below eighty pixels and for the computed one,
    in which the pixels left and right of the centre, and those above and
    below it, split the foreground pixels. *)
Theorem mass_fractions_sum_to_one
  (data : list Z) (width height channels : nat) :
  let s := createLetterSignature data width height channels in
  (leftHeavy s + rightHeavy s == 1)%Q /\ (topHeavy s + bottomHeavy s == 1)%Q
  /\ (0 <= leftHeavy s <= 1)%Q /\ (0 <= rightHeavy s <= 1)%Q
  /\ (0 <= topHeavy s <= 1)%Q /\ (0 <= bottomHeavy s <= 1)%Q.
Proof.
  unfold createLetterSignature.
  set (pixels := scanBright data width height channels).
  destruct (Nat.ltb_spec (length pixels) 80) as [Hsmall | Hbig].
  - rewrite (signatureOf_small pixels Hsmall).
    apply emptySignature_fractions.
  - unfold signatureOf.
    destruct (Nat.ltb_spec (length pixels) 80) as [Hlt | _]; [lia|].
    cbv zeta. simpl.
    assert (Hpos : (0 < length pixels)%nat) by lia.
    repeat split;
      try (apply ratio_sum; [|exact Hpos];
           apply countIf_partition; intros p; apply Qgeb_negb_ltb);
      try (apply ratio_bounds; [apply countIf_le | exact Hpos]).
Qed.

(** * The bounding box *)

Lemma fold_left_min_spec (l : list Z) (a : Z) :
  In (fold_left Z.min l a) (a :: l)
  /\ forall x, In x (a :: l) -> fold_left Z.min l a <= x.
Proof.
  revert a. induction l as [|b l IH]; intros a; simpl.
  - split; [now left|]. intros x [<- | []]. lia.
  - destruct (IH (Z.min a b)) as [Hin Hle]. split.
    + destruct Hin as [Heq | Hin].
      * rewrite <- Heq. destruct (Z.min_spec a b) as [[_ ->] | [_ ->]]; auto.
      * auto.
    + intros x Hx.
      assert (Hm : fold_left Z.min l (Z.min a b) <= Z.min a b)
        by (apply Hle; now left).
      destruct Hx as [<- | [<- | Hx]]; try lia.
      apply Hle. now right.
Qed.

Lemma fold_left_max_spec (l : list Z) (a : Z) :
  In (fold_left Z.max l a) (a :: l)
  /\ forall x, In x (a :: l) -> x <= fold_left Z.max l a.
Proof.
  revert a. induction l as [|b l IH]; intros a; simpl.
  - split; [now left|]. intros x [<- | []]. lia.
  - destruct (IH (Z.max a b)) as [Hin Hle]. split.
    + destruct Hin as [Heq | Hin].
      * rewrite <- Heq. destruct (Z.max_spec a b) as [[_ ->] | [_ ->]]; auto.
      * auto.
    + intros x Hx.
      assert (Hm : Z.max a b <= fold_left Z.max l (Z.max a b))
        by (apply Hle; now left).
      destruct Hx as [<- | [<- | Hx]]; try lia.
      apply Hle. now right.
Qed.

Lemma Math_min_spec (l : list Z) :
  l <> [] -> In (Math_min l) l /\ forall x, In x l -> Math_min l <= x.
Proof.
  destruct l as [|a l]; [congruence|]. intros _. apply fold_left_min_spec.
Qed.

Lemma Math_max_spec (l : list Z) :
  l <> [] -> In (Math_max l) l /\ forall x, In x l -> x <= Math_max l.
Proof.
  destruct l as [|a l]; [congruence|]. intros _. apply fold_left_max_spec.
Qed.

(** The extremes that the code takes are the sides of the bounding box. *)
Lemma boundingBox_extremes (pixels : list Point) (x0 x1 y0 y1 : Z) :
  boundingBox pixels x0 x1 y0 y1 ->
  Math_min (map px pixels) = x0 /\ Math_max (map px pixels) = x1
  /\ Math_min (map py pixels) = y0 /\ Math_max (map py pixels) = y1.
Proof.
  intros (Hall & (p0 & Hp0 & Hx0) & (p1 & Hp1 & Hx1)
               & (q0 & Hq0 & Hy0) & (q1 & Hq1 & Hy1)).
  assert (Hne : forall f : Point -> Z, map f pixels <> []).
  { intros f E. apply map_eq_nil in E. subst pixels. exact Hp0. }
  repeat split.
  - destruct (Math_min_spec _ (Hne px)) as [Hin Hle].
    apply in_map_iff in Hin. destruct Hin as (p & Hp & Hin).
    assert (Math_min (map px pixels) <= x0)
      by (apply Hle; rewrite <- Hx0; now apply in_map).
    destruct (Hall p Hin). lia.
  - destruct (Math_max_spec _ (Hne px)) as [Hin Hle].
    apply in_map_iff in Hin. destruct Hin as (p & Hp & Hin).
    assert (x1 <= Math_max (map px pixels))
      by (apply Hle; rewrite <- Hx1; now apply in_map).
    destruct (Hall p Hin). lia.
  - destruct (Math_min_spec _ (Hne py)) as [Hin Hle].
    apply in_map_iff in Hin. destruct Hin as (p & Hp & Hin).
    assert (Math_min (map py pixels) <= y0)
      by (apply Hle; rewrite <- Hy0; now apply in_map).
    destruct (Hall p Hin). lia.
  - destruct (Math_max_spec _ (Hne py)) as [Hin Hle].
    apply in_map_iff in Hin. destruct Hin as (p & Hp & Hin).
    assert (y1 <= Math_max (map py pixels))
      by (apply Hle; rewrite <- Hy1; now apply in_map).
    destruct (Hall p Hin). lia.
Qed.

(** A non-empty list of pixels has a bounding box, the one of the
    extremes. *)
Lemma boundingBox_exists (pixels : list Point) :
  pixels <> [] ->
  boundingBox pixels (Math_min (map px pixels)) (Math_max (map px pixels))
                     (Math_min (map py pixels)) (Math_max (map py pixels)).
Proof.
  intros Hne.
  assert (Hm : forall f : Point -> Z, map f pixels <> []).
  { intros f E. apply map_eq_nil in E. contradiction. }
  destruct (Math_min_spec _ (Hm px)) as [Hix0 Hx0].
  destruct (Math_max_spec _ (Hm px)) as [Hix1 Hx1].
  destruct (Math_min_spec _ (Hm py)) as [Hiy0 Hy0].
  destruct (Math_max_spec _ (Hm py)) as [Hiy1 Hy1].
  unfold boundingBox. repeat split.
  - apply Hx0. now apply in_map.
  - apply Hx1. now apply in_map.
  - apply Hy0. now apply in_map.
  - apply Hy1. now apply in_map.
  - apply in_map_iff in Hix0. destruct Hix0 as (p & E & Hp). eauto.
  - apply in_map_iff in Hix1. destruct Hix1 as (p & E & Hp). eauto.
  - apply in_map_iff in Hiy0. destruct Hiy0 as (p & E & Hp). eauto.
  - apply in_map_iff in Hiy1. destruct Hiy1 as (p & E & Hp). eauto.
Qed.

Lemma boundingBoxb_sound (pixels : list Point) (x0 x1 y0 y1 : Z) :
  boundingBoxb pixels x0 x1 y0 y1 = true -> boundingBox pixels x0 x1 y0 y1.
Proof.
  unfold boundingBoxb, boundingBox.
  rewrite !andb_true_iff, forallb_forall, !existsb_exists.
  intros ((((Hall & Hx0) & Hx1) & Hy0) & Hy1).
  repeat split;
    try (match goal with
         | H : In ?p pixels |- _ =>
             specialize (Hall p H); rewrite !andb_true_iff in Hall; lia
         end).
  - destruct Hx0 as (p & Hp & E). exists p. split; [exact Hp | lia].
  - destruct Hx1 as (p & Hp & E). exists p. split; [exact Hp | lia].
  - destruct Hy0 as (p & Hp & E). exists p. split; [exact Hp | lia].
  - destruct Hy1 as (p & Hp & E). exists p. split; [exact Hp | lia].
Qed.

(** * The foreground pixels of a buffer *)

(** The scan finds the pixels of the image that pass the colour rule. *)
Lemma in_scanBright (data : list Z) (width height channels : nat) (p : Point) :
  In p (scanBright data width height channels)
  <-> exists x y,
      (x < width)%nat /\ (y < height)%nat
      /\ p = mkPoint (Z.of_nat x) (Z.of_nat y)
      /\ let i := ((y * width + x) * channels)%nat in
         isCyanLetter (at_index data i) (at_index data (i + 1))
                      (at_index data (i + 2)) = true.
Proof.
  unfold scanBright, scanRow. rewrite in_flat_map. split.
  - intros (y & Hy & Hin). apply in_flat_map in Hin.
    destruct Hin as (x & Hx & Hin).
    apply in_seq in Hy. apply in_seq in Hx.
    destruct (isCyanLetter _ _ _) eqn:E; [|contradiction].
    destruct Hin as [<- | []].
    exists x, y. repeat split; try lia. exact E.
  - intros (x & y & Hx & Hy & -> & E).
    exists y. split; [apply in_seq; lia|].
    apply in_flat_map. exists x. split; [apply in_seq; lia|].
    cbv zeta in E. rewrite E. now left.
Qed.

(** * The aspect ratio *)

(** C7.  When the scan finds eighty foreground pixels or more, the aspect
    ratio of the signature is the width of their axis-aligned bounding
    box divided by its height, both counted in pixels; when it finds
    fewer, the aspect ratio is 1 and each of the four mass fractions is
    0.5. *)
Theorem aspect_ratio_of_bounding_box
  (data : list Z) (width height channels : nat) :
  let pixels := scanBright data width height channels in
  let s := createLetterSignature data width height channels in
  ((80 <= length pixels)%nat ->
   forall x0 x1 y0 y1,
     boundingBox pixels x0 x1 y0 y1 ->
     aspectRatio s
     = (inject_Z (boxWidth x0 x1) / inject_Z (boxHeight y0 y1))%Q)
  /\ ((length pixels < 80)%nat ->
      aspectRatio s = 1%Q
      /\ topHeavy s = 0.5%Q /\ bottomHeavy s = 0.5%Q
      /\ leftHeavy s = 0.5%Q /\ rightHeavy s = 0.5%Q).
Proof.
  cbv zeta. unfold createLetterSignature.
  set (pixels := scanBright data width height channels).
  split.
  - intros Hbig x0 x1 y0 y1 Hbox.
    destruct (boundingBox_extremes _ _ _ _ _ Hbox) as (Ex0 & Ex1 & Ey0 & Ey1).
    unfold signatureOf.
    destruct (Nat.ltb_spec (length pixels) 80) as [Hlt | _]; [lia|].
    cbv zeta. simpl. rewrite Ex0, Ex1, Ey0, Ey1. reflexivity.
  - intros Hsmall. rewrite (signatureOf_small pixels Hsmall).
    simpl. repeat split.
Qed.

Lemma aspect_ratio_of_bounding_box_witness :
  aspectRatio (createLetterSignature (data plate) 12 10 3)
  = (inject_Z (boxWidth 0 11) / inject_Z (boxHeight 0 9))%Q
  /\ aspectRatio (createLetterSignature (data sixtyCyan) 10 6 3) = 1%Q.
Proof.
  split.
  - apply (proj1 (aspect_ratio_of_bounding_box (data plate) 12 10 3)).
    + apply Nat.leb_le. vm_compute. reflexivity.
    + apply boundingBoxb_sound. vm_compute. reflexivity.
  - apply (proj2 (aspect_ratio_of_bounding_box (data sixtyCyan) 10 6 3)).
    apply Nat.ltb_lt. vm_compute. reflexivity.
Defined.

(** * The hole flag *)

(** C6, as the code has it.  When the scan finds eighty foreground pixels
    or more, the hole flag of the signature is set exactly when the
    foreground pixels that lie less than a quarter of the smaller side of
    the bounding box to the left or right of its centre, and less than
    that above or below it, number fewer than 15% of all foreground
    pixels. *)
Theorem center_hole_counts_the_square
  (data : list Z) (width height channels : nat) :
  let pixels := scanBright data width height channels in
  (80 <= length pixels)%nat ->
  forall x0 x1 y0 y1,
    boundingBox pixels x0 x1 y0 y1 ->
    centerHole (createLetterSignature data width height channels) = true
    <-> (inject_Z (Z.of_nat
           (countIf (withinSquare (boxCenter x0 x1) (boxCenter y0 y1)
                                  (quarterOfSmallerSide x0 x1 y0 y1))
                    pixels))
         < 0.15 * inject_Z (Z.of_nat (length pixels)))%Q.
Proof.
  cbv zeta. unfold createLetterSignature.
  set (pixels := scanBright data width height channels).
  intros Hbig x0 x1 y0 y1 Hbox.
  destruct (boundingBox_extremes _ _ _ _ _ Hbox) as (Ex0 & Ex1 & Ey0 & Ey1).
  unfold signatureOf.
  destruct (Nat.ltb_spec (length pixels) 80) as [Hlt | _]; [lia|].
  cbv zeta. simpl. rewrite Ex0, Ex1, Ey0, Ey1.
  rewrite Qltb_lt.
  rewrite (Qmult_comm (inject_Z (Z.of_nat (length pixels))) 0.15).
  reflexivity.
Qed.

Lemma center_hole_counts_the_square_witness :
  centerHole (createLetterSignature (data fourBlocks) 41 41 3) = true
  <-> (inject_Z (Z.of_nat
         (countIf (withinSquare (boxCenter 0 40) (boxCenter 0 40)
                                (quarterOfSmallerSide 0 40 0 40))
                  (scanBright (data fourBlocks) 41 41 3)))
       < 0.15 * inject_Z (Z.of_nat
                  (length (scanBright (data fourBlocks) 41 41 3))))%Q.
Proof.
  apply (center_hole_counts_the_square (data fourBlocks) 41 41 3).
  - apply Nat.leb_le. vm_compute. reflexivity.
  - apply boundingBoxb_sound. vm_compute. reflexivity.
Defined.

(** On [fourBlocks] the two readings part: no foreground pixel lies
    within the distance, thirty-six of the 118 lie within the square, and
    the flag is not set. *)
Lemma center_hole_is_not_by_distance :
  ~ centerHole_by_distance (data fourBlocks) 41 41 3.
Proof.
  unfold centerHole_by_distance. cbv zeta. intros H.
  assert (Hlen : (80 <= length (scanBright (data fourBlocks) 41 41 3))%nat)
    by (apply Nat.leb_le; vm_compute; reflexivity).
  assert (Hbox : boundingBox (scanBright (data fourBlocks) 41 41 3) 0 40 0 40)
    by (apply boundingBoxb_sound; vm_compute; reflexivity).
  destruct (H Hlen 0 40 0 40 Hbox) as [_ Hback].
  assert (Hflag : centerHole (createLetterSignature (data fourBlocks) 41 41 3)
                  = false) by (vm_compute; reflexivity).
  rewrite Hflag in Hback.
  assert (Habsurd : false = true).
  { apply Hback. apply Qltb_lt. vm_compute. reflexivity. }
  discriminate Habsurd.
Qed.

(** * Too few pixels *)

Lemma createLetterSignature_below_eighty
  (data : list Z) (width height channels : nat) :
  let n := length (scanBright data width height channels) in
  (n < 80)%nat ->
  createLetterSignature data width height channels = emptySignature n.
Proof. cbv zeta. intros H. now apply signatureOf_small. Qed.

Lemma cyanPixels_is_the_count (pixels : list Point) :
  cyanPixels (signatureOf pixels) = length pixels.
Proof.
  unfold signatureOf. destruct (length pixels <? 80)%nat; reflexivity.
Qed.

(** Below fifty pixels the cell is read as Unknown. *)
Lemma detectCellLetter_below_fifty (raw : RawImage) :
  (length (scanBright (data raw) (info_width raw) (info_height raw)
                      (info_channels raw)) < 50)%nat ->
  Solver.detectCellLetter (Some raw) = "?"%char
  /\ Remap.detectCellLetter (Some raw) = "?"%char.
Proof.
  intros H. unfold Solver.detectCellLetter, Remap.detectCellLetter.
  unfold createLetterSignature. rewrite cyanPixels_is_the_count.
  apply Nat.ltb_lt in H. rewrite H. split; reflexivity.
Qed.

(** From fifty to seventy-nine pixels the signature is the empty one, and
    the decision tree reads it as an S. *)
Lemma detectCellLetter_between_the_floors (raw : RawImage) :
  let n := length (scanBright (data raw) (info_width raw) (info_height raw)
                              (info_channels raw)) in
  (50 <= n < 80)%nat ->
  createLetterSignature (data raw) (info_width raw) (info_height raw)
                        (info_channels raw) = emptySignature n
  /\ Solver.detectCellLetter (Some raw) = "S"%char
  /\ Remap.detectCellLetter (Some raw) = "A"%char.
Proof.
  cbv zeta. intros [Hlo Hhi].
  unfold Solver.detectCellLetter, Remap.detectCellLetter.
  rewrite (createLetterSignature_below_eighty _ _ _ _ Hhi).
  unfold matchSignatureToLetter. simpl cyanPixels.
  destruct (Nat.ltb_spec
              (length (scanBright (data raw) (info_width raw)
                                  (info_height raw) (info_channels raw))) 50)
    as [Hlt | _]; [lia|].
  repeat split.
Qed.

(** * The correction map *)

Lemma corrected_without_entry (c : ascii) :
  ~ In c (map fst Remap.letterMap) -> Remap.corrected c = c.
Proof.
  unfold Remap.corrected, Remap.letterMap. cbn [Remap.lookup map fst In].
  intros H.
  repeat match goal with
         | |- context [Ascii.eqb ?k c] =>
             destruct (Ascii.eqb_spec k c) as [E | _];
             [exfalso; apply H; rewrite E; tauto|]
         end.
  reflexivity.
Qed.

(** C8.  The correction map sends A to D, S to A, D to E, Q to R and W to
    W, and leaves every symbol without an entry as it is, E, R and the
    Unknown symbol among them; the letter that the per-cell pipeline
    returns is the correction of what the classifier gave for the cell, in
    [detectCellLetter] and in the earlier [detectLetter] alike, and a cell
    that is given up before classification stays Unknown. *)
Theorem correction_map_is_applied_to_every_cell :
  (Remap.corrected "A" = "D" /\ Remap.corrected "S" = "A"
   /\ Remap.corrected "D" = "E" /\ Remap.corrected "Q" = "R"
   /\ Remap.corrected "W" = "W")%char
  /\ (forall c, ~ In c (map fst Remap.letterMap) -> Remap.corrected c = c)
  /\ (Remap.corrected "E" = "E" /\ Remap.corrected "R" = "R"
      /\ Remap.corrected "?" = "?")%char
  /\ (forall raw,
        Remap.detectCellLetter (Some raw)
        = Remap.corrected
            (matchSignatureToLetter
               (createLetterSignature (data raw) (info_width raw)
                                      (info_height raw) (info_channels raw))))
  /\ Remap.detectCellLetter None = Remap.corrected "?"
  /\ (forall cell,
        let pixels := Legacy.scanBright (data cell) (info_width cell)
                                        (info_height cell)
                                        (info_channels cell) in
        ((30 <= length pixels)%nat ->
         Legacy.detectLetter cell
         = Remap.corrected (Legacy.detectedLetter pixels))
        /\ ((length pixels < 30)%nat ->
            Legacy.detectLetter cell = Remap.corrected "?")).
Proof.
  split; [repeat split|].
  split; [exact corrected_without_entry|].
  split; [repeat split|].
  split; [|split; [reflexivity|]].
  - intros raw. unfold Remap.detectCellLetter, matchSignatureToLetter.
    destruct (cyanPixels _ <? 50)%nat; reflexivity.
  - intros cell. cbv zeta. unfold Legacy.detectLetter. split; intros H.
    + destruct (Nat.ltb_spec
                  (length (Legacy.scanBright (data cell) (info_width cell)
                             (info_height cell) (info_channels cell))) 30)
        as [Hlt | _]; [lia | reflexivity].
    + apply Nat.ltb_lt in H. rewrite H. reflexivity.
Qed.

Lemma correction_map_is_applied_to_every_cell_witness :
  Remap.corrected "E" = "E"%char
  /\ Legacy.detectLetter sixtyCyan
     = Remap.corrected
         (Legacy.detectedLetter (Legacy.scanBright (data sixtyCyan) 10 6 3)).
Proof.
  destruct correction_map_is_applied_to_every_cell
    as (_ & Hidentity & _ & _ & _ & Hlegacy).
  split.
  - apply Hidentity. simpl. intros H.
    repeat (destruct H as [H | H]; [discriminate H|]). exact H.
  - apply (proj1 (Hlegacy sixtyCyan)).
    apply Nat.leb_le. vm_compute. reflexivity.
Defined.

(** * Updating the configuration *)

(** C9.  [updateConfig] takes an offset of 0 for a missing one: called
    with the resolution ['2560x1440'] and [offsetX: 0] it sets the offset
    to the value of that resolution, -144, and likewise -117 for
    [offsetY: 0]; an offset other than 0 that comes with the call is
    kept, whatever else the call holds. *)
Theorem zero_offset_counts_as_missing (config : Config) :
  offsetX (updateConfig
             {| new_baseDelay := None; new_delayVariance := None;
                new_resolution := Some "2560x1440"%string;
                new_cellSize := None; new_cellSpacing := None;
                new_offsetX := Some 0; new_offsetY := None |} config) = -144
  /\ offsetY (updateConfig
                {| new_baseDelay := None; new_delayVariance := None;
                   new_resolution := Some "2560x1440"%string;
                   new_cellSize := None; new_cellSpacing := None;
                   new_offsetX := None; new_offsetY := Some 0 |} config) = -117
  /\ (forall newConfig z,
        new_offsetX newConfig = Some z -> z <> 0 ->
        offsetX (updateConfig newConfig config) = z)
  /\ (forall newConfig z,
        new_offsetY newConfig = Some z -> z <> 0 ->
        offsetY (updateConfig newConfig config) = z).
Proof.
  split; [reflexivity|]. split; [reflexivity|].
  split; intros newConfig z Hz Hne; unfold updateConfig;
    destruct (new_resolution newConfig) as [key|];
    try destruct (truthy_string key);
    try destruct (RESOLUTION_CONFIGS key);
    simpl; rewrite Hz; simpl;
    try (destruct (Z.eqb_spec z 0) as [E | _]; [contradiction|]);
    reflexivity.
Qed.

Lemma zero_offset_counts_as_missing_witness :
  offsetX (updateConfig
             {| new_baseDelay := None; new_delayVariance := None;
                new_resolution := Some "2560x1440"%string;
                new_cellSize := None; new_cellSpacing := None;
                new_offsetX := Some 5; new_offsetY := None |} initialConfig)
  = 5.
Proof.
  apply (proj1 (proj2 (proj2 (zero_offset_counts_as_missing initialConfig)))).
  - reflexivity.
  - lia.
Defined.

(** * The scan as a walk through the buffer *)

Lemma at_index_skipn (data : list Z) (i k : nat) :
  at_index (skipn i data) k = at_index data (i + k).
Proof. unfold at_index. apply nth_error_skipn. Qed.

Lemma scanStream_app (channels : nat) (coords1 coords2 : list (nat * nat))
  (rest : list Z) :
  scanStream channels (coords1 ++ coords2) rest
  = scanStream channels coords1 rest
    ++ scanStream channels coords2 (skipn (length coords1 * channels) rest).
Proof.
  revert rest. induction coords1 as [|[x y] coords1 IH]; intros rest.
  - reflexivity.
  - cbn [app scanStream length]. rewrite IH, <- app_assoc.
    rewrite skipn_skipn.
    replace (length coords1 * channels + channels)%nat
      with (S (length coords1) * channels)%nat by lia.
    reflexivity.
Qed.

Lemma scanRow_from (data : list Z) (width channels y n x0 : nat) :
  flat_map
    (fun x =>
       let i := ((y * width + x) * channels)%nat in
       if isCyanLetter (at_index data i) (at_index data (i + 1))
                       (at_index data (i + 2))
       then [mkPoint (Z.of_nat x) (Z.of_nat y)] else [])
    (seq x0 n)
  = scanStream channels (map (fun x => (x, y)) (seq x0 n))
               (skipn ((y * width + x0) * channels) data).
Proof.
  revert x0. induction n as [|n IH]; intros x0.
  - reflexivity.
  - cbn [seq flat_map map scanStream]. cbv zeta.
    rewrite !at_index_skipn, Nat.add_0_r. f_equal.
    rewrite IH, skipn_skipn. f_equal. f_equal. lia.
Qed.

Lemma scanRows_from (data : list Z) (width channels n y0 : nat) :
  flat_map (scanRow data width channels) (seq y0 n)
  = scanStream channels
      (flat_map (fun y => map (fun x => (x, y)) (seq 0 width)) (seq y0 n))
      (skipn (y0 * width * channels) data).
Proof.
  revert y0. induction n as [|n IH]; intros y0.
  - reflexivity.
  - cbn [seq flat_map]. rewrite scanStream_app, IH.
    unfold scanRow. rewrite scanRow_from.
    rewrite length_map, length_seq, skipn_skipn. f_equal.
    + f_equal. f_equal. lia.
    + f_equal. f_equal. lia.
Qed.

Theorem scanBright_is_scanStream (data : list Z) (width height channels : nat) :
  scanBright data width height channels
  = scanStream channels (pixelCoords width height) data.
Proof.
  unfold scanBright, pixelCoords. rewrite scanRows_from. reflexivity.
Qed.

Lemma detectCellLetter_is_stream (cellBuffer : CellBuffer) :
  Solver.detectCellLetter cellBuffer = Solver.detectCellLetterStream cellBuffer.
Proof.
  destruct cellBuffer as [raw|]; [|reflexivity].
  unfold Solver.detectCellLetter, Solver.detectCellLetterStream.
  unfold createLetterSignature. now rewrite scanBright_is_scanStream.
Qed.

(** C3.  A cell of the usual size with sixty foreground pixels, fewer
    than the eighty that the extractor asks for: [createLetterSignature]
    returns its empty signature (aspect ratio 1, mass fractions 0.5, no
    hole), and the cell is then read as the letter S, or as A where the
    output is relabelled, not as Unknown: the classifier gives up below
    fifty pixels only. *)
Theorem sixty_pixels_are_read_as_a_letter :
  createLetterSignature (data faintCell) 100 100 3 = emptySignature 60
  /\ Solver.detectCellLetter (Some faintCell) = "S"%char
  /\ Remap.detectCellLetter (Some faintCell) = "A"%char.
Proof.
  unfold Solver.detectCellLetter, Remap.detectCellLetter.
  unfold createLetterSignature. rewrite !scanBright_is_scanStream.
  repeat split; vm_compute; reflexivity.
Qed.

(** * Runs of the session *)

Lemma appends_refl (P : Event -> Prop) (w : World) : appends P w w.
Proof. exists []. split; [now rewrite app_nil_r | constructor]. Qed.

Lemma appends_trans (P : Event -> Prop) (w1 w2 w3 : World) :
  appends P w1 w2 -> appends P w2 w3 -> appends P w1 w3.
Proof.
  intros (e1 & E1 & F1) (e2 & E2 & F2). exists (e1 ++ e2). split.
  - now rewrite E2, E1, app_assoc.
  - apply Forall_app. now split.
Qed.

Lemma appends_weaken (P Q : Event -> Prop) (w w' : World) :
  (forall e, P e -> Q e) -> appends P w w' -> appends Q w w'.
Proof.
  intros HPQ (es & E & F). exists es. split; [exact E|].
  eapply Forall_impl; eauto.
Qed.

Lemma emits_ret {A : Type} (P : Event -> Prop) (a : A) : emits P (ret a).
Proof. intros w. apply appends_refl. Qed.

Lemma emits_throw {A : Type} (P : Event -> Prop) (message : string) :
  emits P (@throw A message).
Proof. intros w. apply appends_refl. Qed.

Lemma emits_emit (P : Event -> Prop) (e : Event) : P e -> emits P (emit e).
Proof.
  intros He w. exists [e]. split; [reflexivity|]. now constructor.
Qed.

Lemma emits_bind {A B : Type} (P : Event -> Prop) (m : M A) (k : A -> M B) :
  emits P m -> (forall a, emits P (k a)) -> emits P (bind m k).
Proof.
  intros Hm Hk w. unfold bind. specialize (Hm w).
  destruct (m w) as [[a | message] w1]; simpl in *.
  - eapply appends_trans; [exact Hm | apply Hk].
  - exact Hm.
Qed.

Lemma emits_reading {A : Type} (P : Event -> Prop) (f : World -> M A) :
  (forall w0, emits P (f w0)) -> emits P (fun w => f w w).
Proof. intros H w. apply (H w w). Qed.

Lemma emits_stopSolver (P : Event -> Prop) :
  P (SolverStatus stopped "Stopped") -> emits P stopSolver.
Proof.
  intros HP w. exists [SolverStatus stopped "Stopped"].
  split; [reflexivity|]. now constructor.
Qed.

Section SessionProofs.

Variable stopRequested : nat -> bool.
Variable captured : Frame + string.
Variable executionTime : string.
Variable detectCellLetter : CellBuffer -> ascii.

Lemma await_returns (w : World) : fst (await stopRequested w) = Return tt.
Proof. unfold await. destruct (stopRequested (suspensions w)); reflexivity. Qed.

Lemma emits_await (P : Event -> Prop) :
  P (SolverStatus stopped "Stopped") -> emits P (await stopRequested).
Proof.
  intros HP w. unfold await. destruct (stopRequested (suspensions w)).
  - exact (emits_stopSolver P HP (suspended w)).
  - exists []. split; [simpl; now rewrite app_nil_r | constructor].
Qed.

Lemma emits_captureScreen (P : Event -> Prop) :
  P (SolverStatus stopped "Stopped") ->
  emits P (captureScreen stopRequested captured).
Proof.
  intros HP. unfold captureScreen. apply emits_bind.
  - now apply emits_await.
  - intros _. destruct captured; [apply emits_ret | apply emits_throw].
Qed.

Lemma emits_validateMinigamePresent (P : Event -> Prop) (img : Frame) :
  P (SolverStatus stopped "Stopped") ->
  emits P (validateMinigamePresent stopRequested img).
Proof.
  intros HP. unfold validateMinigamePresent.
  apply (emits_reading P
           (fun w0 => await stopRequested ;;
              match extract img (fst (getTopLeftCellPosition (config_of w0)))
                      (snd (getTopLeftCellPosition (config_of w0)))
                      (cellSpacing (config_of w0) * 2 + cellSize (config_of w0))
                      (cellSpacing (config_of w0) * 2 + cellSize (config_of w0))
              with
              | Some grid => await stopRequested ;; ret (isPresent grid)
              | None => ret false
              end)).
  intros w0. apply emits_bind; [now apply emits_await|].
  intros _. destruct (extract _ _ _ _ _).
  - apply emits_bind; [now apply emits_await | intros _; apply emits_ret].
  - apply emits_ret.
Qed.

Lemma emits_captureSingleCell (P : Event -> Prop) (row col : nat)
  (img : Frame) (topLeftPos : Z * Z) :
  P (SolverStatus stopped "Stopped") ->
  emits P (captureSingleCell stopRequested row col img topLeftPos).
Proof.
  intros HP w. unfold captureSingleCell.
  destruct (getCellPosition (config_of w) row col topLeftPos)
    as [[[x y] width] height].
  revert w. apply emits_bind; [now apply emits_await|].
  intros _. destruct (extract _ _ _ _ _); [apply emits_ret | apply emits_throw].
Qed.

Lemma emits_detectCells (P : Event -> Prop) (img : Frame)
  (topLeftPos : Z * Z) (cells : list (nat * nat)) (letters : list ascii) :
  P (SolverStatus stopped "Stopped") ->
  (forall row col, P (DebugCellSaved row col)) ->
  emits P (detectCells stopRequested detectCellLetter img topLeftPos
                       cells letters).
Proof.
  intros HP HD. revert letters.
  induction cells as [|[row col] cells IH]; intros letters.
  - apply emits_ret.
  - cbn [detectCells]. apply emits_bind.
    + now apply emits_captureSingleCell.
    + intros cellBuffer. apply emits_bind; [apply emits_emit, HD|].
      intros _. apply emits_bind; [now apply emits_await|].
      intros _. apply emits_bind; [now apply emits_await|].
      intros _. apply IH.
Qed.

Lemma emits_detectLetters (P : Event -> Prop) (img : Frame) :
  P (SolverStatus stopped "Stopped") ->
  (forall row col, P (DebugCellSaved row col)) ->
  emits P (detectLetters stopRequested detectCellLetter img).
Proof.
  intros HP HD. unfold detectLetters.
  apply (emits_reading P
           (fun w0 =>
              letters <- detectCells stopRequested detectCellLetter img
                           (getTopLeftCellPosition (config_of w0))
                           gridCells [] ;;
              await stopRequested ;; ret letters)).
  intros w0. apply emits_bind; [now apply emits_detectCells|].
  intros letters. apply emits_bind; [now apply emits_await|].
  intros _. apply emits_ret.
Qed.

(** The detection shows no grid, announces no execution and sends no
    key. *)
Lemma emits_detection :
  emits quiet (detection stopRequested captured detectCellLetter).
Proof.
  unfold detection.
  apply emits_bind; [now apply emits_emit|]. intros _.
  apply emits_bind; [now apply emits_captureScreen|]. intros screenshot.
  apply emits_bind; [now apply emits_emit|]. intros _.
  apply emits_bind; [now apply emits_validateMinigamePresent|]. intros _.
  apply emits_bind; [now apply emits_emit|]. intros _.
  now apply emits_detectLetters.
Qed.

End SessionProofs.

(** * The key sequence *)

Lemma sentKeys_app (e1 e2 : list Event) :
  sentKeys (e1 ++ e2) = sentKeys e1 ++ sentKeys e2.
Proof. apply flat_map_app. Qed.

Lemma pressedIndices_app (e1 e2 : list Event) :
  pressedIndices (e1 ++ e2) = pressedIndices e1 ++ pressedIndices e2.
Proof. apply flat_map_app. Qed.

Section KeySequenceProofs.

Variable stopRequested : nat -> bool.
Variable letters : list ascii.

Local Abbreviation callback := (Some (notifyKeyPressed letters)).

(** What a suspension point leaves behind. *)
Lemma await_world (w : World) :
  exists stops,
    await stopRequested w = (Return tt, snd (await stopRequested w))
    /\ trace (snd (await stopRequested w)) = trace w ++ stops
    /\ sentKeys stops = [] /\ pressedIndices stops = []
    /\ Forall keyOrStop stops
    /\ (shouldStop (snd (await stopRequested w)) = true ->
        shouldStop w = true \/ In (SolverStatus stopped "Stopped") stops).
Proof.
  unfold await. destruct (stopRequested (suspensions w)).
  - exists [SolverStatus stopped "Stopped"]. simpl.
    repeat split; auto. repeat constructor.
  - exists []. simpl. rewrite app_nil_r. repeat split; auto.
Qed.

Lemma keyLoop_observes_the_flag (n i : nat) (cb : option (nat -> M unit))
  (letter : ascii) (rest : list ascii) (w : World) :
  shouldStop w = true ->
  keyLoop stopRequested n cb i (letter :: rest) w
  = (Throw "Sequence stopped by user", w).
Proof. intros H. cbn [keyLoop]. now rewrite H. Qed.

Lemma keyLoop_skips_unknown (n i : nat) (cb : option (nat -> M unit))
  (rest : list ascii) (w : World) :
  shouldStop w = false ->
  keyLoop stopRequested n cb i ("?"%char :: rest) w
  = keyLoop stopRequested n cb (S i) rest w.
Proof. intros H. cbn [keyLoop]. now rewrite H. Qed.

Lemma keyLoop_presses_known (n i : nat) (letter : ascii) (rest : list ascii)
  (w : World) :
  shouldStop w = false -> known letter = true ->
  keyLoop stopRequested n callback i (letter :: rest) w
  = keyLoop stopRequested n callback (S i) rest
            (afterKey stopRequested letters n i letter w).
Proof.
  intros Hstop Hknown. cbn [keyLoop]. rewrite Hstop.
  unfold known in Hknown. apply negb_true_iff in Hknown. rewrite Hknown.
  unfold afterKey, sendKey, sleep, bind, notifyKeyPressed, emit, ret.
  cbn [fst snd].
  destruct (await_world
              {| config_of := config_of w; shouldStop := shouldStop w;
                 isDetecting := isDetecting w; suspensions := suspensions w;
                 trace := (trace w ++ [KeyPressed i (nth_error letters i)])
                          ++ [SendKey (toLowerCase letter)] |})
    as (s1 & E1 & _).
  cbn [config_of shouldStop isDetecting suspensions trace] in *.
  rewrite E1.
  destruct (S i <? n)%nat; [|reflexivity].
  destruct (await_world (snd (await stopRequested
              {| config_of := config_of w; shouldStop := shouldStop w;
                 isDetecting := isDetecting w; suspensions := suspensions w;
                 trace := (trace w ++ [KeyPressed i (nth_error letters i)])
                          ++ [SendKey (toLowerCase letter)] |})))
    as (s2 & E2 & _).
  rewrite E2. reflexivity.
Qed.

Lemma afterKey_world (n i : nat) (letter : ascii) (w : World) :
  exists stops,
    trace (afterKey stopRequested letters n i letter w)
    = trace w ++ [KeyPressed i (nth_error letters i);
                  SendKey (toLowerCase letter)] ++ stops
    /\ sentKeys stops = [] /\ pressedIndices stops = []
    /\ Forall keyOrStop stops
    /\ (shouldStop (afterKey stopRequested letters n i letter w) = true ->
        shouldStop w = true \/ In (SolverStatus stopped "Stopped") stops).
Proof.
  unfold afterKey, sendKey, sleep, bind, notifyKeyPressed, emit, ret.
  cbn [fst snd config_of shouldStop isDetecting suspensions trace].
  set (w1 := {| config_of := config_of w; shouldStop := shouldStop w;
                isDetecting := isDetecting w; suspensions := suspensions w;
                trace := (trace w ++ [KeyPressed i (nth_error letters i)])
                         ++ [SendKey (toLowerCase letter)] |}).
  destruct (await_world w1) as (s1 & E1 & T1 & K1 & I1 & F1 & S1).
  rewrite E1.
  destruct (S i <? n)%nat.
  - destruct (await_world (snd (await stopRequested w1)))
      as (s2 & E2 & T2 & K2 & I2 & F2 & S2).
    rewrite E2. cbn [snd]. exists (s1 ++ s2). repeat split.
    + rewrite T2, T1. subst w1. cbn [trace].
      rewrite <- !app_assoc. reflexivity.
    + rewrite sentKeys_app, K1, K2. reflexivity.
    + rewrite pressedIndices_app, I1, I2. reflexivity.
    + apply Forall_app. now split.
    + intros H. destruct (S2 H) as [H1 | H2].
      * destruct (S1 H1) as [H0 | H0]; [now left|].
        right. apply in_or_app. now left.
      * right. apply in_or_app. now right.
  - cbn [snd]. exists s1. repeat split; auto.
    rewrite T1. subst w1. cbn [trace]. rewrite <- !app_assoc. reflexivity.
Qed.

Lemma keyLoop_trace (n : nat) (rest : list ascii) :
  forall (i : nat) (w : World),
    let run := keyLoop stopRequested n callback i rest w in
    exists k events,
      (k <= length rest)%nat
      /\ trace (snd run) = trace w ++ events
      /\ sentKeys events = map toLowerCase (filter known (firstn k rest))
      /\ pressedIndices events
         = map fst (filter (fun il => known (snd il))
                           (firstn k (combine (seq i (length rest)) rest)))
      /\ Forall keyOrStop events
      /\ (fst run = Return tt -> k = length rest)
      /\ (forall message,
            fst run = Throw message ->
            message = "Sequence stopped by user"%string
            /\ (k < length rest)%nat
            /\ shouldStop (snd run) = true
            /\ (shouldStop w = true
                \/ In (SolverStatus stopped "Stopped") events)).
Proof.
  induction rest as [|letter rest' IH]; intros i w; cbv zeta.
  - exists 0%nat, []. cbn. rewrite app_nil_r.
    split; [lia|]. do 4 (split; [reflexivity || constructor|]).
    split; [reflexivity|]. intros message H. discriminate H.
  - destruct (shouldStop w) eqn:Hstop.
    + rewrite keyLoop_observes_the_flag by exact Hstop.
      exists 0%nat, []. cbn. rewrite app_nil_r.
      split; [lia|]. do 4 (split; [reflexivity || constructor|]).
      split; [intros H; discriminate H|].
      intros message H. injection H as <-.
      split; [reflexivity|]. split; [lia|]. split; [exact Hstop | now left].
    + destruct (known letter) eqn:Hknown.
      * rewrite keyLoop_presses_known by assumption.
        destruct (afterKey_world n i letter w)
          as (stops & T & K & Hidx & F & Hcause0).
        destruct (IH (S i) (afterKey stopRequested letters n i letter w))
          as (k & events & Hk & Ht & Hs & Hp & Hf & Hr & Hthrow).
        exists (S k),
          ([KeyPressed i (nth_error letters i); SendKey (toLowerCase letter)]
             ++ stops ++ events).
        cbn [length firstn seq combine filter snd fst map].
        rewrite Hknown. cbn [map fst].
        split; [lia|].
        split; [rewrite Ht, T; rewrite <- !app_assoc; reflexivity|].
        split; [rewrite !sentKeys_app, K, Hs; reflexivity|].
        split; [rewrite !pressedIndices_app, Hidx, Hp; reflexivity|].
        split; [repeat (apply Forall_app; split); auto; repeat constructor|].
        split; [intros H; rewrite (Hr H); reflexivity|].
        intros message H.
        destruct (Hthrow message H) as (Hm & Hlt & Hflag & Hcause).
        split; [exact Hm|]. split; [lia|]. split; [exact Hflag|].
        destruct Hcause as [Hw | Hin].
        -- destruct (Hcause0 Hw) as [H0 | H0]; [congruence|].
           right. apply in_or_app. right. apply in_or_app. now left.
        -- right. apply in_or_app. right. apply in_or_app. now right.
      * unfold known in Hknown. apply negb_false_iff in Hknown.
        apply Ascii.eqb_eq in Hknown. subst letter.
        rewrite keyLoop_skips_unknown by exact Hstop.
        destruct (IH (S i) w)
          as (k & events & Hk & Ht & Hs & Hp & Hf & Hr & Hthrow).
        exists (S k), events.
        cbn [length firstn seq combine filter snd fst map].
        change (known "?") with false. cbv iota.
        split; [lia|]. split; [exact Ht|]. split; [exact Hs|].
        split; [exact Hp|]. split; [exact Hf|].
        split; [intros H; rewrite (Hr H); reflexivity|].
        intros message H.
        destruct (Hthrow message H) as (Hm & Hlt & Hflag & Hcause).
        split; [exact Hm|]. split; [lia|]. split; [exact Hflag|].
        destruct Hcause as [Hw | Hin]; [congruence | now right].
Qed.

End KeySequenceProofs.

(** * The run of [startSolver] *)

Lemma quiet_not_grid (e : Event) : quiet e -> notGrid e.
Proof. destruct e as [[] | | | |]; simpl; tauto. Qed.

Lemma quiet_keyless (e : Event) : quiet e -> keyless e.
Proof. destruct e as [[] | | | |]; simpl; tauto. Qed.

Lemma keyOrStop_not_grid (e : Event) : keyOrStop e -> notGrid e.
Proof. destruct e as [[] | | | |]; simpl; tauto. Qed.

Lemma finalStatus_last (events : list Event) (s : Status) (message : string) :
  finalStatus (events ++ [SolverStatus s message]) = Some s.
Proof.
  unfold finalStatus, statuses. rewrite flat_map_app, map_app.
  cbn [flat_map map app]. apply last_last.
Qed.

Section RunProofs.

Variable stopRequested : nat -> bool.
Variable captured : Frame + string.
Variable executionTime : string.
Variable detectCellLetter : CellBuffer -> ascii.

Local Abbreviation run config :=
  (startSolver stopRequested captured executionTime detectCellLetter
               (idle config)).

Lemma startSolver_idle (config : Config) :
  run config
  = finish (solve stopRequested captured executionTime detectCellLetter
                  (entering config)).
Proof.
  unfold startSolver, finish, entering, tryFinally, tryCatch, bind.
  cbn [isDetecting idle emit fst snd].
  destruct (solve _ _ _ _ _) as [[[] | message] w']; reflexivity.
Qed.

Lemma solve_steps (w : World) :
  solve stopRequested captured executionTime detectCellLetter w
  = match detection stopRequested captured detectCellLetter w with
    | (Return letters, wD) =>
        match checkDetection letters wD with
        | (Return _, wE) =>
            match executeKeySequence stopRequested letters
                    (Some (notifyKeyPressed letters)) wE with
            | (Return _, wX) =>
                emit (SolverStatus complete
                        ("Complete in " ++ executionTime ++ "s")) wX
            | (Throw message, wX) => (Throw message, wX)
            end
        | (Throw message, wE) => (Throw message, wE)
        end
    | (Throw message, wD) => (Throw message, wD)
    end.
Proof. reflexivity. Qed.

Lemma checkDetection_too_many (letters : list ascii) (w : World) :
  (5 < unknownCount letters)%nat ->
  checkDetection letters w
  = (Throw (tooManyUndetected (unknownCount letters)),
     snd (emit (GridDetected letters) w)).
Proof.
  intros H. unfold checkDetection, bind. cbn [emit fst snd].
  apply Nat.ltb_lt in H. rewrite H. reflexivity.
Qed.

Lemma checkDetection_passes (letters : list ascii) (w : World) :
  (unknownCount letters <= 5)%nat ->
  exists wE warning,
    checkDetection letters w = (Return tt, wE)
    /\ trace wE
       = trace w ++ [GridDetected letters] ++ warning
         ++ [SolverStatus executing "Executing key sequence..."]
    /\ Forall quiet warning
    /\ isDetecting wE = isDetecting w.
Proof.
  intros H.
  exists (snd (checkDetection letters w)),
    (if (0 <? unknownCount letters)%nat then
       [SolverStatus detecting
          ("Warning: " ++ showNat (unknownCount letters)
           ++ " letters unclear, will skip those positions")]
     else []).
  unfold checkDetection, bind, throw, ret, emit.
  destruct (Nat.ltb_spec 5 (unknownCount letters)) as [Hlt | _]; [lia|].
  destruct (0 <? unknownCount letters)%nat;
    cbn [fst snd trace isDetecting];
    (split; [reflexivity|]);
    (split; [rewrite <- !app_assoc; reflexivity|]);
    (split; [repeat constructor | reflexivity]).
Qed.

Lemma executeKeySequence_appends (letters : list ascii) (w : World) :
  appends keyOrStop w
    (snd (executeKeySequence stopRequested letters
            (Some (notifyKeyPressed letters)) w)).
Proof.
  unfold executeKeySequence.
  destruct (keyLoop_trace stopRequested letters (length letters) letters 0
                          (setShouldStop false w))
    as (k & events & _ & Ht & _ & _ & Hf & _).
  exists events. split; [exact Ht | exact Hf].
Qed.

(** The three ways in which a run from the idle state can go. *)
Lemma startSolver_trace (config : Config) :
  let w' := snd (run config) in
  isDetecting w' = false
  /\ ((exists events message,
         trace w'
         = SolverStatus detecting "Scanning screen..." :: events
           ++ [SolverStatus error message]
         /\ Forall quiet events)
      \/ (exists events letters,
            (5 < unknownCount letters)%nat
            /\ trace w'
               = SolverStatus detecting "Scanning screen..." :: events
                 ++ [GridDetected letters;
                     SolverStatus error
                       (tooManyUndetected (unknownCount letters))]
            /\ Forall quiet events)
      \/ (exists events letters later,
            (unknownCount letters <= 5)%nat
            /\ trace w'
               = SolverStatus detecting "Scanning screen..." :: events
                 ++ [GridDetected letters] ++ later
            /\ Forall quiet events /\ Forall notGrid later)).
Proof.
  cbv zeta. rewrite startSolver_idle, solve_steps.
  destruct (emits_detection stopRequested captured detectCellLetter
                            (entering config)) as (events & Ht & Hq).
  change (trace (entering config))
    with [SolverStatus detecting "Scanning screen..."] in Ht.
  destruct (detection _ _ _ _) as [[letters | message] wD]; cbn [snd] in Ht.
  - destruct (Nat.ltb_spec 5 (unknownCount letters)) as [Hmany | Hfew].
    + rewrite (checkDetection_too_many letters wD Hmany).
      cbn [finish emit fst snd setIsDetecting isDetecting trace].
      split; [reflexivity|]. right. left.
      exists events, letters. split; [exact Hmany|]. split; [|exact Hq].
      rewrite Ht. same_list.
    + destruct (checkDetection_passes letters wD)
        as (wE & warning & Ec & Tc & Qc & _); [lia|].
      rewrite Ec.
      destruct (executeKeySequence_appends letters wE) as (keys & Tk & Fk).
      destruct (executeKeySequence _ _ _ _) as [[[] | message] wX];
        cbn [snd] in Tk;
        cbn [finish emit fst snd setIsDetecting isDetecting trace];
        (split; [reflexivity|]); right; right.
      * exists events, letters,
          (warning ++ [SolverStatus executing "Executing key sequence..."]
             ++ keys
             ++ [SolverStatus complete
                   ("Complete in " ++ executionTime ++ "s")]).
        split; [lia|]. split; [|split; [exact Hq|]].
        -- rewrite Tk, Tc, Ht. same_list.
        -- repeat (apply Forall_app; split); try (repeat constructor).
           ++ eapply Forall_impl; [|exact Qc]. apply quiet_not_grid.
           ++ eapply Forall_impl; [|exact Fk]. apply keyOrStop_not_grid.
      * exists events, letters,
          (warning ++ [SolverStatus executing "Executing key sequence..."]
             ++ keys ++ [SolverStatus error message]).
        split; [lia|]. split; [|split; [exact Hq|]].
        -- rewrite Tk, Tc, Ht. same_list.
        -- repeat (apply Forall_app; split); try (repeat constructor).
           ++ eapply Forall_impl; [|exact Qc]. apply quiet_not_grid.
           ++ eapply Forall_impl; [|exact Fk]. apply keyOrStop_not_grid.
  - cbn [finish emit fst snd setIsDetecting isDetecting trace].
    split; [reflexivity|]. left. exists events, message.
    split; [|exact Hq]. rewrite Ht. reflexivity.
Qed.

Lemma grid_among_quiet (letters : list ascii) (events rest : list Event) :
  Forall quiet events ->
  In (GridDetected letters)
     (SolverStatus detecting "Scanning screen..." :: events ++ rest) ->
  In (GridDetected letters) rest.
Proof.
  intros Hq [H | H]; [discriminate H|].
  apply in_app_or in H. destruct H as [H | H]; [|exact H].
  rewrite Forall_forall in Hq. destruct (Hq _ H).
Qed.

(** C2.  Whenever the grid that a run has detected holds more than five
    Unknown letters (six, say), the run goes from the detection straight
    to the error state: the last thing it sends is the status [error]
    with the message that carries the count, it never sends the status
    [executing], it announces and sends no key, and it leaves
    [isDetecting] cleared. *)
Theorem too_many_unknown_letters_end_in_error
  (config : Config) (letters : list ascii) :
  let w' := snd (run config) in
  In (GridDetected letters) (trace w') ->
  (5 < unknownCount letters)%nat ->
  (exists before,
     trace w'
     = before ++ [SolverStatus error
                    (tooManyUndetected (unknownCount letters))])
  /\ finalStatus (trace w') = Some error
  /\ (forall message, ~ In (SolverStatus executing message) (trace w'))
  /\ (forall message, ~ In (SolverStatus complete message) (trace w'))
  /\ Forall keyless (trace w')
  /\ isDetecting w' = false.
Proof.
  cbv zeta. intros Hin Hmany.
  destruct (startSolver_trace config) as (Hidle & Hcases).
  destruct Hcases as [(events & message & Ht & Hq)
                     | [(events & found & Hfound & Ht & Hq)
                       | (events & found & later & Hfew & Ht & Hq & Hl)]];
    rewrite Ht in Hin; apply grid_among_quiet in Hin; try exact Hq.
  - destruct Hin as [H | []]. discriminate H.
  - destruct Hin as [H | [H | []]]; [|discriminate H].
    injection H as ->.
    assert (Hquiet : forall e, In e events -> quiet e)
      by (now apply Forall_forall).
    assert (Hshape :
              trace (snd (run config))
              = (SolverStatus detecting "Scanning screen..." :: events
                 ++ [GridDetected letters])
                ++ [SolverStatus error
                      (tooManyUndetected (unknownCount letters))])
      by (rewrite Ht; same_list).
    split; [eexists; exact Hshape|].
    split; [rewrite Hshape; apply finalStatus_last|].
    split; [|split; [|split; [|exact Hidle]]].
    + intros message H. rewrite Ht in H.
      destruct H as [H | H]; [discriminate H|].
      apply in_app_or in H. destruct H as [H | [H | [H | []]]];
        try discriminate H.
      exact (Hquiet _ H).
    + intros message H. rewrite Ht in H.
      destruct H as [H | H]; [discriminate H|].
      apply in_app_or in H. destruct H as [H | [H | [H | []]]];
        try discriminate H.
      exact (Hquiet _ H).
    + rewrite Ht. constructor; [exact I|].
      apply Forall_app. split.
      * eapply Forall_impl; [|exact Hq]. apply quiet_keyless.
      * repeat constructor.
  - destruct Hin as [H | H].
    + injection H as ->. lia.
    + rewrite Forall_forall in Hl. destruct (Hl _ H).
Qed.

End RunProofs.

(** * The letters of the grid, cell by cell *)

Section GridProofs.

Variable stopRequested : nat -> bool.
Variable detectCellLetter : CellBuffer -> ascii.

Lemma await_keeps_config (w : World) :
  await stopRequested w = (Return tt, snd (await stopRequested w))
  /\ config_of (snd (await stopRequested w)) = config_of w.
Proof.
  unfold await. destruct (stopRequested (suspensions w)); split; reflexivity.
Qed.

Lemma detectCells_letters (img : Frame) (topLeftPos : Z * Z)
  (cells : list (nat * nat)) :
  forall (acc : list ascii) (w : World) (letters : list ascii) (w' : World),
    detectCells stopRequested detectCellLetter img topLeftPos cells acc w
    = (Return letters, w') ->
    config_of w' = config_of w
    /\ exists new,
        letters = acc ++ new
        /\ Forall2
             (fun cell letter =>
                let '(x, y, width, height) :=
                  getCellPosition (config_of w) (fst cell) (snd cell)
                                  topLeftPos in
                exists cellBuffer,
                  extract img x y width height = Some cellBuffer
                  /\ letter = detectCellLetter (Some cellBuffer))
             cells new.
Proof.
  induction cells as [|[row col] cells IH]; intros acc w letters w' Hrun.
  - cbn in Hrun. injection Hrun as <- <-. split; [reflexivity|].
    exists []. split; [now rewrite app_nil_r | constructor].
  - cbn [detectCells] in Hrun. unfold bind at 1 in Hrun.
    unfold captureSingleCell, getCellPosition in Hrun.
    cbv beta iota in Hrun. unfold bind at 1 in Hrun.
    destruct (await_keeps_config w) as [Ea Ca]. rewrite Ea in Hrun.
    destruct (extract img (fst topLeftPos + Z.of_nat col * cellSpacing (config_of w))
                (snd topLeftPos + Z.of_nat row * cellSpacing (config_of w))
                (cellSize (config_of w)) (cellSize (config_of w)))
      as [cellBuffer|] eqn:Ex; [|discriminate Hrun].
    unfold ret at 1 in Hrun. unfold bind at 1 in Hrun.
    cbn [emit] in Hrun. unfold bind at 1 in Hrun.
    match type of Hrun with
    | context [await stopRequested ?w1] =>
        destruct (await_keeps_config w1) as [E1 C1]; rewrite E1 in Hrun;
        set (w2 := snd (await stopRequested w1)) in *
    end.
    unfold bind at 1 in Hrun.
    destruct (await_keeps_config w2) as [E2 C2]. rewrite E2 in Hrun.
    apply IH in Hrun. destruct Hrun as (Hc & new & Hl & Hf).
    assert (Hcfg : config_of (snd (await stopRequested w2)) = config_of w).
    { rewrite C2, C1. cbn [config_of]. exact Ca. }
    split; [now rewrite Hc|].
    exists (detectCellLetter (Some cellBuffer) :: new). split.
    + rewrite Hl, <- app_assoc. reflexivity.
    + constructor.
      * unfold getCellPosition. cbn [fst snd]. eauto.
      * rewrite Hcfg in Hf. exact Hf.
Qed.

(** [detectLetters] returns the letters of the nine cells in the order of
    [gridCells]. *)
Lemma detectLetters_in_grid_order (img : Frame) (w : World)
  (letters : list ascii) (w' : World) :
  detectLetters stopRequested detectCellLetter img w = (Return letters, w') ->
  Forall2 (letterOfCell detectCellLetter (config_of w) img) gridCells letters.
Proof.
  unfold detectLetters, bind. intros Hrun.
  destruct (detectCells _ _ _ _ _ _ _) as [[found | message] wD] eqn:Ed;
    [|discriminate Hrun].
  destruct (await_keeps_config wD) as [Ea _]. rewrite Ea in Hrun.
  injection Hrun as <- _.
  apply detectCells_letters in Ed. destruct Ed as (_ & new & -> & Hf).
  exact Hf.
Qed.

End GridProofs.

(** * One pipeline for another *)

Section Extensionality.

Variable stopRequested : nat -> bool.
Variable captured : Frame + string.
Variable executionTime : string.
Variables detect1 detect2 : CellBuffer -> ascii.
Hypothesis same_letter : forall cellBuffer, detect1 cellBuffer = detect2 cellBuffer.

Lemma detectCells_ext (img : Frame) (topLeftPos : Z * Z)
  (cells : list (nat * nat)) :
  forall (acc : list ascii) (w : World),
    detectCells stopRequested detect1 img topLeftPos cells acc w
    = detectCells stopRequested detect2 img topLeftPos cells acc w.
Proof.
  induction cells as [|[row col] cells IH]; intros acc w; [reflexivity|].
  cbn [detectCells]. unfold bind.
  destruct (captureSingleCell _ _ _ _ _ _) as [[cellBuffer | message] w1];
    [|reflexivity].
  destruct (emit _ _) as [[[] | message] w2]; [|reflexivity].
  destruct (await _ _) as [[[] | message] w3]; [|reflexivity].
  destruct (await _ _) as [[[] | message] w4]; [|reflexivity].
  rewrite same_letter. apply IH.
Qed.

Lemma detectLetters_ext (img : Frame) (w : World) :
  detectLetters stopRequested detect1 img w
  = detectLetters stopRequested detect2 img w.
Proof. unfold detectLetters, bind. now rewrite detectCells_ext. Qed.

Lemma detection_ext (w : World) :
  detection stopRequested captured detect1 w
  = detection stopRequested captured detect2 w.
Proof.
  unfold detection, bind.
  destruct (emit _ _) as [[[] | message] w1]; [|reflexivity].
  destruct (captureScreen _ _ _) as [[img | message] w2]; [|reflexivity].
  destruct (emit _ _) as [[[] | message] w3]; [|reflexivity].
  destruct (validateMinigamePresent _ _ _) as [[present | message] w4];
    [|reflexivity].
  destruct (emit _ _) as [[[] | message] w5]; [|reflexivity].
  apply detectLetters_ext.
Qed.

Lemma startSolver_ext (w : World) :
  startSolver stopRequested captured executionTime detect1 w
  = startSolver stopRequested captured executionTime detect2 w.
Proof.
  unfold startSolver. destruct (isDetecting w); [reflexivity|].
  unfold bind, tryFinally, tryCatch, solve, bind.
  destruct (emit _ _) as [[[] | message] w1]; [|reflexivity].
  now rewrite detection_ext.
Qed.

End Extensionality.

(** * Keys in the order of the grid *)

(** The index [i] of the letter array stands for the cell in row [i / 3]
    and column [i mod 3]. *)
Lemma gridCells_by_index : map cellOfIndex (seq 0 9) = gridCells.
Proof. reflexivity. Qed.

(** * A stop that the key sequence notices *)

Section CancellationProofs.

Variable stopRequested : nat -> bool.
Variable captured : Frame + string.
Variable executionTime : string.
Variable detectCellLetter : CellBuffer -> ascii.

(** The end of a run whose key sequence has thrown. *)
Lemma run_of_a_thrown_sequence (config : Config) (letters : list ascii)
  (wE : World) (message : string) :
  reachesExecution stopRequested captured detectCellLetter config letters wE ->
  fst (executeKeySequence stopRequested letters
         (Some (notifyKeyPressed letters)) wE) = Throw message ->
  startSolver stopRequested captured executionTime detectCellLetter
              (idle config)
  = (Return tt,
     setIsDetecting false
       (snd (emit (SolverStatus error message)
               (snd (executeKeySequence stopRequested letters
                       (Some (notifyKeyPressed letters)) wE))))).
Proof.
  intros (wD & Ed & Ec) Hthrow.
  rewrite startSolver_idle, solve_steps, Ed, Ec.
  destruct (executeKeySequence _ _ _ _) as [[[] | thrown] wX];
    cbn [fst] in Hthrow; [discriminate Hthrow|].
  injection Hthrow as ->. reflexivity.
Qed.

(** C5, as the code has it.  When the key sequence finds the stop flag
    set, it ends with 'Sequence stopped by user' and [startSolver] reports
    that through its error path: the run ends in the error state, with
    this message as the last thing sent.  What the sequence had sent
    stays in the trace, and the status [stopped] of the stop request is
    among it, before the error. *)
Theorem noticed_stop_ends_in_error
  (config : Config) (letters : list ascii) (wE : World) :
  reachesExecution stopRequested captured detectCellLetter config letters wE ->
  fst (executeKeySequence stopRequested letters
         (Some (notifyKeyPressed letters)) wE)
  = Throw "Sequence stopped by user" ->
  let w' := snd (startSolver stopRequested captured executionTime
                             detectCellLetter (idle config)) in
  (exists events,
     trace w'
     = trace wE ++ events ++ [SolverStatus error "Sequence stopped by user"]
     /\ Forall keyOrStop events
     /\ In (SolverStatus stopped "Stopped") events)
  /\ finalStatus (trace w') = Some error
  /\ shouldStop w' = true
  /\ isDetecting w' = false.
Proof.
  intros Hreach Hthrow. cbv zeta.
  rewrite (run_of_a_thrown_sequence config letters wE _ Hreach Hthrow).
  cbn [snd emit setIsDetecting trace shouldStop isDetecting].
  unfold executeKeySequence in *.
  destruct (keyLoop_trace stopRequested letters (length letters) letters 0
                          (setShouldStop false wE))
    as (k & events & _ & Ht & _ & _ & Hf & _ & Hcause).
  destruct (Hcause _ Hthrow) as (_ & _ & Hflag & [Habsurd | Hin]);
    [discriminate Habsurd|].
  split.
  - exists events. split; [|split; [exact Hf | exact Hin]].
    rewrite Ht. cbn [setShouldStop trace]. now rewrite app_assoc.
  - split; [apply finalStatus_last|]. split; [exact Hflag | reflexivity].
Qed.

End CancellationProofs.

(** * Runs on whole screens *)

(** The loop of the presence check has ended within the fuel that it is
    given: more fuel does not change the counts. *)
Lemma countColours_fuel (channels : nat) :
  (0 < channels)%nat ->
  forall (fuel1 fuel2 : nat) (rest : list Z) (acc : ColourCounts),
    (length rest <= fuel1)%nat -> (length rest <= fuel2)%nat ->
    countColours fuel1 channels rest acc = countColours fuel2 channels rest acc.
Proof.
  intros Hpos. induction fuel1 as [|fuel1 IH]; intros fuel2 rest acc H1 H2.
  - destruct rest as [|a rest]; [|simpl in H1; lia].
    destruct fuel2; reflexivity.
  - destruct rest as [|a rest]; [destruct fuel2; reflexivity|].
    destruct fuel2 as [|fuel2]; [simpl in H2; lia|].
    cbn [countColours]. apply IH.
    + rewrite length_skipn. cbn [length] in *. lia.
    + rewrite length_skipn. cbn [length] in *. lia.
Qed.

Lemma validateMinigamePresent_verdict (stopRequested : nat -> bool)
  (img : Frame) (w : World) :
  fst (validateMinigamePresent stopRequested img w)
  = Return (minigamePresent (config_of w) img).
Proof.
  unfold validateMinigamePresent, minigamePresent, bind.
  destruct (await_keeps_config stopRequested w) as [Ea _]. rewrite Ea.
  destruct (extract _ _ _ _ _) as [grid|]; [|reflexivity].
  match goal with
  | |- context [await stopRequested ?w1] =>
      destruct (await_keeps_config stopRequested w1) as [E1 _]; rewrite E1
  end.
  reflexivity.
Qed.

(** The detection of [puzzleScreen] when a stop request arrives at the
    suspension point 36, which follows the third key. *)
Lemma puzzle_reaches_execution :
  reachesExecution (stopAt 36) (inl puzzleScreen) Solver.detectCellLetter
                   initialConfig puzzleLetters puzzleExecution.
Proof.
  exists {| config_of := initialConfig; shouldStop := false;
            isDetecting := true; suspensions := 31;
            trace := detectionTrace |}.
  split; [|reflexivity].
  rewrite (detection_ext (stopAt 36) (inl puzzleScreen) _ _
                         detectCellLetter_is_stream).
  vm_compute. reflexivity.
Qed.

Lemma puzzle_stop_is_noticed :
  fst (executeKeySequence (stopAt 36) puzzleLetters
         (Some (notifyKeyPressed puzzleLetters)) puzzleExecution)
  = Throw "Sequence stopped by user".
Proof. vm_compute. reflexivity. Qed.

Lemma noticed_stop_ends_in_error_witness :
  finalStatus
    (trace (snd (startSolver (stopAt 36) (inl puzzleScreen) "2.50"
                             Solver.detectCellLetter (idle initialConfig))))
  = Some error.
Proof.
  apply (noticed_stop_ends_in_error (stopAt 36) (inl puzzleScreen) "2.50"
           Solver.detectCellLetter initialConfig puzzleLetters
           puzzleExecution).
  - exact puzzle_reaches_execution.
  - vm_compute. reflexivity.
Defined.

(** The run on [puzzleScreen] in which the stop request arrives after
    the third key: three keys are announced and sent, the stop request is
    answered with the status [stopped], and the run ends with the status
    [error]. *)
Lemma puzzle_run_stopped_after_three_keys :
  startSolver (stopAt 36) (inl puzzleScreen) "2.50" Solver.detectCellLetter
              (idle initialConfig)
  = (Return tt,
     {| config_of := initialConfig; shouldStop := true;
        isDetecting := false; suspensions := 37;
        trace :=
          detectionTrace
          ++ [GridDetected puzzleLetters;
              SolverStatus executing "Executing key sequence...";
              KeyPressed 0 (Some "W"%char); SendKey "w";
              KeyPressed 1 (Some "W"%char); SendKey "w";
              KeyPressed 2 (Some "W"%char); SendKey "w";
              SolverStatus stopped "Stopped";
              SolverStatus error "Sequence stopped by user"] |}).
Proof.
  rewrite (startSolver_ext (stopAt 36) (inl puzzleScreen) "2.50"
                           _ _ detectCellLetter_is_stream).
  vm_compute. reflexivity.
Qed.

(** On [puzzleScreen], stopped after the third key, the run ends in the
    error state, not in the stopped one. *)
Lemma noticed_stop_is_reported_as_an_error :
  ~ cancellation_not_an_error (stopAt 36) (inl puzzleScreen) "2.50"
                              Solver.detectCellLetter initialConfig.
Proof.
  intros H.
  destruct (H puzzleLetters puzzleExecution puzzle_reaches_execution
              puzzle_stop_is_noticed) as [Hfinal _].
  rewrite puzzle_run_stopped_after_three_keys in Hfinal.
  vm_compute in Hfinal. discriminate Hfinal.
Qed.

(** C1.  On [glyphsOnBlack] the presence check answers that the puzzle is
    absent, and the run goes on all the same: it captures the nine cells,
    shows the grid, enters the execution and sends nine keys. *)
Theorem absent_puzzle_is_solved_all_the_same :
  fst (validateMinigamePresent undisturbed glyphsOnBlack (idle initialConfig))
  = Return false
  /\ forall executionTime,
       startSolver undisturbed (inl glyphsOnBlack) executionTime
                   Solver.detectCellLetter (idle initialConfig)
       = (Return tt,
          {| config_of := initialConfig; shouldStop := false;
             isDetecting := false; suspensions := 48;
             trace :=
               detectionTrace
               ++ [GridDetected puzzleLetters;
                   SolverStatus executing "Executing key sequence...";
                   KeyPressed 0 (Some "W"%char); SendKey "w";
                   KeyPressed 1 (Some "W"%char); SendKey "w";
                   KeyPressed 2 (Some "W"%char); SendKey "w";
                   KeyPressed 3 (Some "W"%char); SendKey "w";
                   KeyPressed 4 (Some "W"%char); SendKey "w";
                   KeyPressed 5 (Some "W"%char); SendKey "w";
                   KeyPressed 6 (Some "W"%char); SendKey "w";
                   KeyPressed 7 (Some "W"%char); SendKey "w";
                   KeyPressed 8 (Some "W"%char); SendKey "w";
                   SolverStatus complete
                     ("Complete in " ++ executionTime ++ "s")] |}).
Proof.
  split; [rewrite validateMinigamePresent_verdict; vm_compute; reflexivity|].
  intros executionTime.
  rewrite (startSolver_ext undisturbed (inl glyphsOnBlack) executionTime
                           _ _ detectCellLetter_is_stream).
  vm_compute. reflexivity.
Qed.

Lemma too_many_unknown_letters_end_in_error_witness :
  let w' := snd (startSolver undisturbed (inl topRowScreen) "2.50"
                             Solver.detectCellLetter (idle initialConfig)) in
  (exists before,
     trace w' = before ++ [SolverStatus error (tooManyUndetected 6)])
  /\ finalStatus (trace w') = Some error
  /\ (forall message, ~ In (SolverStatus executing message) (trace w'))
  /\ (forall message, ~ In (SolverStatus complete message) (trace w'))
  /\ Forall keyless (trace w')
  /\ isDetecting w' = false.
Proof.
  apply (too_many_unknown_letters_end_in_error undisturbed
           (inl topRowScreen) "2.50" Solver.detectCellLetter initialConfig
           topRowLetters).
  - rewrite (startSolver_ext undisturbed (inl topRowScreen) "2.50"
                             _ _ detectCellLetter_is_stream).
    vm_compute. do 13 right. left. reflexivity.
  - apply Nat.ltb_lt. reflexivity.
Defined.

(** * Comparisons of ratios, by cases *)

Lemma Qltb_cases (a b : Q) :
  (Qltb a b = true /\ (a < b)%Q) \/ (Qltb a b = false /\ (b <= a)%Q).
Proof.
  destruct (Qltb a b) eqn:E.
  - left. split; [reflexivity | now apply Qltb_lt].
  - right. split; [reflexivity|].
    destruct (Qlt_le_dec a b) as [L | L]; [|exact L].
    apply Qltb_lt in L. congruence.
Qed.

(** * The regions of the grid and of its cells *)

Lemma extract_succeeds (img : Frame) (x0 y0 width height : Z) :
  extract img x0 y0 width height <> None <->
  0 <= x0 /\ 0 <= y0 /\ 0 < width /\ 0 < height
  /\ x0 + width <= fwidth img /\ y0 + height <= fheight img.
Proof.
  unfold extract.
  destruct ((0 <=? x0) && (0 <=? y0) && (0 <? width) && (0 <? height)
            && (x0 + width <=? fwidth img) && (y0 + height <=? fheight img))
    eqn:E.
  - repeat rewrite andb_true_iff in E.
    destruct E as [[[[[A B] C] D] F] G].
    split; [intros _; lia | intros _; discriminate].
  - split; [intros H; now elim H |].
    intros (A & B & C & D & F & G).
    assert (E' : (0 <=? x0) && (0 <=? y0) && (0 <? width) && (0 <? height)
            && (x0 + width <=? fwidth img) && (y0 + height <=? fheight img)
            = true).
    { repeat rewrite andb_true_iff. repeat split; lia. }
    congruence.
Qed.

Lemma in_gridCells (row col : nat) :
  In (row, col) gridCells <-> (row < 3 /\ col < 3)%nat.
Proof.
  unfold gridCells. cbn.
  split.
  - intros H.
    repeat (destruct H as [H | H]; [inversion H; subst; lia |]).
    elim H.
  - intros [R C].
    destruct row as [|[|[|row]]]; try lia;
      destruct col as [|[|[|col]]]; try lia; tauto.
Qed.

Lemma cellRegion_within (config : Config) (row col : nat) :
  (row < 3)%nat -> (col < 3)%nat ->
  0 < cellSize config -> 0 <= cellSpacing config ->
  forall img,
    extractable img (gridRegion config) ->
    extractable img (cellRegion config row col).
Proof.
  intros R C S P img.
  unfold extractable, gridRegion, cellRegion, getCellPosition.
  rewrite !extract_succeeds.
  destruct (getTopLeftCellPosition config) as [x0 y0]. cbn [fst snd].
  assert (Hc : 0 <= Z.of_nat col <= 2) by lia.
  assert (Hr : 0 <= Z.of_nat row <= 2) by lia.
  nia.
Qed.

(** X1.  Every cell region lies within the region that the presence check
    extracts: a pixel of a cell is a pixel of the grid region, and a
    screenshot from which the grid region can be extracted lets every cell
    be extracted too (for a positive cell size and a spacing that is not
    negative). *)
Theorem cells_lie_within_the_grid_region (config : Config) (row col : nat) :
  (row < 3)%nat -> (col < 3)%nat ->
  0 < cellSize config -> 0 <= cellSpacing config ->
  (forall x y,
      covers (cellRegion config row col) x y ->
      covers (gridRegion config) x y)
  /\ (forall img,
         extractable img (gridRegion config) ->
         extractable img (cellRegion config row col)).
Proof.
  intros R C S P. split.
  - intros x y. unfold covers, gridRegion, cellRegion, getCellPosition.
    destruct (getTopLeftCellPosition config) as [x0 y0]. cbn [fst snd].
    assert (Hc : 0 <= Z.of_nat col <= 2) by lia.
    assert (Hr : 0 <= Z.of_nat row <= 2) by lia.
    nia.
  - now apply cellRegion_within.
Qed.

Lemma cells_lie_within_the_grid_region_witness :
  (forall x y,
      covers (cellRegion initialConfig 2 2) x y ->
      covers (gridRegion initialConfig) x y)
  /\ (forall img,
         extractable img (gridRegion initialConfig) ->
         extractable img (cellRegion initialConfig 2 2)).
Proof.
  apply (cells_lie_within_the_grid_region initialConfig 2 2);
    simpl; lia.
Defined.

(** X2.  Two different cells of the grid share no pixel exactly when the
    cell size does not exceed the cell spacing; with a larger cell size
    neighbouring cell regions overlap. *)
Theorem cells_are_disjoint_iff_size_within_spacing (config : Config) :
  0 < cellSize config -> 0 <= cellSpacing config ->
  ((forall cell1 cell2 x y,
       In cell1 gridCells -> In cell2 gridCells -> cell1 <> cell2 ->
       covers (cellRegion config (fst cell1) (snd cell1)) x y ->
       ~ covers (cellRegion config (fst cell2) (snd cell2)) x y)
   <-> cellSize config <= cellSpacing config).
Proof.
  intros S P. unfold covers, cellRegion, getCellPosition.
  destruct (getTopLeftCellPosition config) as [x0 y0]. cbn [fst snd].
  split.
  - intros H.
    destruct (Z_le_gt_dec (cellSize config) (cellSpacing config)) as [L | G];
      [exact L | exfalso].
    apply (H (0, 0)%nat (0, 1)%nat (x0 + cellSpacing config) y0).
    + apply in_gridCells. lia.
    + apply in_gridCells. lia.
    + discriminate.
    + cbn [fst snd]. lia.
    + cbn [fst snd]. lia.
  - intros L [r1 c1] [r2 c2] x y H1 H2 Hne.
    apply in_gridCells in H1. apply in_gridCells in H2.
    cbn [fst snd].
    assert (Hcase : (r1 < r2 \/ r2 < r1 \/ c1 < c2 \/ c2 < c1)%nat).
    { destruct (Nat.eq_dec r1 r2) as [-> |]; [|lia].
      destruct (Nat.eq_dec c1 c2) as [-> |]; [|lia].
      now elim Hne. }
    intros A B.
    destruct Hcase as [Hc | [Hc | [Hc | Hc]]]; nia.
Qed.

Lemma cells_are_disjoint_iff_size_within_spacing_witness :
  (forall cell1 cell2 x y,
      In cell1 gridCells -> In cell2 gridCells -> cell1 <> cell2 ->
      covers (cellRegion initialConfig (fst cell1) (snd cell1)) x y ->
      ~ covers (cellRegion initialConfig (fst cell2) (snd cell2)) x y)
  <-> cellSize initialConfig <= cellSpacing initialConfig.
Proof.
  apply (cells_are_disjoint_iff_size_within_spacing initialConfig);
    simpl; lia.
Defined.

(** * More on the configuration *)

(** X5.  [updateConfig] is idempotent: the same call a second time changes
    nothing. *)
Theorem updateConfig_twice (newConfig : NewConfig) (config : Config) :
  updateConfig newConfig (updateConfig newConfig config)
  = updateConfig newConfig config.
Proof.
  destruct newConfig as [nb nv nr ns np nx ny].
  unfold updateConfig.
  cbn [new_baseDelay new_delayVariance new_resolution new_cellSize
       new_cellSpacing new_offsetX new_offsetY].
  destruct nr as [key|]; [destruct (truthy_string key);
                          [destruct (RESOLUTION_CONFIGS key) as [preset|]|]|];
    cbn [baseDelay delayVariance resolution cellSize cellSpacing
         offsetX offsetY];
    destruct nb, nv, ns, np, nx as [x|], ny as [y|]; cbn [spread];
    try reflexivity;
    try (destruct (truthy_number (Some x)));
    try (destruct (truthy_number (Some y)));
    reflexivity.
Qed.

(** X6.  A call that names a known resolution sets the cell size and the
    cell spacing to the values of that resolution, whatever sizes the call
    or the old configuration hold, and, unless the call brings an offset
    other than 0, puts the offset of the resolution in the place of the
    old one. *)
Theorem known_resolution_overrides_geometry (newConfig : NewConfig)
  (config : Config) (key : string) (preset : ResolutionConfig) :
  new_resolution newConfig = Some key ->
  RESOLUTION_CONFIGS key = Some preset ->
  let config' := updateConfig newConfig config in
  resolution config' = key
  /\ cellSize config' = res_cellSize preset
  /\ cellSpacing config' = res_cellSpacing preset
  /\ (truthy_number (new_offsetX newConfig) = false ->
      offsetX config' = res_offsetX preset)
  /\ (truthy_number (new_offsetY newConfig) = false ->
      offsetY config' = res_offsetY preset).
Proof.
  intros Hkey Hpreset. cbv zeta. unfold updateConfig. rewrite Hkey.
  assert (Ht : truthy_string key = true).
  { unfold truthy_string. destruct (String.eqb_spec key "") as [-> |];
      [discriminate Hpreset | reflexivity]. }
  rewrite Ht, Hpreset.
  cbn [resolution cellSize cellSpacing offsetX offsetY spread].
  split; [reflexivity|]. split; [reflexivity|]. split; [reflexivity|].
  split; intros ->; reflexivity.
Qed.

Lemma known_resolution_overrides_geometry_witness :
  let config' :=
    updateConfig
      {| new_baseDelay := None; new_delayVariance := None;
         new_resolution := Some "2560x1440"%string;
         new_cellSize := Some 50; new_cellSpacing := Some 40;
         new_offsetX := None; new_offsetY := None |}
      {| baseDelay := 150; delayVariance := 50;
         resolution := "1920x1080"; cellSize := 100; cellSpacing := 95;
         offsetX := 12; offsetY := -7 |} in
  resolution config' = "2560x1440"%string
  /\ cellSize config' = 133 /\ cellSpacing config' = 127
  /\ offsetX config' = -144 /\ offsetY config' = -117.
Proof.
  pose proof (known_resolution_overrides_geometry
                {| new_baseDelay := None; new_delayVariance := None;
                   new_resolution := Some "2560x1440"%string;
                   new_cellSize := Some 50; new_cellSpacing := Some 40;
                   new_offsetX := None; new_offsetY := None |}
                {| baseDelay := 150; delayVariance := 50;
                   resolution := "1920x1080"; cellSize := 100;
                   cellSpacing := 95; offsetX := 12; offsetY := -7 |}
                "2560x1440"
                {| res_cellSize := 133; res_cellSpacing := 127;
                   res_offsetX := -144; res_offsetY := -117 |}
                eq_refl eq_refl) as (H1 & H2 & H3 & H4 & H5).
  cbv zeta. split; [exact H1|]. split; [exact H2|]. split; [exact H3|].
  split; [apply H4; reflexivity | apply H5; reflexivity].
Defined.

(** * The letters that a cell can be read as *)

Lemma matchSignatureToLetter_letter (signature : Signature) :
  (50 <= cyanPixels signature)%nat ->
  In (matchSignatureToLetter signature)
     ["Q"; "W"; "E"; "R"; "A"; "S"; "D"]%char.
Proof.
  intros H. unfold matchSignatureToLetter, fallbackLetter.
  destruct (Nat.ltb_spec (cyanPixels signature) 50) as [Hlt | _]; [lia|].
  cbv zeta.
  repeat match goal with
         | |- context [if ?b then _ else _] => destruct b
         end; cbn [In]; tauto.
Qed.

Lemma corrected_letter (letter : ascii) :
  In letter ["Q"; "W"; "E"; "R"; "A"; "S"; "D"]%char ->
  In (Remap.corrected letter) ["W"; "E"; "R"; "A"; "D"]%char.
Proof.
  cbn [In]. intros H.
  repeat (destruct H as [H | H]; [rewrite <- H; cbn; tauto|]).
  elim H.
Qed.

Lemma detectedLetter_letter (brightPixels : list Point) :
  In (Legacy.detectedLetter brightPixels)
     ["Q"; "W"; "E"; "R"; "A"; "S"; "D"]%char.
Proof.
  unfold Legacy.detectedLetter. cbv zeta.
  repeat match goal with
         | |- context [if ?b then _ else _] => destruct b
         end; cbn; tauto.
Qed.

Lemma not_unknown (letter : ascii) (letters : list ascii) :
  In letter letters -> ~ In "?"%char letters -> letter <> "?"%char.
Proof. intros H Hn E. apply Hn. now rewrite <- E. Qed.

(** X7.  A decoded cell is read as Unknown exactly when the scan finds
    too few foreground pixels in it: fewer than fifty in
    [detectCellLetter], with or without the relabelling, and fewer than
    thirty in the earlier [detectLetter]. *)
Theorem unknown_exactly_below_the_pixel_floor (raw : RawImage) :
  let n := length (scanBright (data raw) (info_width raw) (info_height raw)
                              (info_channels raw)) in
  let m := length (Legacy.scanBright (data raw) (info_width raw)
                                     (info_height raw) (info_channels raw)) in
  (Solver.detectCellLetter (Some raw) = "?"%char <-> (n < 50)%nat)
  /\ (Remap.detectCellLetter (Some raw) = "?"%char <-> (n < 50)%nat)
  /\ (Legacy.detectLetter raw = "?"%char <-> (m < 30)%nat).
Proof.
  cbv zeta.
  unfold Solver.detectCellLetter, Remap.detectCellLetter, Legacy.detectLetter,
    createLetterSignature.
  set (pixels := scanBright (data raw) (info_width raw) (info_height raw)
                            (info_channels raw)).
  set (older := Legacy.scanBright (data raw) (info_width raw)
                                  (info_height raw) (info_channels raw)).
  cbv zeta.
  pose proof (matchSignatureToLetter_letter (signatureOf pixels)) as Hin.
  rewrite cyanPixels_is_the_count in *.
  split; [|split].
  - destruct (Nat.ltb_spec (length pixels) 50) as [Hlt | Hge].
    + split; [intros _; exact Hlt | reflexivity].
    + split; [|lia]. intros E. exfalso. revert E.
      apply (not_unknown _ _ (Hin Hge)). cbn [In].
      intros H. repeat (destruct H as [H | H]; [discriminate H|]). exact H.
  - destruct (Nat.ltb_spec (length pixels) 50) as [Hlt | Hge].
    + split; [intros _; exact Hlt | reflexivity].
    + split; [|lia]. intros E. exfalso. revert E.
      apply (not_unknown _ _ (corrected_letter _ (Hin Hge))). cbn [In].
      intros H. repeat (destruct H as [H | H]; [discriminate H|]). exact H.
  - destruct (Nat.ltb_spec (length older) 30) as [Hlt | Hge].
    + split; [intros _; exact Hlt | reflexivity].
    + split; [|lia]. intros E. exfalso. revert E.
      apply (not_unknown _ _ (corrected_letter _ (detectedLetter_letter older))).
      cbn [In].
      intros H. repeat (destruct H as [H | H]; [discriminate H|]). exact H.
Qed.

(** X8.  The pipelines that relabel their output never read a cell as S
    or as Q: what they return is the Unknown symbol or one of W, E, R, A,
    D. *)
Theorem relabelled_cells_are_never_S_or_Q :
  (forall cellBuffer,
      In (Remap.detectCellLetter cellBuffer)
         ["?"; "W"; "E"; "R"; "A"; "D"]%char)
  /\ (forall cell,
         In (Legacy.detectLetter cell) ["?"; "W"; "E"; "R"; "A"; "D"]%char).
Proof.
  split.
  - intros [raw|]; [|cbn; tauto].
    unfold Remap.detectCellLetter.
    destruct (Nat.ltb_spec
                (cyanPixels (createLetterSignature (data raw) (info_width raw)
                               (info_height raw) (info_channels raw))) 50)
      as [_ | Hge]; [cbn; tauto|].
    cbv zeta. right.
    apply corrected_letter, matchSignatureToLetter_letter, Hge.
  - intros cell. unfold Legacy.detectLetter. cbv zeta.
    destruct (_ <? 30)%nat; [cbn; tauto|].
    right. apply corrected_letter, detectedLetter_letter.
Qed.

(** X9.  For a signature of fifty pixels or more, the aspect ratio and
    the hole flag fix the class of the letter: an aspect ratio above 2.0
    or below 0.15 gives E, D or S; one above 1.30 (and at most 2.0) gives
    W; otherwise a signature with a hole gives D, Q or A and one without
    gives E, R, S or W. *)
Theorem shape_fixes_the_class_of_the_letter (signature : Signature) :
  (50 <= cyanPixels signature)%nat ->
  let letter := matchSignatureToLetter signature in
  let a := aspectRatio signature in
  ((2.0 < a \/ a < 0.15)%Q -> In letter ["E"; "D"; "S"]%char)
  /\ ((1.30 < a /\ a <= 2.0)%Q -> letter = "W"%char)
  /\ ((0.15 <= a /\ a <= 1.30)%Q ->
      (centerHole signature = true -> In letter ["D"; "Q"; "A"]%char)
      /\ (centerHole signature = false ->
          In letter ["E"; "R"; "S"; "W"]%char)).
Proof.
  intros H. cbv zeta. unfold matchSignatureToLetter, fallbackLetter.
  destruct (Nat.ltb_spec (cyanPixels signature) 50) as [Hlt | _]; [lia|].
  cbv zeta. unfold Qgtb.
  destruct (Qltb_cases 2.0 (aspectRatio signature)) as [[E2 P2] | [E2 P2]];
    destruct (Qltb_cases (aspectRatio signature) 0.15) as [[E1 P1] | [E1 P1]];
    destruct (Qltb_cases 1.30 (aspectRatio signature)) as [[E3 P3] | [E3 P3]];
    rewrite E1, E2, E3; cbn [orb];
    (split; [intros [A | A] | split; [intros [A B] | intros [A B]]]);
    try (exfalso; Qcontra);
    try reflexivity;
    try (split; intros Hh; rewrite Hh);
    repeat match goal with
           | |- context [if ?b then _ else _] => destruct b
           end; cbn [In]; tauto.
Qed.

Lemma shape_fixes_the_class_of_the_letter_witness :
  let signature :=
    {| cyanPixels := 120; pixelCount := 120; aspectRatio := 1.5;
       topHeavy := 0.5; bottomHeavy := 0.5; leftHeavy := 0.5;
       rightHeavy := 0.5; centerHole := true |} in
  matchSignatureToLetter signature = "W"%char.
Proof.
  cbv zeta.
  apply (shape_fixes_the_class_of_the_letter
           {| cyanPixels := 120; pixelCount := 120; aspectRatio := 1.5;
              topHeavy := 0.5; bottomHeavy := 0.5; leftHeavy := 0.5;
              rightHeavy := 0.5; centerHole := true |}).
  - simpl. lia.
  - simpl. split; [unfold Qlt | unfold Qle]; simpl; lia.
Defined.

(** * The signature of a glyph that is moved *)

Lemma fold_left_min_add (l : list Z) (a d : Z) :
  fold_left Z.min (map (fun z => z + d) l) (a + d) = fold_left Z.min l a + d.
Proof.
  revert a. induction l as [|b l IH]; intros a; [reflexivity|].
  cbn [map fold_left]. rewrite Z.add_min_distr_r. apply IH.
Qed.

Lemma fold_left_max_add (l : list Z) (a d : Z) :
  fold_left Z.max (map (fun z => z + d) l) (a + d) = fold_left Z.max l a + d.
Proof.
  revert a. induction l as [|b l IH]; intros a; [reflexivity|].
  cbn [map fold_left]. rewrite Z.add_max_distr_r. apply IH.
Qed.

Lemma Math_min_add (l : list Z) (d : Z) :
  l <> [] -> Math_min (map (fun z => z + d) l) = Math_min l + d.
Proof.
  destruct l as [|a l]; [congruence|]. intros _. apply fold_left_min_add.
Qed.

Lemma Math_max_add (l : list Z) (d : Z) :
  l <> [] -> Math_max (map (fun z => z + d) l) = Math_max l + d.
Proof.
  destruct l as [|a l]; [congruence|]. intros _. apply fold_left_max_add.
Qed.

Lemma countIf_map (f : Point -> bool) (g : Point -> Point) (l : list Point) :
  countIf f (map g l) = countIf (fun p => f (g p)) l.
Proof.
  unfold countIf. induction l as [|p l IH]; [reflexivity|].
  cbn [map filter]. destruct (f (g p)); cbn [length]; now rewrite IH.
Qed.

Lemma countIf_ext (f g : Point -> bool) (l : list Point) :
  (forall p, f p = g p) -> countIf f l = countIf g l.
Proof.
  intros H. unfold countIf. now rewrite (filter_ext f g H).
Qed.

Lemma Qltb_shift (a b a' b' d : Q) :
  (a' == a + d)%Q -> (b' == b + d)%Q -> Qltb a' b' = Qltb a b.
Proof.
  intros Ha Hb.
  destruct (Qltb_cases a b) as [[E P] | [E P]];
    destruct (Qltb_cases a' b') as [[E' P'] | [E' P']];
    try congruence; exfalso; rewrite Ha, Hb in P'.
  - rewrite Qplus_le_l in P'. exact (Qlt_not_le _ _ P P').
  - rewrite Qplus_lt_l in P'. exact (Qlt_not_le _ _ P' P).
Qed.

Lemma center_shift (lo hi d : Z) :
  (inject_Z (lo + d + (hi + d)) / 2 == inject_Z (lo + hi) / 2 + inject_Z d)%Q.
Proof. rewrite !inject_Z_plus. field. Qed.

(** X10.  The signature of a glyph does not depend on where in the cell
    the glyph sits: moving every foreground pixel by the same amount
    leaves every field of the signature as it is. *)
Theorem signature_ignores_the_position (pixels : list Point) (dx dy : Z) :
  signatureOf (map (translate dx dy) pixels) = signatureOf pixels.
Proof.
  unfold signatureOf. rewrite length_map.
  destruct (Nat.ltb_spec (length pixels) 80) as [_ | Hge]; [reflexivity|].
  assert (Hne : pixels <> []) by (destruct pixels; [cbn in Hge; lia | congruence]).
  assert (Hx : map px (map (translate dx dy) pixels)
               = map (fun z => z + dx) (map px pixels)).
  { rewrite !map_map. reflexivity. }
  assert (Hy : map py (map (translate dx dy) pixels)
               = map (fun z => z + dy) (map py pixels)).
  { rewrite !map_map. reflexivity. }
  assert (Hnx : map px pixels <> []) by (destruct pixels; [congruence | discriminate]).
  assert (Hny : map py pixels <> []) by (destruct pixels; [congruence | discriminate]).
  rewrite Hx, Hy.
  rewrite !Math_min_add, !Math_max_add by assumption.
  cbv zeta.
  set (minX := Math_min (map px pixels)).
  set (maxX := Math_max (map px pixels)).
  set (minY := Math_min (map py pixels)).
  set (maxY := Math_max (map py pixels)).
  replace (maxX + dx - (minX + dx) + 1) with (maxX - minX + 1) by lia.
  replace (maxY + dy - (minY + dy) + 1) with (maxY - minY + 1) by lia.
  rewrite !countIf_map.
  assert (Px : forall p,
             (inject_Z (px (translate dx dy p))
              == inject_Z (px p) + inject_Z dx)%Q).
  { intros p. cbn [translate px]. rewrite inject_Z_plus. reflexivity. }
  assert (Py : forall p,
             (inject_Z (py (translate dx dy p))
              == inject_Z (py p) + inject_Z dy)%Q).
  { intros p. cbn [translate py]. rewrite inject_Z_plus. reflexivity. }
  assert (Ax : forall p c,
             Qltb (Qabs (inject_Z (px (translate dx dy p))
                         - inject_Z (minX + dx + (maxX + dx)) / 2)) c
             = Qltb (Qabs (inject_Z (px p) - inject_Z (minX + maxX) / 2)) c).
  { intros p c. apply (Qltb_shift _ _ _ _ 0); [|ring].
    rewrite Px, center_shift, Qplus_0_r. apply Qabs_wd. ring. }
  assert (Ay : forall p c,
             Qltb (Qabs (inject_Z (py (translate dx dy p))
                         - inject_Z (minY + dy + (maxY + dy)) / 2)) c
             = Qltb (Qabs (inject_Z (py p) - inject_Z (minY + maxY) / 2)) c).
  { intros p c. apply (Qltb_shift _ _ _ _ 0); [|ring].
    rewrite Py, center_shift, Qplus_0_r. apply Qabs_wd. ring. }
  rewrite (countIf_ext _ (fun p => Qltb (inject_Z (py p))
                                        (inject_Z (minY + maxY) / 2)) pixels)
    by (intros p; apply (Qltb_shift _ _ _ _ (inject_Z dy));
        [apply Py | apply center_shift]).
  rewrite (countIf_ext (fun p => Qgeb (inject_Z (py (translate dx dy p))) _)
                       (fun p => Qgeb (inject_Z (py p))
                                      (inject_Z (minY + maxY) / 2)) pixels)
    by (intros p; rewrite !Qgeb_negb_ltb; f_equal;
        apply (Qltb_shift _ _ _ _ (inject_Z dy));
        [apply Py | apply center_shift]).
  rewrite (countIf_ext (fun p => Qltb (inject_Z (px (translate dx dy p))) _)
                       (fun p => Qltb (inject_Z (px p))
                                      (inject_Z (minX + maxX) / 2)) pixels)
    by (intros p; apply (Qltb_shift _ _ _ _ (inject_Z dx));
        [apply Px | apply center_shift]).
  rewrite (countIf_ext (fun p => Qgeb (inject_Z (px (translate dx dy p))) _)
                       (fun p => Qgeb (inject_Z (px p))
                                      (inject_Z (minX + maxX) / 2)) pixels)
    by (intros p; rewrite !Qgeb_negb_ltb; f_equal;
        apply (Qltb_shift _ _ _ _ (inject_Z dx));
        [apply Px | apply center_shift]).
  rewrite (countIf_ext
             (fun p => Qltb (Qabs (inject_Z (px (translate dx dy p)) - _)) _
                       && Qltb (Qabs (inject_Z (py (translate dx dy p)) - _)) _)
             (fun p =>
                Qltb (Qabs (inject_Z (px p) - inject_Z (minX + maxX) / 2))
                     (inject_Z (Z.min (maxX - minX + 1) (maxY - minY + 1)) / 4)
                && Qltb (Qabs (inject_Z (py p) - inject_Z (minY + maxY) / 2))
                     (inject_Z (Z.min (maxX - minX + 1) (maxY - minY + 1)) / 4))
             pixels)
    by (intros p; rewrite Ax, Ay; reflexivity).
  reflexivity.
Qed.

(** * Cells with few pixels *)

Lemma scanRow_length (data : list Z) (width channels y : nat) :
  (length (scanRow data width channels y) <= width)%nat.
Proof.
  unfold scanRow.
  assert (H : forall l : list nat,
             (length (flat_map
                (fun x =>
                   let i := ((y * width + x) * channels)%nat in
                   if isCyanLetter (at_index data i) (at_index data (i + 1))
                                   (at_index data (i + 2))
                   then [mkPoint (Z.of_nat x) (Z.of_nat y)] else []) l)
              <= length l)%nat).
  { induction l as [|x l IH]; [cbn; lia|].
    cbn [flat_map]. rewrite length_app. cbv zeta in *.
    destruct (isCyanLetter _ _ _); cbn [length]; lia. }
  specialize (H (seq 0 width)). now rewrite length_seq in H.
Qed.

Lemma scanBright_length (data : list Z) (width height channels : nat) :
  (length (scanBright data width height channels) <= width * height)%nat.
Proof.
  unfold scanBright.
  assert (H : forall l : list nat,
             (length (flat_map (scanRow data width channels) l)
              <= width * length l)%nat).
  { induction l as [|y l IH]; [cbn; lia|].
    cbn [flat_map length]. rewrite length_app.
    pose proof (scanRow_length data width channels y). lia. }
  specialize (H (seq 0 height)). now rewrite length_seq in H.
Qed.

(** X11.  The scan finds at most [width * height] foreground pixels, so a
    cell of fewer than fifty pixels is read as Unknown whatever it
    shows. *)
Theorem cell_of_few_pixels_is_unknown (raw : RawImage) :
  (info_width raw * info_height raw < 50)%nat ->
  Solver.detectCellLetter (Some raw) = "?"%char
  /\ Remap.detectCellLetter (Some raw) = "?"%char.
Proof.
  intros H. apply detectCellLetter_below_fifty.
  pose proof (scanBright_length (data raw) (info_width raw) (info_height raw)
                                (info_channels raw)).
  lia.
Qed.

Lemma cell_of_few_pixels_is_unknown_witness :
  Solver.detectCellLetter
    (Some (decode (uniformScreen cyan 7 7))) = "?"%char
  /\ Remap.detectCellLetter
       (Some (decode (uniformScreen cyan 7 7))) = "?"%char.
Proof.
  apply (cell_of_few_pixels_is_unknown (decode (uniformScreen cyan 7 7))).
  simpl. lia.
Defined.

(** * Screens of one colour *)

Lemma flat_map_constant {A B : Type} (c : list B) (f : A -> list B)
  (l : list A) :
  (forall a, f a = c) -> flat_map f l = flat_map (fun _ => c) l.
Proof.
  intros H. induction l as [|a l IH]; [reflexivity|].
  cbn [flat_map]. now rewrite H, IH.
Qed.

Lemma flat_map_nested {A B C : Type} (c : list C) (inner : list B)
  (l : list A) :
  flat_map (fun _ : A => flat_map (fun _ : B => c) inner) l
  = flat_map (fun _ : B => c) (flat_map (fun _ : A => inner) l).
Proof.
  induction l as [|a l IH]; [reflexivity|].
  cbn [flat_map]. now rewrite flat_map_app, IH.
Qed.

(** The counts of a buffer in which every pixel has the same colour: a
    class to which the colour does not belong stays empty. *)
Lemma countColours_one_colour {A : Type} (r g b : Z) (l : list A) :
  forall (fuel : nat) (acc : ColourCounts),
    let counts :=
      countColours fuel 3 (flat_map (fun _ => [r; g; b]) l) acc in
    ((b >? 20) && (b <? 80) && (r <? 50) && (g <? 70) = false ->
     darkBluePixelCount counts = darkBluePixelCount acc)
    /\ (((b >? 90) && (b <? 220)) && ((g >? 70) && (g <? 180)) && (r <? 140)
        = false ->
        gridBorderPixelCount counts = gridBorderPixelCount acc).
Proof.
  induction l as [|a l IH]; intros fuel acc; cbv zeta.
  - destruct fuel; cbn; split; reflexivity.
  - destruct fuel as [|fuel]; [cbn; split; reflexivity|].
    cbn [flat_map app countColours skipn].
    destruct (IH fuel (countPixel (r :: g :: b :: flat_map (fun _ => [r; g; b]) l) acc))
      as [Hd Hb].
    unfold countPixel in *. cbn [at_index nth_error] in *. cbv zeta in *.
    split; intros E.
    + rewrite (Hd E). cbn [darkBluePixelCount]. now rewrite E.
    + rewrite (Hb E). cbn [gridBorderPixelCount]. now rewrite E.
Qed.

Lemma percentage_of_none (totalPixels c : Q) :
  (0 <= c)%Q -> Qgtb (percentage 0 totalPixels) c = false.
Proof.
  intros H. unfold Qgtb.
  destruct (Qltb_cases c (percentage 0 totalPixels)) as [[E P] | [E P]];
    [exfalso | exact E].
  apply (Qlt_not_le _ _ P). unfold percentage. cbn [Z.of_nat].
  assert (Z0 : (inject_Z 0 / totalPixels * 100 == 0)%Q).
  { unfold Qdiv. change (inject_Z 0) with 0%Q. ring. }
  rewrite Z0. exact H.
Qed.

(** X12.  A screen of one colour never passes the presence check,
    whatever the colour, the size of the screen and the configuration:
    the dark blue of the background and the colour of the grid lines
    exclude one another. *)
Theorem screen_of_one_colour_has_no_puzzle (stopRequested : nat -> bool)
  (colour : Z * Z * Z) (width height : Z) (w : World) :
  minigamePresent (config_of w) (uniformScreen colour width height) = false
  /\ fst (validateMinigamePresent stopRequested
            (uniformScreen colour width height) w) = Return false.
Proof.
  assert (H : forall config,
             minigamePresent config (uniformScreen colour width height)
             = false).
  { intros config. unfold minigamePresent, extract.
    destruct (_ && _); [|reflexivity].
    unfold isPresent. cbn [data info_channels].
    destruct colour as [[r g] b].
    rewrite (flat_map_constant
               (flat_map (fun _ : nat => [r; g; b])
                         (seq 0 (Z.to_nat (cellSpacing config * 2
                                           + cellSize config))))).
    2:{ intros y. unfold rawRow. apply flat_map_constant. reflexivity. }
    rewrite flat_map_nested.
    match goal with
    | |- context [countColours ?fuel 3 (flat_map _ ?l) ?acc] =>
        destruct (countColours_one_colour r g b l fuel acc) as [Hd Hb];
        set (counts := countColours fuel 3 _ acc) in *
    end.
    cbv zeta.
    destruct ((b >? 20) && (b <? 80) && (r <? 50) && (g <? 70)) eqn:Ed.
    - rewrite Hb.
      + cbn [gridBorderPixelCount].
        rewrite (percentage_of_none _ 1.0) by (unfold Qle; simpl; lia).
        apply andb_false_r.
      + repeat rewrite andb_true_iff in Ed.
        destruct Ed as [[[A B] C] D].
        assert (Hb90 : (b >? 90) = false) by lia.
        rewrite Hb90. reflexivity.
    - rewrite Hd by reflexivity.
      cbn [darkBluePixelCount].
      rewrite (percentage_of_none _ 25) by (unfold Qle; simpl; lia).
      now rewrite andb_false_r. }
  split; [apply H|].
  rewrite validateMinigamePresent_verdict. now rewrite H.
Qed.

(** * How a run ends *)

Section EndProofs.

Variable stopRequested : nat -> bool.
Variable captured : Frame + string.
Variable executionTime : string.
Variable detectCellLetter : CellBuffer -> ascii.

(** X13.  A run that starts in the idle state always comes to an end:
    [startSolver] returns, the run is no longer marked as detecting, and
    the last status that the window is sent is [complete] or [error]. *)
Theorem run_ends_complete_or_in_error (config : Config) :
  let result :=
    startSolver stopRequested captured executionTime detectCellLetter
                (idle config) in
  fst result = Return tt
  /\ isDetecting (snd result) = false
  /\ (finalStatus (trace (snd result)) = Some complete
      \/ finalStatus (trace (snd result)) = Some error).
Proof.
  cbv zeta. rewrite startSolver_idle, solve_steps.
  destruct (detection _ _ _ _) as [[letters | message] wD];
    [destruct (checkDetection letters wD) as [[[] | message] wE];
     [destruct (executeKeySequence _ _ _ _) as [[[] | message] wX]|]|];
    cbn [finish emit fst snd setIsDetecting isDetecting trace];
    (split; [reflexivity|]); (split; [reflexivity|]);
    rewrite finalStatus_last; tauto.
Qed.

(** X14.  When the screen capture fails, the run ends in the error
    status with the message of the failure behind ["Screen capture
    failed: "]; no presence check, no cell and no key follows. *)
Theorem failed_capture_ends_the_run (config : Config) (message : string) :
  trace (snd (startSolver stopRequested (inr message) executionTime
                          detectCellLetter (idle config)))
  = [SolverStatus detecting "Scanning screen...";
     SolverStatus detecting "Capturing screen..."]
    ++ (if stopRequested 0%nat then [SolverStatus stopped "Stopped"] else [])
    ++ [SolverStatus error ("Screen capture failed: " ++ message)].
Proof.
  unfold startSolver, tryFinally, tryCatch, solve, detection, captureScreen,
    bind, await, stopSolver, throw, emit.
  cbn [idle isDetecting setIsDetecting suspensions suspended fst snd trace
       stop setShouldStop config_of shouldStop].
  destruct (stopRequested 0%nat); reflexivity.
Qed.

End EndProofs.

(** * Stop requests and the key sequence *)

Section StopProofs.

Variable stopRequested : nat -> bool.
Variable letters : list ascii.

Lemma await_undisturbed (w : World) :
  stopRequested (suspensions w) = false ->
  await stopRequested w = (Return tt, suspended w).
Proof. intros H. unfold await. now rewrite H. Qed.

Lemma afterKey_undisturbed (n i : nat) (letter : ascii) (w : World) :
  (forall k, (suspensions w <= k)%nat -> stopRequested k = false) ->
  let w' := afterKey stopRequested letters n i letter w in
  shouldStop w' = shouldStop w
  /\ (suspensions w <= suspensions w')%nat
  /\ trace w' = trace w ++ [KeyPressed i (nth_error letters i);
                            SendKey (toLowerCase letter)].
Proof.
  intros H. cbv zeta.
  unfold afterKey, sendKey, sleep, bind, notifyKeyPressed, emit, ret.
  cbn [fst snd].
  rewrite await_undisturbed
    by (cbn [suspensions]; apply H; lia).
  destruct (S i <? n)%nat.
  - rewrite await_undisturbed
      by (cbn [suspensions suspended]; apply H; lia).
    cbn [snd suspended shouldStop suspensions trace].
    split; [reflexivity|]. split; [lia|]. now rewrite <- app_assoc.
  - cbn [snd suspended shouldStop suspensions trace].
    split; [reflexivity|]. split; [lia|]. now rewrite <- app_assoc.
Qed.

Lemma keyLoop_undisturbed (n : nat) (rest : list ascii) :
  forall (i : nat) (w : World),
    shouldStop w = false ->
    (forall k, (suspensions w <= k)%nat -> stopRequested k = false) ->
    let result :=
      keyLoop stopRequested n (Some (notifyKeyPressed letters)) i rest w in
    fst result = Return tt
    /\ exists events,
        trace (snd result) = trace w ++ events
        /\ sentKeys events = map toLowerCase (filter known rest).
Proof.
  induction rest as [|letter rest IH]; intros i w Hflag Hquiet; cbv zeta.
  - cbn. split; [reflexivity|]. exists []. now rewrite app_nil_r.
  - destruct (known letter) eqn:Hknown.
    + rewrite keyLoop_presses_known by assumption.
      destruct (afterKey_undisturbed n i letter w Hquiet) as (Hs & Hn & Ht).
      destruct (IH (S i) (afterKey stopRequested letters n i letter w))
        as (Hr & events & He & Hk).
      * congruence.
      * intros k Hk. apply Hquiet. lia.
      * split; [exact Hr|].
        exists ([KeyPressed i (nth_error letters i);
                 SendKey (toLowerCase letter)] ++ events).
        split; [rewrite He, Ht; now rewrite <- app_assoc|].
        cbn [filter]. rewrite Hknown. rewrite sentKeys_app, Hk. reflexivity.
    + unfold known in Hknown. apply negb_false_iff in Hknown.
      apply Ascii.eqb_eq in Hknown. subst letter.
      rewrite keyLoop_skips_unknown by exact Hflag.
      destruct (IH (S i) w Hflag Hquiet) as (Hr & events & He & Hk).
      split; [exact Hr|]. exists events. split; [exact He|].
      cbn [filter]. change (known "?") with false. exact Hk.
Qed.

(** X15.  [executeKeySequence] clears the stop flag when it starts: a
    stop that was requested before the sequence began is forgotten.
    Whatever the flag was, unless a request arrives during the sequence
    the sequence ends normally and the key of every known letter is
    sent. *)
Theorem stop_before_the_sequence_is_forgotten (w : World) :
  (forall k, (suspensions w <= k)%nat -> stopRequested k = false) ->
  let result :=
    executeKeySequence stopRequested letters
                       (Some (notifyKeyPressed letters)) w in
  fst result = Return tt
  /\ exists events,
      trace (snd result) = trace w ++ events
      /\ sentKeys events = map toLowerCase (filter known letters).
Proof.
  intros Hquiet. unfold executeKeySequence.
  apply (keyLoop_undisturbed (length letters) letters 0 (setShouldStop false w));
    [reflexivity | exact Hquiet].
Qed.

(** X16.  Once the loop has reached the last letter with the stop flag
    clear, the sequence ends normally: a stop request that arrives while
    the last key is sent is not noticed. *)
Theorem stop_during_the_last_key_is_not_noticed (n i : nat) (letter : ascii)
  (w : World) :
  shouldStop w = false ->
  fst (keyLoop stopRequested n (Some (notifyKeyPressed letters)) i [letter] w)
  = Return tt.
Proof.
  intros Hflag.
  destruct (known letter) eqn:Hknown.
  - rewrite keyLoop_presses_known by assumption. reflexivity.
  - unfold known in Hknown. apply negb_false_iff in Hknown.
    apply Ascii.eqb_eq in Hknown. subst letter.
    rewrite keyLoop_skips_unknown by exact Hflag. reflexivity.
Qed.

End StopProofs.

Lemma stop_before_the_sequence_is_forgotten_witness :
  let result :=
    executeKeySequence undisturbed puzzleLetters
                       (Some (notifyKeyPressed puzzleLetters))
                       (stop puzzleExecution) in
  fst result = Return tt
  /\ exists events,
      trace (snd result) = trace (stop puzzleExecution) ++ events
      /\ sentKeys events = map toLowerCase (filter known puzzleLetters).
Proof.
  apply (stop_before_the_sequence_is_forgotten undisturbed puzzleLetters
           (stop puzzleExecution)); reflexivity.
Defined.

Lemma stop_during_the_last_key_is_not_noticed_witness :
  fst (keyLoop (stopAt 31) 9 (Some (notifyKeyPressed puzzleLetters)) 8
               ["W"%char] puzzleExecution)
  = Return tt.
Proof.
  apply (stop_during_the_last_key_is_not_noticed (stopAt 31) puzzleLetters
           9 8 "W"%char puzzleExecution).
  reflexivity.
Defined.

(** * The delay between two keys *)

Lemma Math_maxQ_bounds (a b : Q) :
  (a <= Math_maxQ a b)%Q /\ (b <= Math_maxQ a b)%Q
  /\ forall c, (a <= c)%Q -> (b <= c)%Q -> (Math_maxQ a b <= c)%Q.
Proof.
  unfold Math_maxQ. destruct (Qle_bool a b) eqn:E.
  - apply Qle_bool_iff in E.
    split; [exact E|]. split; [apply Qle_refl|]. intros c _ H. exact H.
  - assert (L : (b < a)%Q).
    { apply Qnot_le_lt. intros H. apply Qle_bool_iff in H. congruence. }
    split; [apply Qle_refl|]. split; [apply Qlt_le_weak, L|].
    intros c H _. exact H.
Qed.

(** X17.  The delay of [getRandomDelay] is never below 50 milliseconds,
    never below the base delay less the variance, and never above the
    larger of 50 and the base delay plus the variance (for a variance
    that is not negative and a random number in [0, 1)). *)
Theorem random_delay_bounds (config : Config) (random : Q) :
  (0 <= random)%Q -> (random < 1)%Q -> 0 <= delayVariance config ->
  let delay := getRandomDelay config random in
  (50 <= delay)%Q
  /\ (inject_Z (baseDelay config) - inject_Z (delayVariance config)
      <= delay)%Q
  /\ (delay <= Math_maxQ 50 (inject_Z (baseDelay config)
                             + inject_Z (delayVariance config)))%Q.
Proof.
  intros H0 H1 Hv. cbv zeta. unfold getRandomDelay. cbv zeta.
  set (v := inject_Z (delayVariance config)).
  set (base := inject_Z (baseDelay config)).
  assert (V : (0 <= v)%Q).
  { unfold v. change 0%Q with (inject_Z 0). now rewrite <- Zle_Qle. }
  assert (U0 : (0 <= random * v)%Q) by (apply Qmult_le_0_compat; assumption).
  assert (U1 : (random * v <= v)%Q).
  { setoid_replace v with (1 * v)%Q at 2 by ring.
    apply Qmult_le_compat_r; [apply Qlt_le_weak, H1 | exact V]. }
  destruct (Math_maxQ_bounds 50 (base + (random * v * 2 - v))) as (A & B & _).
  destruct (Math_maxQ_bounds 50 (base + v)) as (A' & B' & _).
  destruct (Math_maxQ_bounds 50 (base + (random * v * 2 - v))) as (_ & _ & C).
  split; [exact A|]. split.
  - eapply Qle_trans; [|exact B].
    apply Qle_trans with (base + (0 * 2 - v))%Q.
    + setoid_replace (base + (0 * 2 - v))%Q with (base - v)%Q by ring.
      apply Qle_refl.
    + apply Qplus_le_r. unfold Qminus. apply Qplus_le_l.
      apply Qmult_le_compat_r; [exact U0 | discriminate].
  - apply C; [exact A'|].
    eapply Qle_trans; [|exact B'].
    apply Qplus_le_r.
    apply Qle_trans with (v * 2 - v)%Q.
    + unfold Qminus. apply Qplus_le_l.
      apply Qmult_le_compat_r; [exact U1 | discriminate].
    + setoid_replace (v * 2 - v)%Q with v by ring. apply Qle_refl.
Qed.

Lemma random_delay_bounds_witness :
  let delay := getRandomDelay initialConfig 0.5 in
  (50 <= delay)%Q
  /\ (inject_Z (baseDelay initialConfig)
      - inject_Z (delayVariance initialConfig) <= delay)%Q
  /\ (delay <= Math_maxQ 50 (inject_Z (baseDelay initialConfig)
                             + inject_Z (delayVariance initialConfig)))%Q.
Proof.
  apply (random_delay_bounds initialConfig 0.5).
  - unfold Qle. simpl. lia.
  - unfold Qlt. simpl. lia.
  - simpl. lia.
Defined.

(** * The template matcher *)

Lemma filter_both_length {A : Type} (f g : A -> bool) (l : list A) :
  (length (filter (fun a => f a && g a) l) <= length (filter f l))%nat.
Proof.
  induction l as [|a l IH]; [cbn; lia|].
  cbn [filter]. destruct (f a), (g a); cbn [andb length]; lia.
Qed.

Lemma filter_both_all {A : Type} (f g : A -> bool) (l : list A) :
  (forall a, In a l -> f a = true -> g a = true) ->
  filter (fun a => f a && g a) l = filter f l.
Proof.
  intros H. apply filter_ext_in. intros a Ha.
  destruct (f a) eqn:E; [|reflexivity]. now rewrite (H a Ha E).
Qed.

Lemma ratio_whole (n : nat) : (0 < n)%nat -> (ratio n n * 100 == 100)%Q.
Proof.
  intros H. unfold ratio.
  assert (Hn : ~ (inject_Z (Z.of_nat n) == 0)%Q).
  { intros E. unfold Qeq in E. simpl in E. lia. }
  field. exact Hn.
Qed.

Lemma compareImages_bounds (cell template : RawImage) :
  (0 <= Template.compareImages cell template <= 100)%Q.
Proof.
  unfold Template.compareImages.
  destruct (Nat.ltb_spec 0 (Template.totalCyanPixels cell template))
    as [Hpos | _]; [|split; [apply Qle_refl | discriminate]].
  destruct (ratio_bounds (Template.matchingPixels cell template)
                         (Template.totalCyanPixels cell template))
    as [Hlo Hhi]; [apply filter_both_length | exact Hpos |].
  split.
  - apply Qmult_le_0_compat; [exact Hlo | discriminate].
  - setoid_replace 100%Q with (1 * 100)%Q at 2 by ring.
    apply Qmult_le_compat_r; [exact Hhi | discriminate].
Qed.

(** X18.  The confidence of [compareImages] lies between 0 and 100; it
    is 0 when the template has no cyan pixel in the compared area, and
    100 when the cell is cyan wherever the template is, as it is when an
    image with a cyan pixel is compared with itself. *)
Theorem confidence_range_and_full_match (cell template : RawImage) :
  (0 <= Template.compareImages cell template <= 100)%Q
  /\ (Template.totalCyanPixels cell template = 0%nat ->
      Template.compareImages cell template = 0%Q)
  /\ ((0 < Template.totalCyanPixels cell template)%nat ->
      (forall xy,
          In xy (Template.comparedPixels cell template) ->
          Template.cyanAt template xy = true ->
          Template.cyanAt cell xy = true) ->
      (Template.compareImages cell template == 100)%Q)
  /\ ((0 < Template.totalCyanPixels template template)%nat ->
      (Template.compareImages template template == 100)%Q).
Proof.
  assert (Hfull : forall c t,
             (0 < Template.totalCyanPixels c t)%nat ->
             (forall xy,
                 In xy (Template.comparedPixels c t) ->
                 Template.cyanAt t xy = true -> Template.cyanAt c xy = true) ->
             (Template.compareImages c t == 100)%Q).
  { intros c t Hpos Hcover. unfold Template.compareImages.
    apply Nat.ltb_lt in Hpos. rewrite Hpos. apply Nat.ltb_lt in Hpos.
    unfold Template.matchingPixels.
    rewrite (filter_both_all _ _ _ Hcover).
    apply ratio_whole. exact Hpos. }
  split; [|split; [|split]].
  - apply compareImages_bounds.
  - intros H. unfold Template.compareImages. now rewrite H.
  - apply Hfull.
  - intros Hpos. apply Hfull; [exact Hpos | auto].
Qed.

Lemma detectLetterFast_from (cell : RawImage)
  (templates : list (ascii * RawImage)) :
  forall (start : Template.Match),
    let best :=
      fold_left
        (fun (bestMatch : Template.Match) (entry : ascii * RawImage) =>
           let confidence := Template.compareImages cell (snd entry) in
           if Qgtb confidence (snd bestMatch) then (fst entry, confidence)
           else bestMatch)
        templates start in
    (forall entry,
        In entry templates ->
        (Template.compareImages cell (snd entry) <= snd best)%Q)
    /\ ((best = start
         /\ forall entry,
             In entry templates ->
             (Template.compareImages cell (snd entry) <= snd start)%Q)
        \/ exists before entry after,
            templates = before ++ entry :: after
            /\ best = (fst entry, Template.compareImages cell (snd entry))
            /\ (snd start < Template.compareImages cell (snd entry))%Q
            /\ forall earlier,
                In earlier before ->
                (Template.compareImages cell (snd earlier)
                 < Template.compareImages cell (snd entry))%Q).
Proof.
  induction templates as [|e rest IH]; intros start; cbv zeta.
  - cbn. split; [intros entry []|]. left. split; [reflexivity | intros entry []].
  - cbn [fold_left]. cbv zeta.
    change (Qgtb (Template.compareImages cell (snd e)) (snd start))
      with (Qltb (snd start) (Template.compareImages cell (snd e))).
    destruct (Qltb_cases (snd start) (Template.compareImages cell (snd e)))
      as [[E P] | [E P]]; rewrite E.
    + destruct (IH (fst e, Template.compareImages cell (snd e)))
        as [Hmax [[Hb Hall] | (before & entry & after & Ht & Hb & Hlt & He)]];
        cbv zeta in *; cbn [snd] in *.
      * split.
        -- intros entry [<- | Hin]; [rewrite Hb; apply Qle_refl|].
           now apply Hmax.
        -- right. exists [], e, rest.
           split; [reflexivity|]. split; [exact Hb|].
           split; [exact P | intros earlier []].
      * split.
        -- intros x [<- | Hin]; [|now apply Hmax].
           rewrite Hb. cbn [snd]. apply Qlt_le_weak, Hlt.
        -- right. exists (e :: before), entry, after.
           split; [rewrite Ht; reflexivity|]. split; [exact Hb|].
           split; [eapply Qlt_trans; eassumption|].
           intros earlier [<- | Hin]; [exact Hlt | now apply He].
    + destruct (IH start)
        as [Hmax [[Hb Hall] | (before & entry & after & Ht & Hb & Hlt & He)]];
        cbv zeta in *.
      * split.
        -- intros entry [<- | Hin]; [rewrite Hb; exact P | now apply Hmax].
        -- left. split; [exact Hb|].
           intros entry [<- | Hin]; [exact P | now apply Hall].
      * split.
        -- intros x [<- | Hin]; [|now apply Hmax].
           rewrite Hb. cbn [snd].
           apply Qlt_le_weak. eapply Qle_lt_trans; eassumption.
        -- right. exists (e :: before), entry, after.
           split; [rewrite Ht; reflexivity|]. split; [exact Hb|].
           split; [exact Hlt|].
           intros earlier [<- | Hin]; [|now apply He].
           eapply Qle_lt_trans; eassumption.
Qed.

(** X19.  [detectLetterFast] returns the largest confidence among the
    templates, with the letter of the first template that reaches it;
    when no template has a confidence above 0 it returns the Unknown
    symbol with confidence 0. *)
Theorem best_match_is_first_with_largest_confidence
  (templates : list (ascii * RawImage)) (cell : RawImage) :
  let best := Template.detectLetterFast templates cell in
  (forall entry,
      In entry templates ->
      (Template.compareImages cell (snd entry) <= snd best)%Q)
  /\ ((best = ("?"%char, 0%Q)
       /\ forall entry,
           In entry templates ->
           (Template.compareImages cell (snd entry) == 0)%Q)
      \/ exists before entry after,
          templates = before ++ entry :: after
          /\ best = (fst entry, Template.compareImages cell (snd entry))
          /\ (0 < Template.compareImages cell (snd entry))%Q
          /\ forall earlier,
              In earlier before ->
              (Template.compareImages cell (snd earlier)
               < Template.compareImages cell (snd entry))%Q).
Proof.
  cbv zeta. unfold Template.detectLetterFast.
  destruct (detectLetterFast_from cell templates ("?"%char, 0%Q))
    as [Hmax [[Hb Hall] | Hex]]; cbv zeta in *.
  - split; [exact Hmax|]. left. split; [exact Hb|].
    intros entry Hin. apply Qle_antisym; [now apply Hall|].
    apply (compareImages_bounds cell (snd entry)).
  - split; [exact Hmax|]. right. exact Hex.
Qed.

(** X20.  The grid that is filled from the results of the detection and
    then read row by row gives back the letter of every cell, in
    row-major order: no cell is left at the Unknown symbol of the new
    grid, none is written twice. *)
Theorem grid_is_read_back_in_row_major_order (letterAt : nat * nat -> ascii) :
  exists grid,
    Template.fillGrid (detectionResults letterAt) Template.newGrid = Some grid
    /\ Template.sequenceOf grid
       = Some (map (fun cell => Some (letterAt cell)) gridCells).
Proof.
  eexists. split; reflexivity.
Qed.

(** * The stop flag of the template matcher *)

Section TemplateStopProofs.

Variable stopRequested : nat -> bool.
Variable execError : nat -> option string.

Lemma await_flag (w : World) :
  let w' := snd (await stopRequested w) in
  suspensions w' = S (suspensions w)
  /\ shouldStop w' = shouldStop w || stopRequested (suspensions w).
Proof.
  cbv zeta. unfold await. destruct (stopRequested (suspensions w)).
  - cbn. now rewrite orb_true_r.
  - cbn. now rewrite orb_false_r.
Qed.

Lemma execKey_world (key : ascii) (w : World) :
  Template.execKey stopRequested execError key w
  = (match execError (suspensions w) with
     | Some message => Throw message
     | None => Return tt
     end,
     snd (await stopRequested (snd (emit (SendKey key) w)))).
Proof.
  unfold Template.execKey, bind. cbn [emit snd].
  match goal with
  | |- context [await stopRequested ?w1] =>
      destruct (await_keeps_config stopRequested w1) as [E1 _]; rewrite E1
  end.
  destruct (execError (suspensions w)); reflexivity.
Qed.

Lemma pressKeySequenceFast_known (key : ascii) (rest : list ascii)
  (w : World) :
  shouldStop w = false -> Ascii.eqb key "?" = false ->
  Template.pressKeySequenceFast stopRequested execError (key :: rest) w
  = let w2 := snd (await stopRequested
                     (snd (emit (SendKey (toLowerCase key)) w))) in
    match execError (suspensions w) with
    | Some message => (Throw message, w2)
    | None =>
        Template.pressKeySequenceFast stopRequested execError rest
          (snd (await stopRequested w2))
    end.
Proof.
  intros Hflag Hkey. cbn [Template.pressKeySequenceFast].
  rewrite Hflag, Hkey. unfold bind at 1. rewrite execKey_world.
  cbv zeta. destruct (execError (suspensions w)); [reflexivity|].
  unfold bind at 1.
  match goal with
  | |- context [await stopRequested ?w1] =>
      destruct (await_keeps_config stopRequested w1) as [E1 _]; rewrite E1
  end.
  reflexivity.
Qed.

(** A request that is served while the keys are pressed leaves the flag
    set, and so does a flag that was set before. *)
Lemma pressKeySequenceFast_flag (keys : list ascii) :
  forall (w : World),
    let w' :=
      snd (Template.pressKeySequenceFast stopRequested execError keys w) in
    (suspensions w <= suspensions w')%nat
    /\ (shouldStop w = true -> w' = w)
    /\ forall n,
        (suspensions w <= n < suspensions w')%nat ->
        stopRequested n = true -> shouldStop w' = true.
Proof.
  induction keys as [|key rest IH]; intros w; cbv zeta.
  - cbn. split; [lia|]. split; [reflexivity|]. intros n Hn. lia.
  - destruct (shouldStop w) eqn:Hflag.
    + cbn [Template.pressKeySequenceFast]. rewrite Hflag. cbn [snd].
      split; [lia|]. split; [reflexivity|]. intros n Hn. lia.
    + destruct (Ascii.eqb key "?") eqn:Hkey.
      * cbn [Template.pressKeySequenceFast]. rewrite Hflag, Hkey.
        destruct (IH w) as (Hs & _ & Hn). cbv zeta in *.
        split; [exact Hs|]. split; [discriminate|]. exact Hn.
      * rewrite pressKeySequenceFast_known by assumption. cbv zeta.
        destruct (await_flag (snd (emit (SendKey (toLowerCase key)) w)))
          as [S1 F1].
        set (w2 := snd (await stopRequested
                          (snd (emit (SendKey (toLowerCase key)) w)))) in *.
        cbn [emit snd suspensions shouldStop] in S1, F1.
        rewrite Hflag in F1. cbn [orb] in F1.
        destruct (execError (suspensions w)) as [message|].
        -- cbn [snd].
           split; [lia|]. split; [discriminate|].
           intros n Hn Hreq. rewrite F1.
           replace n with (suspensions w) in Hreq by lia. exact Hreq.
        -- destruct (await_flag w2) as [S2 F2].
           set (w3 := snd (await stopRequested w2)) in *.
           destruct (IH w3) as (Hs & Hkeep & Hn). cbv zeta in *.
           split; [lia|]. split; [discriminate|].
           intros n Hrange Hreq.
           destruct (Nat.lt_ge_cases n (suspensions w3)) as [Hlt | Hge].
           ++ assert (Hw3 : shouldStop w3 = true).
              { rewrite F2, F1.
                destruct (Nat.eq_dec n (suspensions w)) as [-> | Hne];
                  [now rewrite Hreq|].
                replace (suspensions w2) with n by lia.
                rewrite Hreq. apply orb_true_r. }
              rewrite (Hkeep Hw3). exact Hw3.
           ++ apply (Hn n); [lia | exact Hreq].
Qed.

(** X21.  In the template matcher the stop flag is never cleared by a
    run: once a stop request has been served while keys were pressed,
    every later call of [pressKeySequenceFast] returns at once and sends
    no key. *)
Theorem served_stop_silences_later_sequences (keys later : list ascii)
  (w : World) (n : nat) :
  let w' :=
    snd (Template.pressKeySequenceFast stopRequested execError keys w) in
  (suspensions w <= n < suspensions w')%nat ->
  stopRequested n = true ->
  Template.pressKeySequenceFast stopRequested execError later w'
  = (Return tt, w').
Proof.
  cbv zeta. intros Hn Hreq.
  destruct (pressKeySequenceFast_flag keys w) as (_ & _ & Hflag).
  cbv zeta in Hflag. specialize (Hflag n Hn Hreq).
  destruct later as [|key rest]; [reflexivity|].
  cbn [Template.pressKeySequenceFast]. now rewrite Hflag.
Qed.

(** X22.  With the stop flag clear, no stop request and no failure of
    the key injection, [pressKeySequenceFast] returns normally after
    sending the key of every known letter, in lower case and in the order
    of the sequence; the Unknown symbol is passed over. *)
Theorem template_sends_known_keys_in_order (keys : list ascii) :
  forall (w : World),
    shouldStop w = false ->
    (forall k, (suspensions w <= k)%nat ->
               stopRequested k = false /\ execError k = None) ->
    let result :=
      Template.pressKeySequenceFast stopRequested execError keys w in
    fst result = Return tt
    /\ exists events,
        trace (snd result) = trace w ++ events
        /\ sentKeys events = map toLowerCase (filter known keys).
Proof.
  induction keys as [|key rest IH]; intros w Hflag Hquiet; cbv zeta.
  - cbn. split; [reflexivity|]. exists []. now rewrite app_nil_r.
  - destruct (Ascii.eqb key "?") eqn:Hkey.
    + cbn [Template.pressKeySequenceFast]. rewrite Hflag, Hkey.
      destruct (IH w Hflag Hquiet) as (Hr & events & He & Hk).
      split; [exact Hr|]. exists events. split; [exact He|].
      cbn [filter]. unfold known at 1. rewrite Hkey. exact Hk.
    + rewrite pressKeySequenceFast_known by assumption. cbv zeta.
      destruct (Hquiet (suspensions w)) as [Hs0 He0]; [lia|].
      rewrite He0.
      rewrite (await_undisturbed stopRequested
                 (snd (emit (SendKey (toLowerCase key)) w)))
        by (cbn [emit snd suspensions]; exact Hs0).
      cbn [snd].
      rewrite (await_undisturbed stopRequested)
        by (cbn [emit snd suspensions suspended]; apply Hquiet; lia).
      cbn [snd].
      match goal with
      | |- context [Template.pressKeySequenceFast _ _ rest ?w3] =>
          destruct (IH w3) as (Hr & events & He & Hk)
      end.
      * cbn [emit snd suspended shouldStop]. exact Hflag.
      * intros k Hk. apply Hquiet.
        cbn [emit snd suspensions suspended] in Hk. lia.
      * split; [exact Hr|].
        exists (SendKey (toLowerCase key) :: events).
        split.
        -- rewrite He. cbn [emit snd suspended trace].
           rewrite <- app_assoc. reflexivity.
        -- cbn [filter]. unfold known at 1. rewrite Hkey. cbn [negb map].
           change (SendKey (toLowerCase key) :: events)
             with ([SendKey (toLowerCase key)] ++ events).
           rewrite sentKeys_app, Hk. reflexivity.
Qed.

End TemplateStopProofs.

Lemma served_stop_silences_later_sequences_witness :
  let w' :=
    snd (Template.pressKeySequenceFast (stopAt 1) (fun _ => None)
           ["Q"; "W"; "E"]%char (idle initialConfig)) in
  Template.pressKeySequenceFast (stopAt 1) (fun _ => None)
    ["A"; "S"; "D"]%char w'
  = (Return tt, w').
Proof.
  apply (served_stop_silences_later_sequences (stopAt 1) (fun _ => None)
           ["Q"; "W"; "E"]%char ["A"; "S"; "D"]%char (idle initialConfig) 1).
  - vm_compute. lia.
  - reflexivity.
Defined.

(** * The cells of the earlier single-file main.js *)

(** X23.  For a grid image of at least 51 by 51 pixels, the nine regions
    that the earlier [detectLetters] cuts out are not empty, lie within
    the image, and no two of them share a pixel. *)
Theorem legacy_cells_are_inside_and_disjoint (width height : Z) :
  51 <= width -> 51 <= height ->
  (forall row col,
      (row < 3)%nat -> (col < 3)%nat ->
      let '(x0, y0, w, h) := LegacyGrid.cellRegion width height row col in
      0 <= x0 /\ 0 <= y0 /\ 0 < w /\ 0 < h
      /\ x0 + w <= width /\ y0 + h <= height)
  /\ (forall cell1 cell2 x y,
         In cell1 gridCells -> In cell2 gridCells -> cell1 <> cell2 ->
         covers (LegacyGrid.cellRegion width height (fst cell1) (snd cell1))
                x y ->
         ~ covers (LegacyGrid.cellRegion width height (fst cell2) (snd cell2))
             x y).
Proof.
  intros Hw Hh.
  assert (Qw : 17 <= width / 3 /\ 3 * (width / 3) <= width).
  { pose proof (Z.mul_div_le width 3).
    pose proof (Z.div_le_mono 51 width 3). 
    change (51 / 3) with 17 in *. lia. }
  assert (Qh : 17 <= height / 3 /\ 3 * (height / 3) <= height).
  { pose proof (Z.mul_div_le height 3).
    pose proof (Z.div_le_mono 51 height 3).
    change (51 / 3) with 17 in *. lia. }
  unfold LegacyGrid.cellRegion, covers. cbv zeta.
  set (cw := width / 3) in *. set (ch := height / 3) in *.
  split.
  - intros row col Hr Hc.
    assert (Hcz : 0 <= Z.of_nat col <= 2) by lia.
    assert (Hrz : 0 <= Z.of_nat row <= 2) by lia.
    nia.
  - intros [r1 c1] [r2 c2] x y H1 H2 Hne.
    apply in_gridCells in H1. apply in_gridCells in H2.
    cbn [fst snd].
    assert (Hcase : (r1 < r2 \/ r2 < r1 \/ c1 < c2 \/ c2 < c1)%nat).
    { destruct (Nat.eq_dec r1 r2) as [-> |]; [|lia].
      destruct (Nat.eq_dec c1 c2) as [-> |]; [|lia].
      now elim Hne. }
    intros A B.
    destruct Hcase as [Hc | [Hc | [Hc | Hc]]]; nia.
Qed.

Lemma legacy_cells_are_inside_and_disjoint_witness :
  (forall row col,
      (row < 3)%nat -> (col < 3)%nat ->
      let '(x0, y0, w, h) := LegacyGrid.cellRegion 490 490 row col in
      0 <= x0 /\ 0 <= y0 /\ 0 < w /\ 0 < h
      /\ x0 + w <= 490 /\ y0 + h <= 490)
  /\ (forall cell1 cell2 x y,
         In cell1 gridCells -> In cell2 gridCells -> cell1 <> cell2 ->
         covers (LegacyGrid.cellRegion 490 490 (fst cell1) (snd cell1)) x y ->
         ~ covers (LegacyGrid.cellRegion 490 490 (fst cell2) (snd cell2))
             x y).
Proof.
  apply (legacy_cells_are_inside_and_disjoint 490 490); lia.
Defined.

Lemma template_sends_known_keys_in_order_witness :
  let result :=
    Template.pressKeySequenceFast undisturbed (fun _ => None)
      ["Q"; "?"; "E"]%char (idle initialConfig) in
  fst result = Return tt
  /\ exists events,
      trace (snd result) = trace (idle initialConfig) ++ events
      /\ sentKeys events = map toLowerCase (filter known ["Q"; "?"; "E"]%char).
Proof.
  apply (template_sends_known_keys_in_order undisturbed (fun _ => None)
           ["Q"; "?"; "E"]%char (idle initialConfig)).
  - reflexivity.
  - intros k _. split; reflexivity.
Defined.

(** * The keys of the earlier single-file main.js *)

(** X24.  The earlier [pressKeys] types every symbol of the sequence in
    lower case, each followed by a pause of 50 milliseconds, the Unknown
    symbol included: the chain of conditions that names the key changes
    nothing, and no symbol is passed over. *)
Theorem earlier_pressKeys_types_every_symbol (letters : list ascii) :
  (forall key, LegacyKeys.keyName key = key)
  /\ LegacyKeys.commands (LegacyKeys.join letters)
     = flat_map (fun letter =>
                   [LegacyKeys.SendWait (toLowerCase letter);
                    LegacyKeys.StartSleep 50])
                letters
  /\ (In "?"%char letters ->
      In (LegacyKeys.SendWait "?"%char)
         (LegacyKeys.commands (LegacyKeys.join letters))).
Proof.
  assert (Hname : forall key, LegacyKeys.keyName key = key).
  { intros key. unfold LegacyKeys.keyName.
    repeat match goal with
           | |- context [Ascii.eqb key ?c] =>
               destruct (Ascii.eqb_spec key c) as [-> | _]; [reflexivity|]
           end.
    reflexivity. }
  assert (Hcommands :
            LegacyKeys.commands (LegacyKeys.join letters)
            = flat_map (fun letter =>
                          [LegacyKeys.SendWait (toLowerCase letter);
                           LegacyKeys.StartSleep 50])
                       letters).
  { unfold LegacyKeys.commands, LegacyKeys.join.
    rewrite list_ascii_of_string_of_list_ascii.
    apply flat_map_ext. intros key. cbv zeta. now rewrite Hname. }
  split; [exact Hname|]. split; [exact Hcommands|].
  intros Hin. rewrite Hcommands. apply in_flat_map.
  exists "?"%char. split; [exact Hin | left; reflexivity].
Qed.

(** * The detection under every request and failure *)

Section FullDetectionProofs.

Variable stopRequested : nat -> bool.
Variable configUpdates : nat -> list NewConfig.
Variable extractMessage : Frame -> Z -> Z -> Z -> Z -> string.
Variable writeError : nat -> option string.
Variable detectCellLetter : CellBuffer -> ascii.

Local Abbreviation await' := (Full.await stopRequested configUpdates).

Lemma Full_await_world (w : World) :
  Full.await stopRequested configUpdates w = (Return tt, snd (await' w))
  /\ suspensions (snd (await' w)) = S (suspensions w)
  /\ (configUpdates (suspensions w) = [] ->
      config_of (snd (await' w)) = config_of w).
Proof.
  unfold Full.await. cbv zeta.
  destruct (stopRequested (suspensions w)); cbn;
    (split; [reflexivity|]); (split; [reflexivity|]);
    intros H; rewrite H; reflexivity.
Qed.

(** The world after the capture of a cell, after the writing of its
    debug image, and after the detection of its letter. *)
Local Abbreviation captured' w := (snd (await' w)).
Local Abbreviation saved' row col w :=
  (snd (await' (snd (emit (DebugCellSaved row col) (captured' w))))).
Local Abbreviation detected' row col w := (snd (await' (saved' row col w))).

Lemma Full_detectCells_cons (img : Frame) (topLeftPos : Z * Z)
  (row col : nat) (rest : list (nat * nat)) (acc : list ascii) (w : World) :
  Full.detectCells stopRequested configUpdates extractMessage writeError
                   detectCellLetter img topLeftPos ((row, col) :: rest) acc w
  = let '(x, y, width, height) :=
      getCellPosition (config_of w) row col topLeftPos in
    match extract img x y width height with
    | None =>
        (Throw ("Failed to capture cell [" ++ showNat row ++ ","
                ++ showNat col ++ "]: " ++ extractMessage img x y width height),
         captured' w)
    | Some cellBuffer =>
        match writeError (suspensions (captured' w)) with
        | Some message => (Throw message, snd (await' (captured' w)))
        | None =>
            Full.detectCells stopRequested configUpdates extractMessage
              writeError detectCellLetter img topLeftPos rest
              (acc ++ [detectCellLetter (Some cellBuffer)])
              (detected' row col w)
        end
    end.
Proof.
  cbn [Full.detectCells]. unfold bind at 1.
  unfold Full.captureSingleCell, getCellPosition. cbv beta iota.
  unfold bind at 1.
  destruct (Full_await_world w) as (Ea & _).
  set (w1 := snd (Full.await stopRequested configUpdates w)) in *.
  rewrite Ea.
  destruct (extract img _ _ _ _) as [cellBuffer|]; [|reflexivity].
  unfold ret at 1. unfold bind at 1. unfold Full.saveDebugCell.
  destruct (writeError (suspensions w1)) as [message|].
  - unfold bind at 1.
    destruct (Full_await_world w1) as (Eb & _).
    set (w2 := snd (Full.await stopRequested configUpdates w1)) in *.
    rewrite Eb. reflexivity.
  - unfold bind at 1. cbn [emit].
    match goal with
    | |- context [Full.await stopRequested configUpdates ?w'] =>
        destruct (Full_await_world w') as (Eb & _);
        set (w2 := snd (Full.await stopRequested configUpdates w')) in *
    end.
    rewrite Eb. unfold bind at 1.
    destruct (Full_await_world w2) as (Ec & _).
    set (w3 := snd (Full.await stopRequested configUpdates w2)) in *.
    rewrite Ec. reflexivity.
Qed.

Lemma Full_cell_worlds (row col : nat) (w : World) :
  suspensions (captured' w) = S (suspensions w)
  /\ suspensions (detected' row col w) = S (S (S (suspensions w)))
  /\ ((forall n, (suspensions w <= n)%nat -> configUpdates n = []) ->
      config_of (detected' row col w) = config_of w).
Proof.
  destruct (Full_await_world w) as (_ & S1 & C1).
  destruct (Full_await_world
              (snd (emit (DebugCellSaved row col) (captured' w))))
    as (_ & S2 & C2).
  destruct (Full_await_world (saved' row col w)) as (_ & S3 & C3).
  assert (S2' : suspensions (saved' row col w) = S (suspensions (captured' w)))
    by (rewrite S2; reflexivity).
  split; [exact S1|]. split; [lia|].
  intros H. rewrite C3 by (apply H; lia).
  rewrite C2 by (apply H; cbn [emit snd suspensions]; lia).
  cbn [emit snd config_of]. apply C1. apply H. lia.
Qed.

(** How the loops of [detectLetters] end: with a letter for every cell
    in the order of the cells, at a cell whose region cannot be
    extracted, or at a debug image that cannot be written. *)
Lemma Full_detectCells_outcome (img : Frame) (topLeftPos : Z * Z)
  (cells : list (nat * nat)) :
  forall (acc : list ascii) (w : World),
    match Full.detectCells stopRequested configUpdates extractMessage
            writeError detectCellLetter img topLeftPos cells acc w with
    | (Return letters, _) =>
        exists new,
          letters = acc ++ new
          /\ Forall2 (letterReadInCell configUpdates detectCellLetter w img
                                       topLeftPos)
                     cells new
    | (Throw message, _) =>
        (forall n, (suspensions w <= n)%nat -> configUpdates n = []) ->
        exists before row col after,
          cells = before ++ (row, col) :: after
          /\ Forall (fun cell =>
                       extractable img
                         (getCellPosition (config_of w) (fst cell) (snd cell)
                                          topLeftPos))
                    before
          /\ ((~ extractable img
                   (getCellPosition (config_of w) row col topLeftPos)
               /\ message
                  = ("Failed to capture cell [" ++ showNat row ++ ","
                     ++ showNat col ++ "]: "
                     ++ (let '(x, y, width, height) :=
                           getCellPosition (config_of w) row col topLeftPos in
                         extractMessage img x y width height))%string)
              \/ (extractable img
                    (getCellPosition (config_of w) row col topLeftPos)
                  /\ exists n,
                      (suspensions w <= n)%nat
                      /\ writeError n = Some message))
    end.
Proof.
  induction cells as [|[row col] cells IH]; intros acc w.
  - cbn. exists []. split; [now rewrite app_nil_r | constructor].
  - rewrite Full_detectCells_cons.
    destruct (Full_cell_worlds row col w) as (S1 & S3 & C3).
    unfold extractable, getCellPosition in *. cbv beta iota.
    destruct (extract img (fst topLeftPos + Z.of_nat col * cellSpacing (config_of w))
                (snd topLeftPos + Z.of_nat row * cellSpacing (config_of w))
                (cellSize (config_of w)) (cellSize (config_of w)))
      as [cellBuffer|] eqn:Ex.
    + destruct (writeError (suspensions (captured' w))) as [message|] eqn:Ew.
      * intros _. exists [], row, col, cells.
        split; [reflexivity|]. split; [constructor|].
        right. split; [congruence|].
        exists (suspensions (captured' w)). split; [lia | exact Ew].
      * specialize (IH (acc ++ [detectCellLetter (Some cellBuffer)])
                       (detected' row col w)).
        destruct (Full.detectCells _ _ _ _ _ _ _ _ _ _)
          as [[letters | message] w'].
        -- destruct IH as (new & Hl & Hf).
           exists (detectCellLetter (Some cellBuffer) :: new). split.
           ++ rewrite Hl, <- app_assoc. reflexivity.
           ++ constructor.
              ** exists (config_of w), cellBuffer.
                 split; [reflexivity|]. split; [|reflexivity].
                 unfold getCellPosition. cbn [fst snd]. exact Ex.
              ** eapply Forall2_impl; [|exact Hf].
                 intros cell letter (config & buffer & Hc & Hx & Hd).
                 exists config, buffer. split; [|split; assumption].
                 intros Hquiet. rewrite <- (C3 Hquiet). apply Hc.
                 intros n Hn. apply Hquiet. lia.
        -- intros Hquiet.
           destruct IH as (before & r & c & after & Hc & Hb & Hcause).
           { intros n Hn. apply Hquiet. lia. }
           rewrite (C3 Hquiet) in Hb, Hcause.
           exists ((row, col) :: before), r, c, after.
           split; [rewrite Hc; reflexivity|].
           split; [constructor; [cbn [fst snd]; congruence | exact Hb]|].
           destruct Hcause as [Hcause | (Hx & n & Hn & Hw)];
             [left; exact Hcause|].
           right. split; [exact Hx|]. exists n. split; [lia | exact Hw].
    + intros _. exists [], row, col, cells.
      split; [reflexivity|]. split; [constructor|].
      left. split; [intros H; now apply H | reflexivity].
Qed.

End FullDetectionProofs.

(** * The session as a case of the detection under every request

    When no request changes the configuration, every debug image is
    written and sharp refuses a region with 'bad extract area', the
    detection above is the detection of the session. *)

Lemma Full_await_plain (stopRequested : nat -> bool) (w : World) :
  Full.await stopRequested unchanged w = await stopRequested w.
Proof. reflexivity. Qed.

Lemma Full_detectCells_plain (stopRequested : nat -> bool)
  (detectCellLetter : CellBuffer -> ascii) (img : Frame)
  (topLeftPos : Z * Z) (cells : list (nat * nat)) :
  forall (acc : list ascii) (w : World),
    Full.detectCells stopRequested unchanged badExtractArea written
                     detectCellLetter img topLeftPos cells acc w
    = detectCells stopRequested detectCellLetter img topLeftPos cells acc w.
Proof.
  induction cells as [|[row col] cells IH]; intros acc w; [reflexivity|].
  rewrite Full_detectCells_cons.
  cbn [detectCells]. unfold bind at 1.
  unfold captureSingleCell, getCellPosition. cbv beta iota. unfold bind at 1.
  destruct (await_keeps_config stopRequested w) as [Ea _].
  rewrite Full_await_plain.
  set (w1 := snd (await stopRequested w)) in *. rewrite Ea.
  destruct (extract img _ _ _ _) as [cellBuffer|]; [|reflexivity].
  change (written (suspensions w1)) with (@None string). cbv beta iota.
  unfold ret at 1. unfold bind at 1. cbn [emit]. unfold bind at 1.
  rewrite !Full_await_plain.
  destruct (await_keeps_config stopRequested
              (snd (emit (DebugCellSaved row col) w1))) as [Eb _].
  cbn [emit snd] in Eb |- *.
  match type of Eb with
  | await stopRequested ?w' = _ =>
      set (w2 := snd (await stopRequested w')) in *
  end.
  rewrite Eb. unfold bind at 1.
  destruct (await_keeps_config stopRequested w2) as [Ec _].
  set (w3 := snd (await stopRequested w2)) in *. rewrite Ec.
  apply IH.
Qed.

Lemma Full_detectLetters_plain (stopRequested : nat -> bool)
  (detectCellLetter : CellBuffer -> ascii) (img : Frame) (w : World) :
  Full.detectLetters stopRequested unchanged badExtractArea written
                     detectCellLetter img w
  = detectLetters stopRequested detectCellLetter img w.
Proof.
  unfold Full.detectLetters, detectLetters, bind.
  rewrite Full_detectCells_plain.
  destruct (detectCells _ _ _ _ _ _ _) as [[letters | message] wD];
    reflexivity.
Qed.

(** * No key after a stop *)

Lemma stopped_later (first second : Event) (rest before after : list Event) :
  first <> SolverStatus stopped "Stopped" ->
  second <> SolverStatus stopped "Stopped" ->
  first :: second :: rest = before ++ SolverStatus stopped "Stopped" :: after ->
  exists before',
    before = first :: second :: before'
    /\ rest = before' ++ SolverStatus stopped "Stopped" :: after.
Proof.
  intros H1 H2 H.
  destruct before as [|a [|b before']]; cbn [app] in H.
  - injection H as E _. now elim H1.
  - injection H as _ E _. now elim H2.
  - injection H as <- <- E. exists before'. split; [reflexivity | exact E].
Qed.

Section QuietProofs.

Variable stopRequested : nat -> bool.
Variable letters : list ascii.

Local Abbreviation callback := (Some (notifyKeyPressed letters)).

(** A suspension point serves a stop request or leaves the world as it
    was, but for its count. *)
Lemma await_served (w : World) :
  (stopRequested (suspensions w) = false
   /\ snd (await stopRequested w) = suspended w)
  \/ (trace (snd (await stopRequested w))
      = trace w ++ [SolverStatus stopped "Stopped"]
      /\ shouldStop (snd (await stopRequested w)) = true).
Proof.
  unfold await. destruct (stopRequested (suspensions w));
    [right; split; reflexivity | left; split; reflexivity].
Qed.

(** With the flag clear before a key, either no stop is served while
    the key is sent, or the flag is set afterwards and stops are all that
    follows the key. *)
Lemma afterKey_served (n i : nat) (letter : ascii) (w : World) :
  shouldStop w = false ->
  let w' := afterKey stopRequested letters n i letter w in
  (shouldStop w' = false
   /\ trace w' = trace w ++ [KeyPressed i (nth_error letters i);
                             SendKey (toLowerCase letter)])
  \/ (shouldStop w' = true
      /\ exists stops,
          trace w' = trace w ++ [KeyPressed i (nth_error letters i);
                                 SendKey (toLowerCase letter)] ++ stops
          /\ sentKeys stops = [] /\ pressedIndices stops = []).
Proof.
  intros Hflag. cbv zeta.
  destruct (afterKey_world stopRequested letters n i letter w)
    as (stops & T & K & Hidx & _ & _).
  destruct (shouldStop (afterKey stopRequested letters n i letter w)) eqn:E;
    [right; split; [reflexivity|]; exists stops; auto|].
  left. split; [reflexivity|].
  revert E T. unfold afterKey, sendKey, sleep, bind, notifyKeyPressed, emit, ret.
  cbn [fst snd].
  match goal with
  | |- context [await stopRequested ?w1] =>
      destruct (await_world stopRequested w1) as (s1 & E1 & _);
      destruct (await_served w1) as [[_ A1] | [_ A1]]; rewrite E1
  end.
  - rewrite A1. destruct (S i <? n)%nat.
    + match goal with
      | |- context [await stopRequested ?w2] =>
          destruct (await_world stopRequested w2) as (s2 & E2 & _);
          destruct (await_served w2) as [[_ A2] | [_ A2]]; rewrite E2
      end.
      * rewrite A2. cbn [snd suspended trace shouldStop]. intros _ _.
        now rewrite <- app_assoc.
      * cbn [snd]. intros E. congruence.
    + cbn [snd suspended trace shouldStop]. intros _ _.
      now rewrite <- app_assoc.
  - destruct (S i <? n)%nat.
    + match goal with
      | |- context [await stopRequested ?w2] =>
          destruct (await_world stopRequested w2)
            as (s2 & E2 & _ & _ & _ & _ & _);
          rewrite E2
      end.
      cbn [snd]. intros E _. exfalso.
      match type of E with
      | shouldStop (snd (await stopRequested ?w2)) = false =>
          assert (Hkeep : shouldStop (snd (await stopRequested w2)) = true)
      end.
      { unfold await. destruct (stopRequested _); cbn; [reflexivity|].
        exact A1. }
      congruence.
    + cbn [snd]. intros E. congruence.
Qed.

(** Once a stop request has been served, the loop sends no key and
    announces none; with the flag set it adds nothing at all. *)
Lemma keyLoop_quiet_after_stop (n : nat) (rest : list ascii) :
  forall (i : nat) (w : World) (events : list Event),
    trace (snd (keyLoop stopRequested n callback i rest w))
    = trace w ++ events ->
    (shouldStop w = true -> events = [])
    /\ forall before after,
        events = before ++ SolverStatus stopped "Stopped" :: after ->
        sentKeys after = [] /\ pressedIndices after = [].
Proof.
  induction rest as [|letter rest IH]; intros i w events Ht.
  - cbn in Ht.
    assert (He : events = []).
    { apply (app_inv_head (trace w)). now rewrite app_nil_r. }
    subst events. split; [reflexivity|].
    intros before after H. destruct before; discriminate H.
  - destruct (shouldStop w) eqn:Hflag.
    + rewrite keyLoop_observes_the_flag in Ht by exact Hflag. cbn [snd] in Ht.
      assert (He : events = []).
      { apply (app_inv_head (trace w)). now rewrite app_nil_r. }
      subst events. split; [reflexivity|].
      intros before after H. destruct before; discriminate H.
    + split; [discriminate|].
      destruct (known letter) eqn:Hknown.
      * rewrite keyLoop_presses_known in Ht by assumption.
        destruct (keyLoop_trace stopRequested letters n rest (S i)
                    (afterKey stopRequested letters n i letter w))
          as (k & later & _ & Hl & _).
        destruct (IH (S i) (afterKey stopRequested letters n i letter w)
                     later Hl) as (Hnone & Hafter).
        destruct (afterKey_served n i letter w Hflag)
          as [(Hclear & Htrace) | (Hset & stops & Htrace & Hk & Hp)];
          cbv zeta in *.
        -- rewrite Hl, Htrace, <- app_assoc in Ht.
           apply app_inv_head in Ht. subst events.
           intros before after H. cbn [app] in H.
           apply stopped_later in H; [|discriminate|discriminate].
           destruct H as (before' & _ & H). exact (Hafter _ _ H).
        -- rewrite (Hnone Hset), app_nil_r in Hl.
           rewrite Hl, Htrace in Ht. apply app_inv_head in Ht. subst events.
           intros before after H. cbn [app] in H.
           apply stopped_later in H; [|discriminate|discriminate].
           destruct H as (before' & _ & H). rewrite H in Hk, Hp.
           rewrite sentKeys_app in Hk. rewrite pressedIndices_app in Hp.
           apply app_eq_nil in Hk. apply app_eq_nil in Hp.
           destruct Hk as [_ Hk]. destruct Hp as [_ Hp].
           split; [exact Hk | exact Hp].
      * unfold known in Hknown. apply negb_false_iff in Hknown.
        apply Ascii.eqb_eq in Hknown. subst letter.
        rewrite keyLoop_skips_unknown in Ht by exact Hflag.
        exact (proj2 (IH (S i) w events Ht)).
Qed.

End QuietProofs.

(** * Letters and keys in the order of the grid *)

Section FullLetterProofs.

Variable stopRequested : nat -> bool.
Variable configUpdates : nat -> list NewConfig.
Variable extractMessage : Frame -> Z -> Z -> Z -> Z -> string.
Variable writeError : nat -> option string.
Variable detectCellLetter : CellBuffer -> ascii.

Local Abbreviation detectLetters' :=
  (Full.detectLetters stopRequested configUpdates extractMessage writeError
                      detectCellLetter).

Lemma Full_detectLetters_outcome (img : Frame) (w : World) :
  detectLetters' img w
  = match Full.detectCells stopRequested configUpdates extractMessage
            writeError detectCellLetter img
            (getTopLeftCellPosition (config_of w)) gridCells [] w with
    | (Return letters, wD) =>
        (Return letters, snd (Full.await stopRequested configUpdates wD))
    | (Throw message, wD) => (Throw message, wD)
    end.
Proof.
  unfold Full.detectLetters, bind.
  destruct (Full.detectCells _ _ _ _ _ _ _ _ _ _) as [[letters | message] wD];
    [|reflexivity].
  destruct (Full_await_world stopRequested configUpdates wD) as (Ea & _).
  rewrite Ea. reflexivity.
Qed.

(** X3.  When no request changes the configuration and no debug image
    fails to be written while the detection runs, and the region of the
    presence check can be extracted from the screenshot, [detectLetters]
    captures all nine cells and returns nine letters: it does not
    throw. *)
Theorem readable_grid_gives_nine_letters (img : Frame) (w : World) :
  0 < cellSize (config_of w) -> 0 <= cellSpacing (config_of w) ->
  extractable img (gridRegion (config_of w)) ->
  (forall n, (suspensions w <= n)%nat ->
             configUpdates n = [] /\ writeError n = None) ->
  exists letters w',
    detectLetters' img w = (Return letters, w')
    /\ length letters = 9%nat.
Proof.
  intros S P G Hquiet. rewrite Full_detectLetters_outcome.
  pose proof (Full_detectCells_outcome stopRequested configUpdates
                extractMessage writeError detectCellLetter img
                (getTopLeftCellPosition (config_of w)) gridCells [] w) as H.
  destruct (Full.detectCells _ _ _ _ _ _ _ _ _ _) as [[letters | message] wD].
  - destruct H as (new & -> & Hf).
    eexists. eexists. split; [reflexivity|].
    apply Forall2_length in Hf. cbn [app]. now rewrite <- Hf.
  - exfalso.
    destruct H as (before & row & col & after & Hc & _ & Hcause).
    { intros n Hn. now apply Hquiet. }
    destruct Hcause as [[Hn _] | (_ & n & Hn & Hw)].
    + apply Hn.
      apply (cellRegion_within (config_of w) row col); try assumption;
        apply (in_gridCells row col); rewrite Hc; apply in_elt.
    + destruct (Hquiet n Hn) as [_ Hnone]. congruence.
Qed.

(** X4.  When [detectLetters] throws and no request has changed the
    configuration meanwhile, the cells before some cell of the grid, in
    the order of the loops, could all be extracted, and either the region
    of that cell cannot be extracted and the message is ['Failed to
    capture cell [row,col]: '] followed by what sharp says of the region,
    or the region can be extracted and the message is that of the debug
    image that could not be written. *)
Theorem failed_detection_names_its_cause (img : Frame) (w w' : World)
  (message : string) :
  detectLetters' img w = (Throw message, w') ->
  (forall n, (suspensions w <= n)%nat -> configUpdates n = []) ->
  exists before row col after,
    gridCells = before ++ (row, col) :: after
    /\ Forall (fun cell =>
                 extractable img
                   (cellRegion (config_of w) (fst cell) (snd cell)))
              before
    /\ ((~ extractable img (cellRegion (config_of w) row col)
         /\ message
            = ("Failed to capture cell [" ++ showNat row ++ ","
               ++ showNat col ++ "]: "
               ++ (let '(x, y, width, height) :=
                     cellRegion (config_of w) row col in
                   extractMessage img x y width height))%string)
        \/ (extractable img (cellRegion (config_of w) row col)
            /\ exists n,
                (suspensions w <= n)%nat /\ writeError n = Some message)).
Proof.
  rewrite Full_detectLetters_outcome. intros Hrun Hquiet.
  pose proof (Full_detectCells_outcome stopRequested configUpdates
                extractMessage writeError detectCellLetter img
                (getTopLeftCellPosition (config_of w)) gridCells [] w) as H.
  destruct (Full.detectCells _ _ _ _ _ _ _ _ _ _) as [[letters | m] wD];
    [discriminate Hrun|].
  injection Hrun as <- _. exact (H Hquiet).
Qed.

(** C4.  The letters of a grid are those of the cells (0,0), (0,1),
    (0,2), (1,0), ..., (2,2) in this order, each read in the region of
    its cell, and [executeKeySequence] goes through them from the first
    on.  The keys it sends, and the indices it announces, are those of
    the letters other than ['?'] among the first [k] letters, in their
    order, and nothing else is sent.  Without a stop request [k] is the
    whole length and the sequence completes; it ends early only with
    'Sequence stopped by user', after a stop request was served, and
    from the serving of a stop request on no key is sent or announced.
    A loop that finds the stop flag set throws at once, without any
    event. *)
Theorem keys_are_sent_in_row_major_order :
  gridCells
  = [(0, 0); (0, 1); (0, 2); (1, 0); (1, 1); (1, 2); (2, 0); (2, 1); (2, 2)]%nat
  /\ (forall img w letters w',
        detectLetters' img w = (Return letters, w') ->
        Forall2 (letterReadInCell configUpdates detectCellLetter w img
                   (getTopLeftCellPosition (config_of w)))
                gridCells letters)
  /\ (forall letters w,
        let run := executeKeySequence stopRequested letters
                     (Some (notifyKeyPressed letters)) w in
        exists k events,
          (k <= length letters)%nat
          /\ trace (snd run) = trace w ++ events
          /\ sentKeys events
             = map toLowerCase (filter known (firstn k letters))
          /\ pressedIndices events
             = map fst (filter (fun il => known (snd il))
                               (firstn k (indexed letters)))
          /\ Forall keyOrStop events
          /\ (fst run = Return tt -> k = length letters)
          /\ ((forall n, (suspensions w <= n)%nat ->
                         stopRequested n = false) ->
              fst run = Return tt)
          /\ (forall message,
                fst run = Throw message ->
                message = "Sequence stopped by user"%string
                /\ (k < length letters)%nat
                /\ shouldStop (snd run) = true
                /\ In (SolverStatus stopped "Stopped") events)
          /\ (forall before after,
                events = before ++ SolverStatus stopped "Stopped" :: after ->
                sentKeys after = [] /\ pressedIndices after = []))
  /\ (forall n callback i letter rest w,
        shouldStop w = true ->
        keyLoop stopRequested n callback i (letter :: rest) w
        = (Throw "Sequence stopped by user", w)).
Proof.
  split; [reflexivity|].
  split.
  { intros img w letters w' Hrun. rewrite Full_detectLetters_outcome in Hrun.
    pose proof (Full_detectCells_outcome stopRequested configUpdates
                  extractMessage writeError detectCellLetter img
                  (getTopLeftCellPosition (config_of w)) gridCells [] w) as H.
    destruct (Full.detectCells _ _ _ _ _ _ _ _ _ _) as [[found | m] wD];
      [|discriminate Hrun].
    injection Hrun as <- _. destruct H as (new & -> & Hf). exact Hf. }
  split; [|intros; now apply keyLoop_observes_the_flag].
  intros letters w. cbv zeta. unfold executeKeySequence.
  destruct (keyLoop_trace stopRequested letters (length letters) letters 0
                          (setShouldStop false w))
    as (k & events & Hk & Ht & Hs & Hp & Hf & Hr & Hthrow).
  exists k, events.
  split; [exact Hk|]. split; [exact Ht|]. split; [exact Hs|].
  split; [exact Hp|]. split; [exact Hf|]. split; [exact Hr|].
  split; [|split].
  - intros Hquiet.
    apply (keyLoop_undisturbed stopRequested letters (length letters) letters
                               0 (setShouldStop false w));
      [reflexivity | exact Hquiet].
  - intros message H.
    destruct (Hthrow message H) as (Hm & Hlt & Hflag & [Habsurd | Hin]);
      [discriminate Habsurd|].
    now repeat split.
  - exact (proj2 (keyLoop_quiet_after_stop stopRequested letters
                    (length letters) letters 0 (setShouldStop false w)
                    events Ht)).
Qed.

End FullLetterProofs.

Lemma readable_grid_gives_nine_letters_witness :
  exists letters w',
    Full.detectLetters undisturbed unchanged badExtractArea written
                       Solver.detectCellLetter puzzleScreen
                       (idle initialConfig) = (Return letters, w')
    /\ length letters = 9%nat.
Proof.
  apply (readable_grid_gives_nine_letters undisturbed unchanged
           badExtractArea written Solver.detectCellLetter
           puzzleScreen (idle initialConfig)).
  - simpl. lia.
  - simpl. lia.
  - apply extract_succeeds. simpl. lia.
  - intros n _. split; reflexivity.
Defined.

Lemma failed_detection_names_its_cause_witness :
  exists before row col after,
    gridCells = before ++ (row, col) :: after
    /\ Forall (fun cell =>
                 extractable (uniformScreen black 1000 1000)
                   (cellRegion initialConfig (fst cell) (snd cell)))
              before
    /\ ((~ extractable (uniformScreen black 1000 1000)
             (cellRegion initialConfig row col)
         /\ "Failed to capture cell [0,2]: extract_area: bad extract area"%string
            = ("Failed to capture cell [" ++ showNat row ++ ","
               ++ showNat col ++ "]: "
               ++ (let '(x, y, width, height) :=
                     cellRegion initialConfig row col in
                   badExtractArea (uniformScreen black 1000 1000) x y width height))%string)
        \/ (extractable (uniformScreen black 1000 1000)
              (cellRegion initialConfig row col)
            /\ exists n,
                (0 <= n)%nat
                /\ written n
                   = Some "Failed to capture cell [0,2]: extract_area: bad extract area"%string)).
Proof.
  apply (failed_detection_names_its_cause
           undisturbed unchanged badExtractArea written
           Solver.detectCellLetterStream
           (uniformScreen black 1000 1000) (idle initialConfig)
           (snd (Full.detectLetters undisturbed unchanged badExtractArea
                   written Solver.detectCellLetterStream
                   (uniformScreen black 1000 1000) (idle initialConfig)))).
  - vm_compute. reflexivity.
  - intros n _. reflexivity.
Defined.

(** The grid of [puzzleScreen] is sent up to its third key when a stop
    request arrives at the suspension point 36. *)
Lemma keys_are_sent_in_row_major_order_witness :
  let run := executeKeySequence (stopAt 36) puzzleLetters
               (Some (notifyKeyPressed puzzleLetters)) puzzleExecution in
  fst run = Throw "Sequence stopped by user"
  /\ trace (snd run)
     = trace puzzleExecution
       ++ [KeyPressed 0 (Some "W"%char); SendKey "w";
           KeyPressed 1 (Some "W"%char); SendKey "w";
           KeyPressed 2 (Some "W"%char); SendKey "w";
           SolverStatus stopped "Stopped"]
  /\ exists k events,
      (k <= length puzzleLetters)%nat
      /\ trace (snd run) = trace puzzleExecution ++ events
      /\ sentKeys events
         = map toLowerCase (filter known (firstn k puzzleLetters))
      /\ In (SolverStatus stopped "Stopped") events
      /\ (forall before after,
             events = before ++ SolverStatus stopped "Stopped" :: after ->
             sentKeys after = [] /\ pressedIndices after = []).
Proof.
  cbv zeta. split; [vm_compute; reflexivity|].
  split; [vm_compute; reflexivity|].
  destruct (keys_are_sent_in_row_major_order (stopAt 36) unchanged
              badExtractArea written Solver.detectCellLetter)
    as (_ & _ & Hkeys & _).
  destruct (Hkeys puzzleLetters puzzleExecution)
    as (k & events & Hk & Ht & Hs & _ & _ & _ & _ & Hthrow & Hafter).
  exists k, events.
  split; [exact Hk|]. split; [exact Ht|]. split; [exact Hs|].
  split; [|exact Hafter].
  apply (Hthrow "Sequence stopped by user"%string). vm_compute. reflexivity.
Defined.
